(** * Data Alchemist: column classifier, value normalizer, validation engine
      and CSV export, as a shallow embedding of the TypeScript sources.

    Sources embedded here:
    - the upload component (performAISchemaDetection, detectColumnSchema,
      classifyEntityType, detectRelationships, findPrimaryKey, cleanValue),
    - app/page.tsx (runValidation and its passes, updateData, applyAutoFix),
    - components/export-controls.tsx (downloadCSV, exportAll, exportSingle),
    - components/data-grid.tsx (the row filter, startEdit, saveEdit,
      getCellErrors),
    - the AI assistant (applyAllAutoFixes),
    - the sample loader (parseCSV).

    Conventions of the embedding.
    - A JavaScript string is a Rocq [string]; each character stands for one
      code unit below 256, so the white space of the language is the set
      9 to 13, 32 and 160.
    - A JavaScript number held in a cell is kept as its decimal expansion
      (sign, integer digits, fraction digits) in normal form; rounding to
      binary64 and overflow to Infinity are not modelled, and there is no
      negative zero.
    - Scores and ratios computed by the classifier are exact rationals, with
      a separate not-a-number value for 0/0.  A sample has at most a hundred
      values, so two scores that differ as rationals differ by a tenth or
      more and compare the same way as the doubles of the source; two scores
      that are equal as rationals are equal in the model, which their
      doubles need not be when one of them is the id score (a sum).
    - Date.parse and the URL constructor are host functions whose behaviour
      is not fixed by the language; they are parameters ([Host]).
    - Fields that only carry text or constants for display are left out of
      the records: the message, suggestion, aiConfidence and businessImpact
      of a finding, the cardinality of a relationship, the reasoning of the
      entity classification. *)

From Stdlib Require Import List String Ascii Bool Arith ZArith QArith Lia.
From Stdlib Require Import Numbers.DecimalString.
From Stdlib Require Import Sorting.Sorted.
Import ListNotations.
Open Scope string_scope.
Open Scope nat_scope.

(* ================================================================== *)
(** ** Strings *)
(* ================================================================== *)

Definition chr (n : nat) : ascii := ascii_of_nat n.

(** The double quote character and the one-character string holding it. *)
Definition dquote : ascii := chr 34.
Definition DQ : string := String dquote EmptyString.

Definition isWhiteSpace (c : ascii) : bool :=
  let n := nat_of_ascii c in
  ((9 <=? n) && (n <=? 13)) || (n =? 32) || (n =? 160).

Definition isDigit (c : ascii) : bool :=
  let n := nat_of_ascii c in (48 <=? n) && (n <=? 57).

Definition isUpper (c : ascii) : bool :=
  let n := nat_of_ascii c in (65 <=? n) && (n <=? 90).

Definition isLower (c : ascii) : bool :=
  let n := nat_of_ascii c in (97 <=? n) && (n <=? 122).

Definition isHexDigit (c : ascii) : bool :=
  let n := nat_of_ascii c in
  isDigit c || ((65 <=? n) && (n <=? 70)) || ((97 <=? n) && (n <=? 102)).

Definition lowerChar (c : ascii) : ascii :=
  let n := nat_of_ascii c in
  if isUpper c || ((192 <=? n) && (n <=? 222) && negb (n =? 215))
  then ascii_of_nat (n + 32) else c.

Fixpoint mapS (f : ascii -> ascii) (s : string) : string :=
  match s with
  | EmptyString => EmptyString
  | String c r => String (f c) (mapS f r)
  end.

Definition toLowerCase (s : string) : string := mapS lowerChar s.

Fixpoint trimStart (s : string) : string :=
  match s with
  | EmptyString => EmptyString
  | String c r => if isWhiteSpace c then trimStart r else s
  end.

Fixpoint trimEnd (s : string) : string :=
  match s with
  | EmptyString => EmptyString
  | String c r =>
      match trimEnd r with
      | EmptyString => if isWhiteSpace c then EmptyString else String c EmptyString
      | t => String c t
      end
  end.

Definition trim (s : string) : string := trimEnd (trimStart s).

Definition startsWith (s p : string) : bool := prefix p s.

Fixpoint includes (s sub : string) : bool :=
  prefix sub s ||
  match s with
  | EmptyString => false
  | String _ r => includes r sub
  end.

Fixpoint lastChar (s : string) : option ascii :=
  match s with
  | EmptyString => None
  | String c EmptyString => Some c
  | String _ r => lastChar r
  end.

(** [s.endsWith(c)] for a one-character argument. *)
Definition endsWithChar (s : string) (c : ascii) : bool :=
  match lastChar s with
  | Some d => Ascii.eqb d c
  | None => false
  end.

(** [s.split(sep)] for a one-character separator: never the empty list. *)
Fixpoint split (sep : ascii) (s : string) : list string :=
  match s with
  | EmptyString => [EmptyString]
  | String c r =>
      if Ascii.eqb c sep then EmptyString :: split sep r
      else match split sep r with
           | h :: t => String c h :: t
           | [] => [String c EmptyString]
           end
  end.

(** [s.replace(/c/g, by)]. *)
Fixpoint replaceAll (c : ascii) (by_ : string) (s : string) : string :=
  match s with
  | EmptyString => EmptyString
  | String d r =>
      if Ascii.eqb d c then by_ ++ replaceAll c by_ r
      else String d (replaceAll c by_ r)
  end.

Definition join (sep : string) (l : list string) : string := String.concat sep l.

Fixpoint allS (p : ascii -> bool) (s : string) : bool :=
  match s with
  | EmptyString => true
  | String c r => p c && allS p r
  end.

(** Longest prefix of characters satisfying [p], and the rest. *)
Fixpoint span (p : ascii -> bool) (s : string) : string * string :=
  match s with
  | EmptyString => (EmptyString, EmptyString)
  | String c r =>
      if p c then let '(a, b) := span p r in (String c a, b)
      else (EmptyString, s)
  end.

Fixpoint takeS (n : nat) (s : string) : string :=
  match n, s with
  | S k, String c r => String c (takeS k r)
  | _, _ => EmptyString
  end.

Fixpoint dropS (n : nat) (s : string) : string :=
  match n, s with
  | S k, String _ r => dropS k r
  | _, _ => s
  end.

Fixpoint zeros (n : nat) : string :=
  match n with
  | O => EmptyString
  | S k => String "0" (zeros k)
  end.

(** Decimal text of an array index. *)
Definition natToString (n : nat) : string :=
  NilZero.string_of_uint (Nat.to_uint n).

(* ================================================================== *)
(** ** Numbers *)
(* ================================================================== *)

(** A number: not-a-number, an infinity, or a decimal expansion
    [ip.fp] with a sign. *)
Inductive number : Type :=
| NaN
| Inf (neg : bool)
| Dec (neg : bool) (ip fp : string).

Definition digitVal (c : ascii) : Z := Z.of_nat (nat_of_ascii c) - 48.

Definition hexVal (c : ascii) : Z :=
  let n := Z.of_nat (nat_of_ascii c) in
  if isDigit c then n - 48
  else if isUpper c then n - 55 else n - 87.

Fixpoint digitsValue (base : Z) (val : ascii -> Z) (acc : Z) (s : string) : Z :=
  match s with
  | EmptyString => acc
  | String c r => digitsValue base val (acc * base + val c)%Z r
  end.

Definition isZeroChar (c : ascii) : bool := Ascii.eqb c "0".

Fixpoint stripLeadingZeros (s : string) : string :=
  match s with
  | EmptyString => EmptyString
  | String c r => if isZeroChar c then stripLeadingZeros r else s
  end.

Fixpoint stripTrailingZeros (s : string) : string :=
  match s with
  | EmptyString => EmptyString
  | String c r =>
      match stripTrailingZeros r with
      | EmptyString => if isZeroChar c then EmptyString else String c EmptyString
      | t => String c t
      end
  end.

Definition isEmpty (s : string) : bool :=
  match s with EmptyString => true | _ => false end.

(** Normal form of a decimal expansion: no redundant zeros, no negative zero. *)
Definition normalize (neg : bool) (ip fp : string) : number :=
  let ip' := stripLeadingZeros ip in
  let fp' := stripTrailingZeros fp in
  let zero := isEmpty ip' && isEmpty fp' in
  Dec (neg && negb zero) (if isEmpty ip' then "0" else ip') fp'.

(** Multiplication by a power of ten, on the digits. *)
Definition shift (ip fp : string) (e : Z) : string * string :=
  if (0 <=? e)%Z then
    let k := Z.to_nat e in
    (ip ++ takeS k (fp ++ zeros k), dropS k fp)
  else
    let k := Z.to_nat (- e) in
    let padded := zeros k ++ ip in
    (takeS (String.length ip) padded, dropS (String.length ip) padded ++ fp).

Definition readSign (s : string) : bool * string :=
  match s with
  | String c r =>
      if Ascii.eqb c "-" then (true, r)
      else if Ascii.eqb c "+" then (false, r)
      else (false, s)
  | EmptyString => (false, s)
  end.

Definition readExponent (s : string) : Z :=
  match s with
  | String c r =>
      if Ascii.eqb c "e" || Ascii.eqb c "E" then
        let '(eneg, r1) := readSign r in
        let '(ed, _) := span isDigit r1 in
        if isEmpty ed then 0%Z
        else let v := digitsValue 10 digitVal 0 ed in
             if eneg then (- v)%Z else v
      else 0%Z
  | EmptyString => 0%Z
  end.

(** The fraction digits after the integer digits, and the rest. *)
Definition readFraction (r1 : string) : string * string :=
  match r1 with
  | String c r => if Ascii.eqb c "." then span isDigit r else (EmptyString, r1)
  | EmptyString => (EmptyString, r1)
  end.

(** The value of the longest prefix of [s2] that is an unsigned decimal
    literal, with the sign [neg] already read. *)
Definition strDecimalLiteral (neg : bool) (s2 : string) : number :=
  if prefix "Infinity" s2 then Inf neg
  else
    let '(ip, r1) := span isDigit s2 in
    let '(fp, r2) := readFraction r1 in
    if isEmpty ip && isEmpty fp then NaN
    else let '(ip', fp') := shift ip fp (readExponent r2) in
         normalize neg ip' fp'.

(** The global [parseFloat]: leading white space, a sign, and the longest
    prefix that is a decimal literal. *)
Definition parseFloat (s : string) : number :=
  let '(neg, s2) := readSign (trimStart s) in
  strDecimalLiteral neg s2.

(** The global [parseInt] with no radix argument; [None] is not-a-number. *)
Definition parseInt (s : string) : option Z :=
  let '(neg, s2) := readSign (trimStart s) in
  let hex := prefix "0x" s2 || prefix "0X" s2 in
  let '(ds, _) := if hex then span isHexDigit (dropS 2 s2) else span isDigit s2 in
  if isEmpty ds then None
  else
    let v := if hex then digitsValue 16 hexVal 0 ds
             else digitsValue 10 digitVal 0 ds in
    Some (if neg then (- v)%Z else v).

Definition isNaN (n : number) : bool :=
  match n with NaN => true | _ => false end.

Definition isFinite (n : number) : bool :=
  match n with Dec _ _ _ => true | _ => false end.

(** The text of the fraction digits: nothing, or a point and the digits. *)
Definition fracText (fp : string) : string :=
  if isEmpty fp then "" else "." ++ fp.

(** Number to string, in positional decimal notation throughout (the
    language turns to exponent notation from 1e21 and below 1e-6; both
    notations read back to the same number). *)
Definition numberToString (n : number) : string :=
  match n with
  | NaN => "NaN"
  | Inf false => "Infinity"
  | Inf true => "-Infinity"
  | Dec neg ip fp => (if neg then "-" else "") ++ ip ++ fracText fp
  end.

Definition numberIsZero (n : number) : bool :=
  match n with
  | Dec _ ip fp => allS isZeroChar ip && allS isZeroChar fp
  | _ => false
  end.

Definition number_eqb (a b : number) : bool :=
  match a, b with
  | NaN, NaN => true
  | Inf x, Inf y => Bool.eqb x y
  | Dec n1 i1 f1, Dec n2 i2 f2 => Bool.eqb n1 n2 && String.eqb i1 i2 && String.eqb f1 f2
  | _, _ => false
  end.

(** The integer [n] as a number. *)
Definition numOfNat (n : nat) : number := Dec false (natToString n) "".

(** Order on numbers, by aligning the fraction digits. *)
Definition scaled (k : nat) (neg : bool) (ip fp : string) : Z :=
  let v := digitsValue 10 digitVal 0 (ip ++ takeS k (fp ++ zeros k)) in
  if neg then (- v)%Z else v.

Definition number_ltb (a b : number) : bool :=
  match a, b with
  | NaN, _ | _, NaN => false
  | Inf x, Inf y => x && negb y
  | Inf x, Dec _ _ _ => x
  | Dec _ _ _, Inf y => negb y
  | Dec n1 i1 f1, Dec n2 i2 f2 =>
      let k := Nat.max (String.length f1) (String.length f2) in
      (scaled k n1 i1 f1 <? scaled k n2 i2 f2)%Z
  end.


(* ================================================================== *)
(** ** JSON.parse, as a recogniser *)
(* ================================================================== *)

(** [JSON.parse] is used by the sources only for whether it throws and for
    whether the parsed value is an array.  The recogniser is a pushdown
    automaton over the characters of the text, following the JSON grammar. *)

Inductive jctx : Type := CArr | CObj.

Inductive jmode : Type :=
| MValue | MValueOrClose | MKeyOrClose | MKey | MColon | MAfter
| MStr (key : bool) | MEsc (key : bool) | MHex (key : bool) (n : nat)
| MMinus | MZero | MInt | MDot | MFrac | MExpStart | MExpSign | MExp
| MLit (rest : string).

Definition jws (c : ascii) : bool :=
  let n := nat_of_ascii c in (n =? 9) || (n =? 10) || (n =? 13) || (n =? 32).

Definition isE (c : ascii) : bool := Ascii.eqb c "e" || Ascii.eqb c "E".

Definition startValue (c : ascii) (stk : list jctx) : option (jmode * list jctx) :=
  if Ascii.eqb c "{" then Some (MKeyOrClose, CObj :: stk)
  else if Ascii.eqb c "[" then Some (MValueOrClose, CArr :: stk)
  else if Ascii.eqb c dquote then Some (MStr false, stk)
  else if Ascii.eqb c "-" then Some (MMinus, stk)
  else if Ascii.eqb c "0" then Some (MZero, stk)
  else if isDigit c then Some (MInt, stk)
  else if Ascii.eqb c "t" then Some (MLit "rue", stk)
  else if Ascii.eqb c "f" then Some (MLit "alse", stk)
  else if Ascii.eqb c "n" then Some (MLit "ull", stk)
  else None.

Definition afterValue (c : ascii) (stk : list jctx) : option (jmode * list jctx) :=
  if jws c then Some (MAfter, stk)
  else if Ascii.eqb c "," then
    match stk with
    | CArr :: _ => Some (MValue, stk)
    | CObj :: _ => Some (MKey, stk)
    | [] => None
    end
  else if Ascii.eqb c "]" then
    match stk with CArr :: r => Some (MAfter, r) | _ => None end
  else if Ascii.eqb c "}" then
    match stk with CObj :: r => Some (MAfter, r) | _ => None end
  else None.

Definition jstep (m : jmode) (stk : list jctx) (c : ascii)
  : option (jmode * list jctx) :=
  match m with
  | MValue => if jws c then Some (MValue, stk) else startValue c stk
  | MValueOrClose =>
      if jws c then Some (MValueOrClose, stk)
      else if Ascii.eqb c "]" then
        match stk with CArr :: r => Some (MAfter, r) | _ => None end
      else startValue c stk
  | MKeyOrClose =>
      if jws c then Some (MKeyOrClose, stk)
      else if Ascii.eqb c "}" then
        match stk with CObj :: r => Some (MAfter, r) | _ => None end
      else if Ascii.eqb c dquote then Some (MStr true, stk)
      else None
  | MKey =>
      if jws c then Some (MKey, stk)
      else if Ascii.eqb c dquote then Some (MStr true, stk)
      else None
  | MColon =>
      if jws c then Some (MColon, stk)
      else if Ascii.eqb c ":" then Some (MValue, stk)
      else None
  | MAfter => afterValue c stk
  | MStr k =>
      if Ascii.eqb c dquote then Some (if k then MColon else MAfter, stk)
      else if Ascii.eqb c "\" then Some (MEsc k, stk)
      else if nat_of_ascii c <? 32 then None
      else Some (MStr k, stk)
  | MEsc k =>
      if Ascii.eqb c dquote || Ascii.eqb c "\" || Ascii.eqb c "/"
         || Ascii.eqb c "b" || Ascii.eqb c "f" || Ascii.eqb c "n"
         || Ascii.eqb c "r" || Ascii.eqb c "t"
      then Some (MStr k, stk)
      else if Ascii.eqb c "u" then Some (MHex k 3, stk)
      else None
  | MHex k n =>
      if isHexDigit c then
        match n with
        | O => Some (MStr k, stk)
        | S n' => Some (MHex k n', stk)
        end
      else None
  | MMinus =>
      if Ascii.eqb c "0" then Some (MZero, stk)
      else if isDigit c then Some (MInt, stk)
      else None
  | MZero =>
      if Ascii.eqb c "." then Some (MDot, stk)
      else if isE c then Some (MExpStart, stk)
      else afterValue c stk
  | MInt =>
      if isDigit c then Some (MInt, stk)
      else if Ascii.eqb c "." then Some (MDot, stk)
      else if isE c then Some (MExpStart, stk)
      else afterValue c stk
  | MDot => if isDigit c then Some (MFrac, stk) else None
  | MFrac =>
      if isDigit c then Some (MFrac, stk)
      else if isE c then Some (MExpStart, stk)
      else afterValue c stk
  | MExpStart =>
      if Ascii.eqb c "+" || Ascii.eqb c "-" then Some (MExpSign, stk)
      else if isDigit c then Some (MExp, stk)
      else None
  | MExpSign => if isDigit c then Some (MExp, stk) else None
  | MExp => if isDigit c then Some (MExp, stk) else afterValue c stk
  | MLit rest =>
      match rest with
      | String d r =>
          if Ascii.eqb c d
          then Some (if isEmpty r then MAfter else MLit r, stk)
          else None
      | EmptyString => None
      end
  end.

Definition jaccepting (m : jmode) : bool :=
  match m with
  | MAfter | MZero | MInt | MFrac | MExp => true
  | _ => false
  end.

Fixpoint jrun (m : jmode) (stk : list jctx) (s : string) : bool :=
  match s with
  | EmptyString => jaccepting m && match stk with [] => true | _ => false end
  | String c r =>
      match jstep m stk c with
      | Some (m', stk') => jrun m' stk' r
      | None => false
      end
  end.

Fixpoint firstSignificant (s : string) : option ascii :=
  match s with
  | EmptyString => None
  | String c r => if jws c then firstSignificant r else Some c
  end.

(** What the sources observe of [JSON.parse(s)]: [None] when it throws,
    otherwise whether [Array.isArray] holds of the result. *)
Definition JSON_parse (s : string) : option bool :=
  if jrun MValue [] s then
    match firstSignificant s with
    | Some c => Some (Ascii.eqb c "[")
    | None => Some false
    end
  else None.

Definition jsonParses (s : string) : bool :=
  match JSON_parse s with Some _ => true | None => false end.

(* ================================================================== *)
(** ** The two regular expressions of the sources *)
(* ================================================================== *)

Definition notSpaceAt (c : ascii) : bool :=
  negb (isWhiteSpace c) && negb (Ascii.eqb c "@").

(** Some dot of [s] has a character before it and a character after it. *)
Fixpoint hasInnerDot (s : string) : bool :=
  match s with
  | String _ ((String c r) as t) =>
      (Ascii.eqb c "." && negb (isEmpty r)) || hasInnerDot t
  | _ => false
  end.

(** [/^[^\s@]+@[^\s@]+\.[^\s@]+$/.test(s)] *)
Definition emailRegex_test (s : string) : bool :=
  let '(local_, rest) := span notSpaceAt s in
  match rest with
  | String c domain =>
      Ascii.eqb c "@" && negb (isEmpty local_)
      && allS notSpaceAt domain && hasInnerDot domain
  | EmptyString => false
  end.

Definition isIdChar (c : ascii) : bool :=
  isLower c || isUpper c || isDigit c || Ascii.eqb c "-" || Ascii.eqb c "_".

(** [/^[A-Z]\d{3,}$|^[a-zA-Z0-9-_]{8,}$/.test(s)] *)
Definition idPattern_test (s : string) : bool :=
  match s with
  | String c r =>
      (isUpper c && allS isDigit r && (3 <=? String.length r))
      || (allS isIdChar s && (8 <=? String.length s))
  | EmptyString => false
  end.

(* ================================================================== *)
(** ** Values and rows *)
(* ================================================================== *)

(** A cell value.  [VObject] is a host object, of which the sources observe
    only its text under [String(...)] and that it is truthy. *)
Inductive value : Type :=
| VUndefined
| VNull
| VBool (b : bool)
| VNum (n : number)
| VStr (s : string)
| VObject (text : string).

(** [String(v)] *)
Definition toString (v : value) : string :=
  match v with
  | VUndefined => "undefined"
  | VNull => "null"
  | VBool true => "true"
  | VBool false => "false"
  | VNum n => numberToString n
  | VStr s => s
  | VObject t => t
  end.

(** Truthiness: what [!v], [v && ...] and [v || ...] test. *)
Definition truthy (v : value) : bool :=
  match v with
  | VUndefined | VNull => false
  | VBool b => b
  | VNum n => negb (isNaN n || numberIsZero n)
  | VStr s => negb (isEmpty s)
  | VObject _ => true
  end.

(** Equality of values as [Set] membership sees it. *)
Definition value_eqb (a b : value) : bool :=
  match a, b with
  | VUndefined, VUndefined => true
  | VNull, VNull => true
  | VBool x, VBool y => Bool.eqb x y
  | VNum x, VNum y => number_eqb x y
  | VStr x, VStr y => String.eqb x y
  | VObject x, VObject y => String.eqb x y
  | _, _ => false
  end.

(** [v === null || v === undefined || v === ''] *)
Definition isBlank (v : value) : bool :=
  match v with
  | VUndefined | VNull => true
  | VStr s => isEmpty s
  | _ => false
  end.

(** [!v || v === ''] *)
Definition isMissing (v : value) : bool :=
  negb (truthy v) || match v with VStr s => isEmpty s | _ => false end.

(** A row: an object used as a record, its keys in insertion order.  (The
    language lists keys that are array indices first; column names are taken
    not to be such.) *)
Definition DataRow : Type := list (string * value).

(** [row[key]] *)
Fixpoint getField (row : DataRow) (key : string) : value :=
  match row with
  | [] => VUndefined
  | (k, v) :: r => if String.eqb k key then v else getField r key
  end.

(** [{ ...row, [key]: v }] *)
Fixpoint setField (row : DataRow) (key : string) (v : value) : DataRow :=
  match row with
  | [] => [(key, v)]
  | (k, w) :: r =>
      if String.eqb k key then (k, v) :: r else (k, w) :: setField r key v
  end.

(** A string-keyed object holding one [A] per table, in insertion order. *)
Definition Dict (A : Type) : Type := list (string * A).

Fixpoint lookup {A : Type} (d : Dict A) (key : string) : option A :=
  match d with
  | [] => None
  | (k, v) :: r => if String.eqb k key then Some v else lookup r key
  end.

(** [{ ...d, [key]: v }] *)
Fixpoint assign {A : Type} (d : Dict A) (key : string) (v : A) : Dict A :=
  match d with
  | [] => [(key, v)]
  | (k, w) :: r =>
      if String.eqb k key then (k, v) :: r else (k, w) :: assign r key v
  end.

(** Membership in a [Set] of values. *)
Definition setHas (l : list value) (v : value) : bool :=
  existsb (value_eqb v) l.

(** The elements of [new Set(l)], in order of first occurrence. *)
Fixpoint dedup (l : list value) : list value :=
  match l with
  | [] => []
  | v :: r => v :: filter (fun w => negb (value_eqb v w)) (dedup r)
  end.

(* ================================================================== *)
(** ** Schemas (app/page.tsx, the exported types) *)
(* ================================================================== *)

(** [ColumnSchema['type']], listed in the order of the keys of [typeScores]. *)
Inductive ColType : Type :=
| TId | TNumber | TBoolean | TDate | TEmail | TUrl | TJson | TArray | TString.

Definition ColType_eqb (a b : ColType) : bool :=
  match a, b with
  | TId, TId | TNumber, TNumber | TBoolean, TBoolean | TDate, TDate
  | TEmail, TEmail | TUrl, TUrl | TJson, TJson | TArray, TArray
  | TString, TString => true
  | _, _ => false
  end.

(** A computed score or ratio: an exact rational, or not-a-number. *)
Inductive score : Type :=
| SNaN
| SNum (q : Q).

Definition ofNat (n : nat) : Q := inject_Z (Z.of_nat n).

(** [m / n] on two counts; 0/0 is not-a-number, and a count [m] is never
    positive over an empty sample. *)
Definition sdiv (m n : nat) : score :=
  match n with
  | O => SNaN
  | S _ => SNum (ofNat m / ofNat n)
  end.

Definition smul (s : score) (k : Q) : score :=
  match s with SNaN => SNaN | SNum q => SNum (q * k) end.

Definition sadd (a b : score) : score :=
  match a, b with
  | SNum x, SNum y => SNum (x + y)
  | _, _ => SNaN
  end.

Definition Qltb (x y : Q) : bool :=
  (Qnum x * Zpos (Qden y) <? Qnum y * Zpos (Qden x))%Z.

(** [a > b]: false as soon as one side is not-a-number. *)
Definition sgt (a b : score) : bool :=
  match a, b with
  | SNum x, SNum y => Qltb y x
  | _, _ => false
  end.

(** [a < b] *)
Definition slt (a b : score) : bool := sgt b a.

Record Validation : Type := {
  v_min : option number;
  v_max : option number;
  v_enum : option (list string)
}.

Record ColumnSchema : Type := {
  cs_name : string;
  cs_type : ColType;
  cs_required : bool;
  cs_unique : bool;
  cs_validation : option Validation;
  cs_aiDetected : bool;
  cs_confidence : score
}.

Inductive DataType : Type := clients | workers | tasks.

Definition DataType_eqb (a b : DataType) : bool :=
  match a, b with
  | clients, clients | workers, workers | tasks, tasks => true
  | _, _ => false
  end.

Record Relationship : Type := {
  rel_table : string;
  rel_column : string
}.

(** Of [aiClassification] only [entityType] is read by the code embedded
    here; the relationship cardinality and the free-text fields are left out. *)
Record TableSchema : Type := {
  ts_name : string;
  ts_columns : list ColumnSchema;
  ts_primaryKey : option string;
  ts_relationships : list Relationship;
  ts_entityType : DataType
}.

(* ================================================================== *)
(** ** The column classifier (detectColumnSchema) *)
(* ================================================================== *)

(** The two host functions the classifier calls whose result the language
    leaves to the implementation: [!isNaN(Date.parse(s))] and whether
    [new URL(s)] returns. *)
Record Host : Type := {
  dateParses : string -> bool;
  urlParses : string -> bool
}.

Record TypeScores : Type := {
  sc_id : score;
  sc_number : score;
  sc_boolean : score;
  sc_date : score;
  sc_email : score;
  sc_url : score;
  sc_json : score;
  sc_array : score;
  sc_string : score
}.

(** [typeScores[t]] *)
Definition scoreOf (ts : TypeScores) (t : ColType) : score :=
  match t with
  | TId => sc_id ts
  | TNumber => sc_number ts
  | TBoolean => sc_boolean ts
  | TDate => sc_date ts
  | TEmail => sc_email ts
  | TUrl => sc_url ts
  | TJson => sc_json ts
  | TArray => sc_array ts
  | TString => sc_string ts
  end.

(** The candidate order: the keys of [typeScores] as [Object.entries] lists
    them. *)
Definition candidates : list ColType :=
  [TId; TNumber; TBoolean; TDate; TEmail; TUrl; TJson; TArray; TString].

(** [Object.entries(typeScores)] *)
Definition entries (ts : TypeScores) : list (ColType * score) :=
  map (fun t => (t, scoreOf ts t)) candidates.

(** [xs.reduce(f)] with no initial value, on a non-empty array. *)
Definition reduce {A : Type} (f : A -> A -> A) (first : A) (rest : list A) : A :=
  fold_left f rest first.

(** The reducer of [bestType]: keep [a] only when its score is greater. *)
Definition pickBest (ts : TypeScores) (a b : ColType * score) : ColType * score :=
  if sgt (scoreOf ts (fst a)) (scoreOf ts (fst b)) then a else b.

Definition bestType (ts : TypeScores) : ColType :=
  match entries ts with
  | e :: r => fst (reduce (pickBest ts) e r)
  | [] => TString
  end.

Definition boolValues : list string :=
  ["true"; "false"; "1"; "0"; "yes"; "no"; "y"; "n"].

Definition inStrings (l : list string) (s : string) : bool :=
  existsb (String.eqb s) l.

Definition count {A : Type} (p : A -> bool) (l : list A) : nat :=
  List.length (filter p l).

Definition looksNumber (v : value) : bool :=
  let n := parseFloat (toString v) in negb (isNaN n) && isFinite n.

Definition looksArray (v : value) : bool :=
  let str := toString v in
  (startsWith str "[" && endsWithChar str "]") || includes str ",".

Definition computeScores (h : Host) (lowerName : string) (samples : list value)
  : TypeScores :=
  let n := List.length samples in
  let ratio p := sdiv (count p samples) n in
  {| sc_id :=
       sadd (SNum (if includes lowerName "id" || includes lowerName "key"
                   then 50 else 0))
            (smul (ratio (fun v => idPattern_test (toString v))) 30);
     sc_number := smul (ratio looksNumber) 100;
     sc_boolean :=
       smul (ratio (fun v => inStrings boolValues (toLowerCase (toString v)))) 100;
     sc_date := smul (ratio (fun v => dateParses h (toString v))) 100;
     sc_email := smul (ratio (fun v => emailRegex_test (toString v))) 100;
     sc_url := smul (ratio (fun v => urlParses h (toString v))) 100;
     sc_json := smul (ratio (fun v => jsonParses (toString v))) 100;
     sc_array := smul (ratio looksArray) 100;
     sc_string := SNum 0 |}.

(** [Math.min(...l)] and [Math.max(...l)] on numbers none of which is
    not-a-number. *)
Definition minOf (first : number) (rest : list number) : number :=
  fold_left (fun a b => if number_ltb b a then b else a) rest first.

Definition maxOf (first : number) (rest : list number) : number :=
  fold_left (fun a b => if number_ltb a b then b else a) rest first.

(** The [validation] object, built by the three successive updates. *)
Definition detectValidation (lowerName : string) (best : ColType)
  (samples uniqueValues : list value) : option Validation :=
  let v0 := {| v_min := None; v_max := None; v_enum := None |} in
  let v1 :=
    if ColType_eqb best TNumber then
      match filter (fun n => negb (isNaN n))
                   (map (fun v => parseFloat (toString v)) samples) with
      | n :: r => {| v_min := Some (minOf n r); v_max := Some (maxOf n r);
                     v_enum := v_enum v0 |}
      | [] => v0
      end
    else v0 in
  let v2 :=
    if includes lowerName "priority" && ColType_eqb best TNumber
    then {| v_min := Some (numOfNat 1); v_max := Some (numOfNat 5);
            v_enum := v_enum v1 |}
    else v1 in
  let v3 :=
    if (List.length uniqueValues <=? 10) && (1 <? List.length uniqueValues)
       && ColType_eqb best TString
    then {| v_min := v_min v2; v_max := v_max v2;
            v_enum := Some (map toString uniqueValues) |}
    else v2 in
  match v_min v3, v_max v3, v_enum v3 with
  | None, None, None => None
  | _, _, _ => Some v3
  end.

(** [(nullCount / total) < 0.1].  Both counts are array lengths (below 2^32),
    so the quotient of the two doubles is below the double 0.1 exactly when
    ten times the first is below the second; 0/0 is not-a-number and the
    test is false. *)
Definition belowTenth (nullCount total : nat) : bool :=
  slt (sdiv nullCount total) (SNum (1 # 10)).

(** The [values] of the column: the cells that are neither null, undefined
    nor the empty string. *)
Definition columnValues (columnName : string) (data : list DataRow) : list value :=
  filter (fun v => negb (isBlank v))
         (map (fun row => getField row columnName) data).

(** The [samples]: the first hundred of the values. *)
Definition samplesOf (columnName : string) (data : list DataRow) : list value :=
  let values := columnValues columnName data in
  let sampleSize := Nat.min (List.length values) 100 in
  firstn sampleSize values.

(** The [typeScores] object once every score is assigned. *)
Definition typeScoresOf (h : Host) (columnName : string) (data : list DataRow)
  : TypeScores :=
  computeScores h (toLowerCase columnName) (samplesOf columnName data).

Definition detectColumnSchema (h : Host) (columnName : string)
  (data : list DataRow) : ColumnSchema :=
  let lowerName := toLowerCase columnName in
  let values := columnValues columnName data in
  let samples := samplesOf columnName data in
  let typeScores := typeScoresOf h columnName data in
  let best := bestType typeScores in
  let confidence := smul (scoreOf typeScores best) (1 # 100) in
  let nullCount :=
    count (fun row => isMissing (getField row columnName)) data in
  let required := belowTenth nullCount (List.length data) in
  let uniqueValues := dedup values in
  let unique :=
    (List.length uniqueValues =? List.length values) && (1 <? List.length values) in
  {| cs_name := columnName;
     cs_type :=
       if ColType_eqb best TString && slt confidence (SNum (3 # 10))
       then TString else best;
     cs_required := required;
     cs_unique := unique;
     cs_validation := detectValidation lowerName best samples uniqueValues;
     cs_aiDetected := true;
     cs_confidence := confidence |}.

(* ================================================================== *)
(** ** Entity classification, relationships and the primary key *)
(* ================================================================== *)

(** [scores[t]] for the three entity types. *)
Record EntityScores : Type := {
  es_clients : nat;
  es_workers : nat;
  es_tasks : nat
}.

Definition entityScore (sc : EntityScores) (t : DataType) : nat :=
  match t with
  | clients => es_clients sc
  | workers => es_workers sc
  | tasks => es_tasks sc
  end.

(** The scores after the name tests and the loop over the columns. *)
Definition entityScores (tableName : string) (columns : list ColumnSchema)
  (fileName : string) : EntityScores :=
  let lowerName := toLowerCase tableName in
  let lowerFileName := toLowerCase fileName in
  let has := includes in
  let byName :=
    {| es_clients :=
         if has lowerName "client" || has lowerName "customer"
            || has lowerFileName "client" then 40 else 0;
       es_workers :=
         if has lowerName "worker" || has lowerName "employee"
            || has lowerName "staff" || has lowerFileName "worker" then 40 else 0;
       es_tasks :=
         if has lowerName "task" || has lowerName "job"
            || has lowerName "project" || has lowerFileName "task" then 40 else 0 |} in
  fold_left
    (fun sc column =>
       let colName := toLowerCase (cs_name column) in
       {| es_clients :=
            es_clients sc
            + (if has colName "priority" || has colName "request"
                  || has colName "budget" then 15 else 0);
          es_workers :=
            es_workers sc
            + (if has colName "skill" || has colName "available"
                  || has colName "capacity" || has colName "qualification"
               then 15 else 0);
          es_tasks :=
            es_tasks sc
            + (if has colName "duration" || has colName "phase"
                  || has colName "concurrent" || has colName "category"
               then 15 else 0) |})
    columns byName.

(** [classifyEntityType]: the entity type and the confidence, the latter
    capped at one; the reasoning text is left out. *)
Definition classifyEntityType (tableName : string) (columns : list ColumnSchema)
  (fileName : string) : DataType * Q :=
  let sc := entityScores tableName columns fileName in
  let bestMatch :=
    reduce (fun a b => if entityScore sc b <? entityScore sc a then a else b)
           clients [workers; tasks] in
  let confidence := (ofNat (entityScore sc bestMatch) / 100)%Q in
  (bestMatch, if Qltb 1 confidence then 1%Q else confidence).

(** [detectRelationships]: the cardinality, always many-to-one, is left out. *)
Definition detectRelationships (columns : list ColumnSchema) (tableName : string)
  : list Relationship :=
  flat_map
    (fun column =>
       let colName := toLowerCase (cs_name column) in
       let link (a b target : string) :=
         if includes colName a || includes colName b
         then [{| rel_table := target; rel_column := cs_name column |}]
         else [] in
       (link "taskid" "task_id" "tasks"
        ++ link "workerid" "worker_id" "workers"
        ++ link "clientid" "client_id" "clients")%list)
    columns.

Definition findPrimaryKey (columns : list ColumnSchema) : option string :=
  option_map cs_name
    (find (fun col => includes (toLowerCase (cs_name col)) "id"
                      && cs_unique col && ColType_eqb (cs_type col) TId)
          columns).

(* ================================================================== *)
(** ** The value normalizer (cleanValue) *)
(* ================================================================== *)

(** [boolMap[key]]: the eight own keys of the literal, and the two keys that
    an object literal inherits and that survive lower-casing: [constructor]
    (the Object function) and [__proto__] (Object.prototype). *)
Definition boolMap (key : string) : option value :=
  if inStrings ["true"; "1"; "yes"; "y"] key then Some (VBool true)
  else if inStrings ["false"; "0"; "no"; "n"] key then Some (VBool false)
  else if String.eqb key "constructor"
       then Some (VObject "function Object() { [native code] }")
  else if String.eqb key "__proto__" then Some (VObject "[object Object]")
  else None.

Definition quoted (s : string) : string := DQ ++ s ++ DQ.

Definition cleanValue (v : value) (column : ColumnSchema) : value :=
  if isBlank v then VStr ""
  else
    let stringValue := trim (toString v) in
    match cs_type column with
    | TNumber =>
        let numValue := parseFloat stringValue in
        if isNaN numValue
        then (if cs_required column then VNum (numOfNat 0) else VStr "")
        else VNum numValue
    | TBoolean =>
        match boolMap (toLowerCase stringValue) with
        | Some b => b
        | None => VBool false
        end
    | TJson =>
        match JSON_parse stringValue with
        | Some _ => VStr stringValue
        | None => VStr "{}"
        end
    | TArray =>
        match JSON_parse (replaceAll "'" DQ stringValue) with
        | Some true => VStr stringValue
        | Some false => VStr ("[" ++ stringValue ++ "]")
        | None =>
            if includes stringValue ","
            then VStr ("[" ++ join ","
                         (map (fun s => quoted (trim s)) (split "," stringValue))
                       ++ "]")
            else VStr stringValue
        end
    | _ => VStr stringValue
    end.

(* ================================================================== *)
(** ** Schema synthesis (performAISchemaDetection) *)
(* ================================================================== *)

(** The elements of a [Set] of strings, in order of first insertion. *)
Fixpoint dedupStrings (l : list string) : list string :=
  match l with
  | [] => []
  | x :: r => x :: filter (fun y => negb (String.eqb x y)) (dedupStrings r)
  end.

(** [performAISchemaDetection]: the cleaned rows and the schema; [None]
    stands for the error raised when the file holds no row. *)
Definition performAISchemaDetection (h : Host) (data : list DataRow)
  (tableName fileName : string) : option (list DataRow * TableSchema) :=
  match data with
  | [] => None
  | _ :: _ =>
      let allColumns := dedupStrings (flat_map (fun row => map fst row) data) in
      let columns :=
        map (fun columnName => detectColumnSchema h columnName data) allColumns in
      let entityClassification := classifyEntityType tableName columns fileName in
      let relationships := detectRelationships columns tableName in
      let cleanedData :=
        map (fun row =>
               map (fun column =>
                      (cs_name column,
                       cleanValue (getField row (cs_name column)) column))
                   columns)
            data in
      Some (cleanedData,
            {| ts_name := tableName;
               ts_columns := columns;
               ts_primaryKey := findPrimaryKey columns;
               ts_relationships := relationships;
               ts_entityType := fst entityClassification |})
  end.

(* ================================================================== *)
(** ** The validation engine (app/page.tsx) *)
(* ================================================================== *)

Inductive Severity : Type := error | warning | info.

(** A finding.  The fields that only carry text or constants for display
    (message, suggestion, aiConfidence, businessImpact) are left out. *)
Record ValidationError : Type := {
  ve_id : string;
  ve_row : nat;
  ve_column : string;
  ve_severity : Severity;
  ve_type : string;
  ve_autoFixable : bool
}.

(** The state of the page component that the validation code reads and
    writes: the three [useState] cells. *)
Record AppState : Type := {
  st_data : Dict (list DataRow);
  st_schemas : Dict TableSchema;
  st_validationErrors : list ValidationError
}.

(** [xs.forEach((x, index) => ...)]: the elements with their indices. *)
Definition indexed {A : Type} (l : list A) : list (nat * A) :=
  combine (seq 0 (List.length l)) l.

(** [d[key] || []] *)
Definition rowsOf (d : Dict (list DataRow)) (key : string) : list DataRow :=
  match lookup d key with
  | Some rows => rows
  | None => []
  end.

Definition validateColumnType (v : value) (column : ColumnSchema) (index : nat)
  (tableName : string) : option ValidationError :=
  let errorId := tableName ++ "-" ++ natToString index ++ "-" ++ cs_name column in
  match cs_type column with
  | TNumber =>
      if isNaN (parseFloat (toString v)) then
        Some {| ve_id := errorId ++ "-type"; ve_row := index;
                ve_column := cs_name column; ve_severity := error;
                ve_type := "type_mismatch"; ve_autoFixable := true |}
      else None
  | TEmail =>
      if negb (emailRegex_test (toString v)) then
        Some {| ve_id := errorId ++ "-type"; ve_row := index;
                ve_column := cs_name column; ve_severity := error;
                ve_type := "type_mismatch"; ve_autoFixable := false |}
      else None
  | _ => None
  end.

Definition validateRowAgainstSchema (row : DataRow) (index : nat)
  (tableName : string) (schema : TableSchema) : list ValidationError :=
  let errorId := tableName ++ "-" ++ natToString index in
  flat_map
    (fun column =>
       let v := getField row (cs_name column) in
       List.app
         (if cs_required column && isMissing v then
            [{| ve_id := errorId ++ "-" ++ cs_name column ++ "-required";
                ve_row := index; ve_column := cs_name column;
                ve_severity := error; ve_type := "missing_required";
                ve_autoFixable :=
                  ColType_eqb (cs_type column) TNumber
                  || ColType_eqb (cs_type column) TBoolean |}]
          else [])
         (if negb (isMissing v) then
            match validateColumnType v column index tableName with
            | Some e => [e]
            | None => []
            end
          else []))
    (ts_columns schema).

Definition refError (tableName : string) (index : nat) (column : string)
  : ValidationError :=
  {| ve_id := tableName ++ "-" ++ natToString index ++ "-" ++ column ++ "-ref";
     ve_row := index; ve_column := column; ve_severity := error;
     ve_type := "unknown_reference"; ve_autoFixable := false |}.

Definition validateCrossReferences (schemas : Dict TableSchema)
  (data : Dict (list DataRow)) : list ValidationError :=
  flat_map
    (fun entry : string * TableSchema =>
       let '(tableName, schema) := entry in
       flat_map
         (fun relationship =>
            let sourceData := rowsOf data tableName in
            let targetData := rowsOf data (rel_table relationship) in
            let targetIds :=
              map (fun row => getField row (rel_column relationship)) targetData in
            flat_map
              (fun ir : nat * DataRow =>
                 let '(index, row) := ir in
                 let v := getField row (rel_column relationship) in
                 if truthy v && negb (setHas targetIds v)
                 then [refError tableName index (rel_column relationship)]
                 else [])
              (indexed sourceData))
         (ts_relationships schema))
    schemas.

Definition isLoadColumn (col : ColumnSchema) : bool :=
  includes (toLowerCase (cs_name col)) "load"
  || includes (toLowerCase (cs_name col)) "capacity".

Definition burnoutError (tableName : string) (index : nat) (column : string)
  : ValidationError :=
  {| ve_id := tableName ++ "-" ++ natToString index ++ "-burnout-risk";
     ve_row := index; ve_column := column; ve_severity := warning;
     ve_type := "burnout_risk"; ve_autoFixable := false |}.

(** [parseInt(v) > 8] *)
Definition loadExceeds (v : value) : bool :=
  match parseInt (toString v) with
  | Some load => (8 <? load)%Z
  | None => false
  end.

Definition validateAdvancedConstraints (schemas : Dict TableSchema)
  (data : Dict (list DataRow)) : list ValidationError :=
  flat_map
    (fun entry : string * TableSchema =>
       let '(tableName, schema) := entry in
       if DataType_eqb (ts_entityType schema) workers then
         flat_map
           (fun ir : nat * DataRow =>
              let '(index, row) := ir in
              match find isLoadColumn (ts_columns schema) with
              | Some loadColumn =>
                  if truthy (getField row (cs_name loadColumn))
                     && loadExceeds (getField row (cs_name loadColumn))
                  then [burnoutError tableName index (cs_name loadColumn)]
                  else []
              | None => []
              end)
           (indexed (rowsOf data tableName))
       else [])
    schemas.

Definition validateBusinessLogic : list ValidationError := [].

(** [runValidation]: the list that [setValidationErrors] installs.  [st] is
    the state the component rendered with: [data] and [schemas] are read
    from it, as the closures of the handlers do. *)
Definition runValidation (st : AppState) (tableName : string)
  (dataToValidate : list DataRow) (schema : TableSchema) : list ValidationError :=
  let errors :=
    (flat_map (fun ir : nat * DataRow =>
                 validateRowAgainstSchema (snd ir) (fst ir) tableName schema)
              (indexed dataToValidate)
     ++ validateCrossReferences (st_schemas st) (st_data st)
     ++ validateAdvancedConstraints (st_schemas st) (st_data st)
     ++ validateBusinessLogic)%list in
  (filter (fun e => negb (startsWith (ve_id e) tableName))
          (st_validationErrors st)
   ++ errors)%list.

Definition handleDataUpload (st : AppState) (tableName : string)
  (newData : list DataRow) (detectedSchema : TableSchema) : AppState :=
  {| st_data := assign (st_data st) tableName newData;
     st_schemas := assign (st_schemas st) tableName detectedSchema;
     st_validationErrors := runValidation st tableName newData detectedSchema |}.

(** [rows.map((row, index) => index === rowIndex ? { ...row, [field]: v } : row)] *)
Definition updateRow (rows : list DataRow) (rowIndex : nat) (field : string)
  (v : value) : list DataRow :=
  map (fun ir : nat * DataRow =>
         if fst ir =? rowIndex then setField (snd ir) field v else snd ir)
      (indexed rows).

(** [updateData].  [None] stands for the TypeError raised when the table is
    not in [data]. *)
Definition updateData (st : AppState) (tableName : string) (rowIndex : nat)
  (field : string) (v : value) : option AppState :=
  match lookup (st_data st) tableName with
  | None => None
  | Some rows =>
      Some
        {| st_data := assign (st_data st) tableName (updateRow rows rowIndex field v);
           st_schemas := st_schemas st;
           st_validationErrors :=
             match lookup (st_schemas st) tableName with
             | Some schema =>
                 let updatedRow :=
                   setField (nth rowIndex rows []) field v in
                 runValidation st tableName [updatedRow] schema
             | None => st_validationErrors st
             end |}
  end.

(** [schemas[tableName]?.columns.find(col => col.name === column)] *)
Definition findColumn (schemas : Dict TableSchema) (tableName column : string)
  : option ColumnSchema :=
  match lookup schemas tableName with
  | Some schema =>
      find (fun col => String.eqb (cs_name col) column) (ts_columns schema)
  | None => None
  end.

(** [error.id.split('-')[0]] *)
Definition tableOfId (id : string) : string :=
  match split "-" id with
  | t :: _ => t
  | [] => EmptyString
  end.

(** The value [applyAutoFix] leaves in [fixedValue]: [None] when the switch
    returns early or leaves it undefined. *)
Definition fixedValue (schemas : Dict TableSchema) (e : ValidationError)
  : option value :=
  let tableName := tableOfId (ve_id e) in
  let column := findColumn schemas tableName (ve_column e) in
  let typeIs t :=
    match column with
    | Some c => ColType_eqb (cs_type c) t
    | None => false
    end in
  if String.eqb (ve_type e) "out_of_range" then
    match column with
    | Some c =>
        match cs_validation c with
        | Some val =>
            match v_min val, v_max val with
            | Some m, _ => Some (VNum m)
            | None, Some m => Some (VNum m)
            | None, None => None
            end
        | None => None
        end
    | None => None
    end
  else if String.eqb (ve_type e) "type_mismatch" then
    let f1 := if typeIs TNumber then Some (VNum (numOfNat 0)) else None in
    let f2 := if typeIs TBoolean then Some (VStr "false") else f1 in
    f2
  else if String.eqb (ve_type e) "malformed_json" then Some (VStr "{}")
  else if String.eqb (ve_type e) "missing_required" then
    let f1 := if typeIs TNumber then Some (VNum (numOfNat 1)) else None in
    let f2 := if typeIs TBoolean then Some (VStr "false") else f1 in
    let f3 := if typeIs TString then Some (VStr "default") else f2 in
    f3
  else None.

(** [applyAutoFix]: the state after the call, [None] when [updateData]
    raises. *)
Definition applyAutoFix (st : AppState) (e : ValidationError) : option AppState :=
  match fixedValue (st_schemas st) e with
  | Some v => updateData st (tableOfId (ve_id e)) (ve_row e) (ve_column e) v
  | None => Some st
  end.

(* ================================================================== *)
(** ** CSV export (components/export-controls.tsx) *)
(* ================================================================== *)

(** One field of a line: the body of [headers.map(header => ...)]. *)
Definition csvField (row : DataRow) (header : string) : string :=
  let v := getField row header in
  let v' := if truthy v then v else VStr "" in
  if includes (toString v') ","
  then DQ ++ replaceAll dquote (DQ ++ DQ) (toString v') ++ DQ
  else toString v'.

Definition newline : string := String (chr 10) EmptyString.

(** [csvContent] of [downloadCSV]; [None] when the function returns before
    building it. *)
Definition csvContent (data : list DataRow) : option string :=
  match data with
  | [] => None
  | first :: _ =>
      let headers := map fst first in
      Some (join newline
              (join "," headers
               :: map (fun row => join "," (map (csvField row) headers)) data))
  end.

(* ================================================================== *)
(** ** Export of the tables (components/export-controls.tsx) *)
(* ================================================================== *)

(** [Object.values(data).reduce((sum, tableData) => sum + tableData.length, 0)] *)
Definition getTotalRows (data : Dict (list DataRow)) : nat :=
  fold_left (fun sum tableData => sum + List.length tableData) (map snd data) 0.

Definition isError (e : ValidationError) : bool :=
  match ve_severity e with error => true | _ => false end.

Definition getCriticalErrors (validationErrors : list ValidationError) : nat :=
  List.length (filter isError validationErrors).

Definition canExport (st : AppState) : bool :=
  (0 <? getTotalRows (st_data st))
  && (getCriticalErrors (st_validationErrors st) =? 0).

(** What [downloadCSV] hands to the browser: the file name and the text;
    nothing when it returns before building the text. *)
Definition downloadCSV (data : list DataRow) (filename : string)
  : list (string * string) :=
  match csvContent data with
  | Some text => [(filename, text)]
  | None => []
  end.

(** The loop of [exportAll] over the tables: one CSV file for each table
    that holds a row. *)
Definition csvFiles (data : Dict (list DataRow)) : list (string * string) :=
  flat_map
    (fun entry : string * list DataRow =>
       let '(tableName, tableData) := entry in
       if 0 <? List.length tableData
       then downloadCSV tableData (tableName ++ "_cleaned.csv")
       else [])
    data.

(** [exportAll]: the CSV files it downloads, in order; [None] when it
    returns on its first test.  The two JSON files that follow them are
    left out. *)
Definition exportAll (st : AppState) : option (list (string * string)) :=
  if 0 <? getCriticalErrors (st_validationErrors st) then None
  else Some (csvFiles (st_data st)).

(** [exportSingle]: the file it downloads; [None] when it reports that the
    table holds no data. *)
Definition exportSingle (st : AppState) (tableName : string)
  : option (list (string * string)) :=
  match lookup (st_data st) tableName with
  | None => None
  | Some tableData =>
      if List.length tableData =? 0 then None
      else Some (downloadCSV tableData (tableName ++ "_cleaned.csv"))
  end.

(* ================================================================== *)
(** ** The data grid (components/data-grid.tsx) *)
(* ================================================================== *)

(** [Object.values(row).some(value =>
       String(value).toLowerCase().includes(searchTerm.toLowerCase()))] *)
Definition rowMatches (searchTerm : string) (row : DataRow) : bool :=
  existsb (fun kv : string * value =>
             includes (toLowerCase (toString (snd kv))) (toLowerCase searchTerm))
          row.

(** [filteredData] and [filteredIndices] as the component computes them on
    each render.  An element of [filteredData] is [None] where the source
    has [undefined], a search result that is not an index of [data]. *)
Definition filtered (data : list DataRow) (searchResults : list nat)
  (searchTerm : string) : list (option DataRow) * list nat :=
  if 0 <? List.length searchResults then
    (map (fun index => nth_error data index) searchResults, searchResults)
  else if negb (isEmpty searchTerm) then
    let kept := filter (fun ir : nat * DataRow => rowMatches searchTerm (snd ir))
                       (indexed data) in
    (map (fun ir : nat * DataRow => Some (snd ir)) kept, map fst kept)
  else (map Some data, map fst (indexed data)).

Definition filteredData (data : list DataRow) (searchResults : list nat)
  (searchTerm : string) : list (option DataRow) :=
  fst (filtered data searchResults searchTerm).

Definition filteredIndices (data : list DataRow) (searchResults : list nat)
  (searchTerm : string) : list nat :=
  snd (filtered data searchResults searchTerm).

(** [startEdit]: the text placed in the editor, [String(currentValue || '')]. *)
Definition startEdit (currentValue : value) : string :=
  if truthy currentValue then toString currentValue else "".

(** [saveEdit] with the page's [updateData] as [onUpdate].  [rowIndex] is
    the position of the edited row among the rendered rows.  Were it past
    the end of [filteredIndices], the row index handed on would be
    [undefined], which equals no index: [updateData] then behaves as for an
    index past the end of the table. *)
Definition saveEdit (st : AppState) (tableName : string)
  (searchResults : list nat) (searchTerm : string)
  (rowIndex : nat) (column : string) (editValue : string) : option AppState :=
  let data := rowsOf (st_data st) tableName in
  let actualRowIndex :=
    nth rowIndex (filteredIndices data searchResults searchTerm)
        (List.length data) in
  updateData st tableName actualRowIndex column (VStr editValue).

(** [getCellErrors]: the findings shown in a cell of the grid. *)
Definition getCellErrors (validationErrors : list ValidationError)
  (tableName : string) (indices : list nat) (rowIndex : nat) (column : string)
  : list ValidationError :=
  filter (fun e =>
            match nth_error indices rowIndex with
            | Some actualRowIndex => ve_row e =? actualRowIndex
            | None => false
            end
            && String.eqb (ve_column e) column
            && startsWith (ve_id e) tableName)
         validationErrors.

(* ================================================================== *)
(** ** The CSV reader of the sample loader (parseCSV) *)
(* ================================================================== *)

(** [s.trim()] with every double quote then removed. *)
Definition unquote (s : string) : string := replaceAll dquote "" (trim s).

(** The loop over the characters of a line: [values] and [current] when the
    loop ends. *)
Fixpoint scanLine (line : string) (values : list string) (current : string)
  (inQuotes : bool) : list string * string :=
  match line with
  | EmptyString => (values, current)
  | String char rest =>
      if Ascii.eqb char dquote then scanLine rest values current (negb inQuotes)
      else if Ascii.eqb char "," && negb inQuotes
      then scanLine rest (values ++ [unquote current])%list "" inQuotes
      else scanLine rest values (current ++ String char "") inQuotes
  end.

(** The [values] of a line, the last one pushed after the loop. *)
Definition lineValues (line : string) : list string :=
  let '(values, current) := scanLine line [] "" false in
  (values ++ [unquote current])%list.

(** [values[index] || ''] *)
Definition valueAt (values : list string) (index : nat) : string :=
  match nth_error values index with
  | Some s => if isEmpty s then "" else s
  | None => ""
  end.

(** [row[header] = v] on an object literal: the assignment to [__proto__]
    of a value that is not an object changes nothing. *)
Definition assignField (row : DataRow) (header : string) (v : value) : DataRow :=
  if String.eqb header "__proto__" then row else setField row header v.

Definition parseLine (headers : list string) (line : string) : DataRow :=
  let values := lineValues line in
  fold_left
    (fun (row : DataRow) (ih : nat * string) =>
       assignField row (snd ih) (VStr (valueAt values (fst ih))))
    (indexed headers) [].

Definition parseCSV (text : string) : list DataRow :=
  match split (chr 10) (trim text) with
  | first :: rest => map (parseLine (map unquote (split "," first))) rest
  | [] => []
  end.

(* ================================================================== *)
(** ** Several fixes in one event (the AI assistant, applyAllAutoFixes) *)
(* ================================================================== *)

(** Within one event handler every call reads [data] and [schemas] from the
    state the component rendered with, [st], while the updater functions
    handed to the setters apply, in order, to the state left by the calls
    before, [pending].  [None] stands for the TypeError raised on a table
    that is not loaded. *)
Definition updateDataFrom (st pending : AppState) (tableName : string)
  (rowIndex : nat) (field : string) (v : value) : option AppState :=
  match lookup (st_data pending) tableName with
  | None => None
  | Some prevRows =>
      let data' :=
        assign (st_data pending) tableName (updateRow prevRows rowIndex field v) in
      match lookup (st_schemas st) tableName with
      | Some schema =>
          match lookup (st_data st) tableName with
          | None => None
          | Some rows =>
              let updatedRow := setField (nth rowIndex rows []) field v in
              Some {| st_data := data';
                      st_schemas := st_schemas pending;
                      st_validationErrors :=
                        runValidation
                          {| st_data := st_data st;
                             st_schemas := st_schemas st;
                             st_validationErrors := st_validationErrors pending |}
                          tableName [updatedRow] schema |}
          end
      | None =>
          Some {| st_data := data';
                  st_schemas := st_schemas pending;
                  st_validationErrors := st_validationErrors pending |}
      end
  end.

Definition applyAutoFixFrom (st pending : AppState) (e : ValidationError)
  : option AppState :=
  match fixedValue (st_schemas st) e with
  | Some v =>
      updateDataFrom st pending (tableOfId (ve_id e)) (ve_row e) (ve_column e) v
  | None => Some pending
  end.

(** [autoFixableErrors.forEach(error => onApplyFix(error))], with the
    page's [applyAutoFix] as [onApplyFix]. *)
Definition applyAllAutoFixes (st : AppState) : option AppState :=
  fold_left
    (fun (acc : option AppState) (e : ValidationError) =>
       match acc with
       | Some pending => applyAutoFixFrom st pending e
       | None => None
       end)
    (filter ve_autoFixable (st_validationErrors st))
    (Some st).

(* ================================================================== *)
(** ** The specification's wording, for comparison with the code *)
(* ================================================================== *)

(** No candidate has a score greater than the score of [t]. *)
Definition attainsBest (ts : TypeScores) (t : ColType) : bool :=
  forallb (fun u => negb (sgt (scoreOf ts u) (scoreOf ts t))) candidates.

(** The candidate declared earliest among those with the highest score. *)
Definition earliestBest (ts : TypeScores) : ColType :=
  match find (attainsBest ts) candidates with
  | Some t => t
  | None => TString
  end.

(** The candidate declared latest among those with the highest score. *)
Definition latestBest (ts : TypeScores) : ColType :=
  match find (attainsBest ts) (rev candidates) with
  | Some t => t
  | None => TString
  end.

(** The fix value in the specification's words: for [missing_required] the
    configured min bound, else the max bound, else a default by type; for
    [type_mismatch] zero on a number column and false on a boolean column. *)
Definition specFixValue (errorType : string) (c : ColumnSchema) : option value :=
  let bound :=
    match cs_validation c with
    | Some val =>
        match v_min val, v_max val with
        | Some m, _ => Some m
        | None, Some m => Some m
        | None, None => None
        end
    | None => None
    end in
  if String.eqb errorType "missing_required" then
    match bound with
    | Some m => Some (VNum m)
    | None =>
        match cs_type c with
        | TNumber => Some (VNum (numOfNat 0))
        | TBoolean => Some (VBool false)
        | TString => Some (VStr "default")
        | _ => None
        end
    end
  else if String.eqb errorType "type_mismatch" then
    match cs_type c with
    | TNumber => Some (VNum (numOfNat 0))
    | TBoolean => Some (VBool false)
    | _ => None
    end
  else None.

(** The fraction of rows whose cell is missing or empty (null, undefined or
    the empty string) is below one tenth. *)
Definition specRequired (columnName : string) (data : list DataRow) : bool :=
  belowTenth
    (count (fun row => isBlank (getField row columnName)) data)
    (List.length data).

(* ================================================================== *)
(** ** Notions used in the statements *)
(* ================================================================== *)

(** A reducer that keeps its accumulator only when it is greater, and the
    test that nothing in a list is greater than [t]. *)
Definition pick {A : Type} (gt : A -> A -> bool) (a b : A) : A :=
  if gt a b then a else b.

Definition isGreatest {A : Type} (gt : A -> A -> bool) (l : list A) (t : A) : bool :=
  forallb (fun u => negb (gt u t)) l.

(** The reducer of [bestType] on the candidate names alone. *)
Definition pickType (ts : TypeScores) : ColType -> ColType -> ColType :=
  pick (fun a b => sgt (scoreOf ts a) (scoreOf ts b)).

(** A score that is a number. *)
Definition numeric (s : score) : Prop := exists q, s = SNum q.

(** Two rows agree on every column, but for cells that are falsy in both. *)
Definition sameUpToFalsy (r1 r2 : DataRow) : Prop :=
  forall header : string,
    getField r1 header = getField r2 header \/
    (truthy (getField r1 header) = false /\ truthy (getField r2 header) = false).

(** Schema validation of every row of a table, as an upload runs it. *)
Definition validateTable (tableName : string) (rows : list DataRow)
  (schema : TableSchema) : list ValidationError :=
  flat_map (fun ir : nat * DataRow =>
              validateRowAgainstSchema (snd ir) (fst ir) tableName schema)
           (indexed rows).

Definition headNotSpace (s : string) : Prop :=
  match s with
  | String c _ => isWhiteSpace c = false
  | EmptyString => True
  end.

Definition notSpace (c : ascii) : bool := negb (isWhiteSpace c).

(** The integer digits after normalisation. *)
Definition normalInt (ip : string) : string :=
  if isEmpty (stripLeadingZeros ip) then "0" else stripLeadingZeros ip.

(** A number is canonical when it is its own normal form. *)
Definition canonical (n : number) : Prop :=
  match n with
  | Dec neg ip fp =>
      allS isDigit ip = true /\ allS isDigit fp = true /\
      normalize neg ip fp = Dec neg ip fp
  | _ => True
  end.

(** A character that may stand as it is inside a JSON string and that the
    array branch of the normalizer does not rewrite: no control character,
    double quote, backslash or apostrophe. *)
Definition plainChar (c : ascii) : bool :=
  (32 <=? nat_of_ascii c) && negb (Ascii.eqb c dquote)
  && negb (Ascii.eqb c "\") && negb (Ascii.eqb c "'").

Definition notApostrophe (c : ascii) : bool := negb (Ascii.eqb c "'").

(** The inputs on which the normalizer is shown to be idempotent.  On an
    array column: every text, except that a text taking the comma fallback
    (it does not parse and holds a comma) must be made of plain characters.
    On a boolean column: every text but the two that name an inherited
    property of the lookup object.  On any other column: every value. *)
Definition stableInput (v : value) (column : ColumnSchema) : Prop :=
  let s := trim (toString v) in
  match cs_type column with
  | TArray =>
      JSON_parse (replaceAll "'" DQ s) = None -> includes s "," = true ->
      allS plainChar s = true
  | TBoolean =>
      toLowerCase s <> "constructor" /\ toLowerCase s <> "__proto__"
  | _ => True
  end.

(** What every finding of the row check looks like. *)
Definition rowFinding (index : nat) (tableName : string) (schema : TableSchema)
  (e : ValidationError) : Prop :=
  ve_row e = index /\ ve_severity e = error /\
  In (ve_column e) (map cs_name (ts_columns schema)) /\
  startsWith (ve_id e) (tableName ++ "-" ++ natToString index ++ "-") = true /\
  (ve_type e = "missing_required" \/ ve_type e = "type_mismatch").

(** The findings that a validation run computes, as opposed to those it
    keeps from before. *)
Definition freshFindings (st : AppState) (tableName : string)
  (dataToValidate : list DataRow) (schema : TableSchema) : list ValidationError :=
  (validateTable tableName dataToValidate schema
   ++ validateCrossReferences (st_schemas st) (st_data st)
   ++ validateAdvancedConstraints (st_schemas st) (st_data st))%list.

(** A character other than [c]. *)
Definition isNot (c : ascii) (d : ascii) : bool := negb (Ascii.eqb d c).

(** A table name without the dash that separates the parts of an id. *)
Definition noDash (s : string) : bool := allS (isNot "-") s.

(** A key that the language takes as an array index: the decimal text,
    without a redundant zero, of an integer from 0 to 4294967294.  An object
    lists such keys first, in ascending order, and its other keys after
    them, in insertion order. *)
Definition isArrayIndex (s : string) : bool :=
  negb (isEmpty s) && allS isDigit s
  && (String.eqb s "0" || negb (prefix "0" s))
  && (digitsValue 10 digitVal 0 s <? 4294967295)%Z.

(** Text that a CSV line carries unchanged: no double quote, no line feed,
    no white space at either end. *)
Definition plainText (s : string) : bool :=
  allS (isNot dquote) s && allS (isNot (chr 10)) s && String.eqb (trim s) s.

(** A column name that the header line carries unchanged. *)
Definition plainHeader (s : string) : bool :=
  plainText s && allS (isNot ",") s && negb (isEmpty s)
  && negb (String.eqb s "__proto__").

(** A row of plain texts under the given column names. *)
Definition textRow (headers : list string) (row : DataRow) : Prop :=
  map fst row = headers /\
  Forall (fun kv : string * value =>
            exists s, snd kv = VStr s /\ plainText s = true) row.

(** The field that the export writes for a text without double quote. *)
Definition fieldOf (s : string) : string :=
  if includes s "," then DQ ++ s ++ DQ else s.

(** The text of a cell, [String(v)]. *)
Definition cellText (kv : string * value) : string := toString (snd kv).

(** The line that the export writes for a row. *)
Definition lineOf (headers : list string) (row : DataRow) : string :=
  join "," (map (csvField row) headers).

(** Does [s2] start with an unsigned decimal literal: digits, a point
    followed by a digit, or the word Infinity? *)
Definition startsLiteral (s2 : string) : bool :=
  prefix "Infinity" s2
  || match s2 with
     | String c r =>
         isDigit c
         || (Ascii.eqb c "."
             && match r with String d _ => isDigit d | EmptyString => false end)
     | EmptyString => false
     end.

(** Does [s] read as a number: optional white space, an optional sign, and
    then the start of a literal? *)
Definition readsAsNumber (s : string) : bool :=
  startsLiteral (snd (readSign (trimStart s))).

(** A cell written by the fix of a finding of [errors]. *)
Definition fixedCell (st : AppState) (errors : list ValidationError)
  (tableName : string) (index : nat) (column : string) (v : value) : Prop :=
  exists e,
    In e errors /\ ve_autoFixable e = true /\
    tableOfId (ve_id e) = tableName /\ ve_row e = index /\
    ve_column e = column /\ fixedValue (st_schemas st) e = Some v.

(** The data of [pending] are those of [st] but for cells written by fixes
    of findings of [errors]. *)
Definition fixesOnly (st : AppState) (errors : list ValidationError)
  (pending : AppState) : Prop :=
  st_schemas pending = st_schemas st /\
  map fst (st_data pending) = map fst (st_data st) /\
  forall tableName index,
    match nth_error (rowsOf (st_data pending) tableName) index,
          nth_error (rowsOf (st_data st) tableName) index with
    | Some row', Some row =>
        forall column,
          getField row' column = getField row column \/
          fixedCell st errors tableName index column (getField row' column)
    | None, None => True
    | _, _ => False
    end.

(** A part of an address: not empty, without white space or at sign. *)
Definition addressPart (s : string) : Prop :=
  s <> "" /\ allS notSpaceAt s = true.

(* ================================================================== *)
(** ** Concrete inputs *)
(* ================================================================== *)

(** A required column of the given name, type and bounds. *)
Definition mkColumn (name : string) (t : ColType) (bounds : option Validation)
  : ColumnSchema :=
  {| cs_name := name; cs_type := t; cs_required := true; cs_unique := false;
     cs_validation := bounds; cs_aiDetected := true; cs_confidence := SNum 1 |}.

(** The schema of a table with the given columns, its other fields
    synthesized as an upload does. *)
Definition mkSchema (tableName fileName : string) (columns : list ColumnSchema)
  : TableSchema :=
  {| ts_name := tableName;
     ts_columns := columns;
     ts_primaryKey := findPrimaryKey columns;
     ts_relationships := detectRelationships columns tableName;
     ts_entityType := fst (classifyEntityType tableName columns fileName) |}.

Definition hostRejectingAll : Host :=
  {| dateParses := fun _ => false; urlParses := fun _ => false |}.

(** A column of free text: four cells, one of which holds a comma. *)
Definition notesColumn : list DataRow :=
  map (fun s => [("Notes", VStr s)]) ["a,b"; "hello"; "hello"; "hello"].

(** A column of flags: the two texts [true] and [false]. *)
Definition activeColumn : list DataRow :=
  map (fun s => [("Active", VStr s)]) ["true"; "false"].

(** A spreadsheet column of quantities: three numeric cells, two of them
    zero, none of them missing or empty. *)
Definition qtyCells : list DataRow :=
  [[("Qty", VNum (numOfNat 0))]; [("Qty", VNum (numOfNat 0))];
   [("Qty", VNum (numOfNat 5))]].

(** A table [orders] with one required number column [Qty]. *)
Definition qtyColumn (bounds : option Validation) : ColumnSchema :=
  mkColumn "Qty" TNumber bounds.

Definition ordersSchema (bounds : option Validation) : TableSchema :=
  mkSchema "orders" "orders.csv" [qtyColumn bounds].

Definition bounds_3_9 : option Validation :=
  Some {| v_min := Some (numOfNat 3); v_max := Some (numOfNat 9);
          v_enum := None |}.

(** The finding that schema validation emits for row 0 of table [orders]
    when its required number column [Qty] is empty. *)
Definition qtyMissing : ValidationError :=
  {| ve_id := "orders-0-Qty-required"; ve_row := 0; ve_column := "Qty";
     ve_severity := error; ve_type := "missing_required";
     ve_autoFixable := true |}.

(** Two tables keyed by number: [tasks] refers to [clients] through
    [ClientID], and its one row names client 0. *)
Definition numberedClients : Dict (list DataRow) :=
  [("clients", [[("ClientID", VNum (numOfNat 1))]; [("ClientID", VNum (numOfNat 2))]]);
   ("tasks", [[("TaskID", VNum (numOfNat 7)); ("ClientID", VNum (numOfNat 0))]])].

Definition numberedSchemas : Dict TableSchema :=
  [("clients",
    mkSchema "clients" "clients.xlsx" [mkColumn "ClientID" TNumber None]);
   ("tasks",
    mkSchema "tasks" "tasks.xlsx"
      [mkColumn "TaskID" TNumber None; mkColumn "ClientID" TNumber None])].

(** The table of the file [workers.csv], with number columns of the given
    names. *)
Definition workersTable (columns : list string) : TableSchema :=
  mkSchema "workers" "workers.csv"
    (map (fun name => mkColumn name TNumber None) columns).

Definition workersSchema (columns : list string) : Dict TableSchema :=
  [("workers", workersTable columns)].

(** Two tables of text: [clients] with an e-mail column, and [tasks]
    referring to [clients] through [ClientID]. *)
Definition clientsSchema : TableSchema :=
  mkSchema "clients" "clients.csv"
    [mkColumn "ClientID" TId None; mkColumn "Email" TEmail None].

Definition tasksSchema : TableSchema :=
  mkSchema "tasks" "tasks.csv"
    [mkColumn "TaskID" TId None; mkColumn "ClientID" TId None].

Definition clientsRows : list DataRow :=
  [[("ClientID", VStr "C1"); ("Email", VStr "a@b.com")];
   [("ClientID", VStr "C2"); ("Email", VStr "bad")]].

Definition tasksRows : list DataRow :=
  [[("TaskID", VStr "T1"); ("ClientID", VStr "C999")]].

Definition emptyState : AppState :=
  {| st_data := []; st_schemas := []; st_validationErrors := [] |}.

(** The state after the two tables are uploaded, [clients] first. *)
Definition loadedState : AppState :=
  handleDataUpload (handleDataUpload emptyState "clients" clientsRows clientsSchema)
                   "tasks" tasksRows tasksSchema.

(** The finding for the malformed e-mail address in row 1 of [clients]. *)
Definition badEmailFinding : ValidationError :=
  {| ve_id := "clients-1-Email-type"; ve_row := 1; ve_column := "Email";
     ve_severity := error; ve_type := "type_mismatch";
     ve_autoFixable := false |}.

(** A column of notes in which no cell holds a value. *)
Definition blankNotes : list DataRow :=
  [[("Notes", VStr "")]; [("Notes", VNull)]; []].

(** A column of addresses, one of them malformed. *)
Definition contactsRows : list DataRow :=
  map (fun s => [("Email", VStr s)]) ["a@b.com"; "c@d.org"; "bad"].

(** The finding for the malformed address of [contactsRows]. *)
Definition contactFinding : ValidationError :=
  {| ve_id := "contacts-2-Email-type"; ve_row := 2; ve_column := "Email";
     ve_severity := error; ve_type := "type_mismatch";
     ve_autoFixable := false |}.

(** A table [orders] whose one cell is not a number, and the finding of the
    row check for it. *)
Definition unparsedOrder : AppState :=
  {| st_data := [("orders", [[("Qty", VStr "abc")]])];
     st_schemas := [("orders", ordersSchema None)];
     st_validationErrors := [] |}.

Definition qtyMismatch : ValidationError :=
  {| ve_id := "orders-0-Qty-type"; ve_row := 0; ve_column := "Qty";
     ve_severity := error; ve_type := "type_mismatch";
     ve_autoFixable := true |}.

(** The finding for a malformed address typed into row 1 of [clients], as
    the check of the edited row words it. *)
Definition editedEmailFinding : ValidationError :=
  {| ve_id := "clients-0-Email-type"; ve_row := 0; ve_column := "Email";
     ve_severity := error; ve_type := "type_mismatch";
     ve_autoFixable := false |}.

(** The state after the upload of one well-formed row of [clients]. *)
Definition cleanState : AppState :=
  handleDataUpload emptyState "clients"
    [[("ClientID", VStr "C1"); ("Email", VStr "a@b.com")]] clientsSchema.

(** A table of two companies, with commas inside cells. *)
Definition acmeRow : DataRow :=
  [("Company", VStr "Acme, Inc."); ("City", VStr "Paris")].

Definition initechRow : DataRow :=
  [("Company", VStr "Initech"); ("City", VStr "Austin, TX")].

(** A CSV text of two lines, a cell of which holds double quotes. *)
Definition quotedText : string :=
  "a,b" ++ newline ++ "x," ++ DQ ++ "y" ++ DQ ++ "z".

(** The state of [unparsedOrder] once the row check has run. *)
Definition checkedOrder : AppState :=
  {| st_data := st_data unparsedOrder;
     st_schemas := st_schemas unparsedOrder;
     st_validationErrors := [qtyMismatch] |}.

(** Two tables of orders, the name of the second holding a dash, and the
    finding that the row check reports for the empty required cell of the
    second. *)
Definition archivedQtyMissing : ValidationError :=
  {| ve_id := "orders-2024-0-Qty-required"; ve_row := 0; ve_column := "Qty";
     ve_severity := error; ve_type := "missing_required";
     ve_autoFixable := true |}.

Definition twoOrderTables : AppState :=
  {| st_data := [("orders", [[("Qty", VNum (numOfNat 7))]]);
                 ("orders-2024", [[("Qty", VStr "")]])];
     st_schemas := [("orders", ordersSchema None);
                    ("orders-2024", ordersSchema None)];
     st_validationErrors := [archivedQtyMissing] |}.

(* ================================================================== *)
(** * Properties *)
(* ================================================================== *)

(** ** Lists and dictionaries *)

Lemma nth_error_indexed_from :
  forall (A : Type) (l : list A) (a i : nat),
    nth_error (combine (seq a (List.length l)) l) i =
    option_map (fun x => (a + i, x)) (nth_error l i).
Proof.
  induction l as [|x l IH]; intros a i.
  - destruct i; reflexivity.
  - destruct i as [|i]; simpl.
    + now rewrite Nat.add_0_r.
    + rewrite IH. destruct (nth_error l i); simpl; [|reflexivity].
      now rewrite Nat.add_succ_r.
Qed.

Lemma nth_error_indexed :
  forall (A : Type) (l : list A) (i : nat),
    nth_error (indexed l) i = option_map (fun x => (i, x)) (nth_error l i).
Proof.
  intros A l i. unfold indexed. now rewrite nth_error_indexed_from.
Qed.

Lemma In_indexed :
  forall (A : Type) (l : list A) (i : nat) (x : A),
    In (i, x) (indexed l) <-> nth_error l i = Some x.
Proof.
  intros A l i x. split.
  - intros H. apply In_nth_error in H. destruct H as [n Hn].
    rewrite nth_error_indexed in Hn.
    destruct (nth_error l n) eqn:E; simpl in Hn; [|discriminate].
    inversion Hn; subst. exact E.
  - intros H. apply nth_error_In with (n := i).
    rewrite nth_error_indexed, H. reflexivity.
Qed.

Lemma lookup_assign_same :
  forall (A : Type) (d : Dict A) (k : string) (v : A),
    lookup (assign d k v) k = Some v.
Proof.
  induction d as [|[k' w] d IH]; intros k v; simpl.
  - now rewrite String.eqb_refl.
  - destruct (String.eqb k' k) eqn:E; simpl; rewrite E; [reflexivity|apply IH].
Qed.

Lemma getField_setField_same :
  forall (row : DataRow) (k : string) (v : value),
    getField (setField row k v) k = v.
Proof.
  induction row as [|[k' w] row IH]; intros k v; simpl.
  - now rewrite String.eqb_refl.
  - destruct (String.eqb k' k) eqn:E; simpl; rewrite E; [reflexivity|apply IH].
Qed.

Lemma nth_error_updateRow :
  forall (rows : list DataRow) (i : nat) (field : string) (v : value) (row : DataRow),
    nth_error rows i = Some row ->
    nth_error (updateRow rows i field v) i = Some (setField row field v).
Proof.
  intros rows i field v row H. unfold updateRow.
  rewrite nth_error_map, nth_error_indexed, H. simpl.
  now rewrite Nat.eqb_refl.
Qed.

(** ** CSV export *)

(** C9 (amended): in CSV export a truthy cell value whose text contains a
    comma is written between double quotes with every double quote of the
    text doubled, and a truthy cell value without a comma is written as its
    text unchanged. *)
Theorem C9_truthy_cell_serialization :
  forall (row : DataRow) (header : string),
    truthy (getField row header) = true ->
    csvField row header =
      (let s := toString (getField row header) in
       if includes s ","
       then DQ ++ replaceAll dquote (DQ ++ DQ) s ++ DQ
       else s).
Proof.
  intros row header H. unfold csvField. rewrite H. reflexivity.
Qed.

(** The cell [Acme, Inc.] is written as that text between double quotes,
    here as the second line of the exported content. *)
Lemma C9_acme_witness :
  truthy (getField [("Company", VStr "Acme, Inc.")] "Company") = true /\
  csvField [("Company", VStr "Acme, Inc.")] "Company"
    = DQ ++ "Acme, Inc." ++ DQ /\
  csvContent [[("Company", VStr "Acme, Inc.")]]
    = Some ("Company" ++ newline ++ DQ ++ "Acme, Inc." ++ DQ).
Proof.
  split; [reflexivity|]. split.
  - rewrite (C9_truthy_cell_serialization
               [("Company", VStr "Acme, Inc.")] "Company" eq_refl).
    reflexivity.
  - reflexivity.
Defined.

(** C9 fails as stated at the number zero: its text has no comma, yet the
    field written is empty and not that text. *)
Lemma C9_counterexample_zero :
  includes (toString (getField [("Qty", VNum (numOfNat 0))] "Qty")) "," = false /\
  toString (getField [("Qty", VNum (numOfNat 0))] "Qty") = "0" /\
  csvField [("Qty", VNum (numOfNat 0))] "Qty" = "".
Proof.
  refine (conj _ (conj _ _)); reflexivity.
Qed.

Lemma csvField_sameUpToFalsy :
  forall (r1 r2 : DataRow) (header : string),
    sameUpToFalsy r1 r2 -> csvField r1 header = csvField r2 header.
Proof.
  intros r1 r2 header H. unfold csvField.
  destruct (H header) as [E|[E1 E2]].
  - now rewrite E.
  - now rewrite E1, E2.
Qed.

Lemma map_Forall2 :
  forall (A B : Type) (P : A -> A -> Prop) (f : A -> B) (l1 l2 : list A),
    (forall x y, P x y -> f x = f y) -> Forall2 P l1 l2 -> map f l1 = map f l2.
Proof.
  intros A B P f l1 l2 Hf H. induction H as [|x y l1 l2 Hxy _ IH]; simpl.
  - reflexivity.
  - now rewrite (Hf x y Hxy), IH.
Qed.

(** C10: in CSV export a cell whose stored value is falsy is written as the
    empty field; so two tables with the same column names whose rows differ
    only in cells that are falsy in both (a zero or a false in one, a
    missing value in the other) are exported as the same text. *)
Theorem C10_falsy_cell_is_empty_field :
  (forall (row : DataRow) (header : string),
      truthy (getField row header) = false -> csvField row header = "") /\
  (forall (first1 first2 : DataRow) (rest1 rest2 : list DataRow),
      map fst first1 = map fst first2 ->
      Forall2 sameUpToFalsy (first1 :: rest1) (first2 :: rest2) ->
      csvContent (first1 :: rest1) = csvContent (first2 :: rest2)).
Proof.
  split.
  - intros row header H. unfold csvField. now rewrite H.
  - intros first1 first2 rest1 rest2 Hk H. unfold csvContent.
    rewrite Hk. do 3 f_equal.
    apply (map_Forall2 _ _ sameUpToFalsy); [|exact H].
    intros r1 r2 Hr. f_equal. apply map_ext.
    intros header. now apply csvField_sameUpToFalsy.
Qed.

(** The five falsy values of the claim, each in a row of its own: zero,
    false, null, undefined (an absent key) and the empty string; and a row
    holding a zero and a false next to a row holding nothing in the same
    columns, exported as the same text. *)
Lemma C10_falsy_witness :
  (csvField [("x", VNum (numOfNat 0))] "x" = "" /\
   csvField [("x", VBool false)] "x" = "" /\
   csvField [("x", VNull)] "x" = "" /\
   csvField [] "x" = "" /\
   csvField [("x", VStr "")] "x" = "") /\
  csvContent [[("Qty", VNum (numOfNat 0)); ("Active", VBool false)]]
  = csvContent [[("Qty", VStr ""); ("Active", VNull)]].
Proof.
  split.
  - refine (conj _ (conj _ (conj _ (conj _ _))));
      match goal with
      | |- csvField ?row _ = _ =>
          exact (proj1 C10_falsy_cell_is_empty_field row "x" eq_refl)
      end.
  - apply (proj2 C10_falsy_cell_is_empty_field); [reflexivity|].
    constructor; [|constructor].
    intros header. unfold getField.
    destruct (String.eqb "Qty" header); [right; split; reflexivity|].
    destruct (String.eqb "Active" header); [right; split; reflexivity|].
    now left.
Defined.

(** ** Auto-fix *)

(** C2 fails as stated: for the auto-fixable [missing_required] finding of a
    number column the code writes 1, where the claim has the min bound (3
    here) when there are bounds and 0 when there are none. *)
Lemma C2_counterexample_missing_number :
  validateRowAgainstSchema [("Qty", VStr "")] 0 "orders" (ordersSchema bounds_3_9)
    = [qtyMissing] /\
  fixedValue [("orders", ordersSchema bounds_3_9)] qtyMissing
    = Some (VNum (numOfNat 1)) /\
  specFixValue "missing_required" (qtyColumn bounds_3_9)
    = Some (VNum (numOfNat 3)) /\
  fixedValue [("orders", ordersSchema None)] qtyMissing
    = Some (VNum (numOfNat 1)) /\
  specFixValue "missing_required" (qtyColumn None)
    = Some (VNum (numOfNat 0)).
Proof.
  refine (conj _ (conj _ (conj _ (conj _ _)))); reflexivity.
Qed.

(** The table that the fixer reads off an id: the part before the first
    dash, which is the table of the finding when its name holds no dash. *)
Lemma split_app_sep :
  forall (sep : ascii) (a b : string),
    allS (isNot sep) a = true ->
    split sep (a ++ String sep b) = a :: split sep b.
Proof.
  intros sep a b. induction a as [|c a IH]; intros H; cbn [append split].
  - now rewrite Ascii.eqb_refl.
  - cbn in H. apply andb_true_iff in H. destruct H as [Hc Ha].
    unfold isNot in Hc. destruct (Ascii.eqb c sep); [discriminate|].
    now rewrite (IH Ha).
Qed.

Lemma tableOfId_app :
  forall tableName rest : string,
    noDash tableName = true -> tableOfId (tableName ++ "-" ++ rest) = tableName.
Proof.
  intros tableName rest H. unfold tableOfId.
  change ("-" ++ rest) with (String "-" rest).
  now rewrite split_app_sep.
Qed.

(** C2 (amended): for a finding of a table whose name holds no dash (the
    fixer takes as table the part of the id before its first dash, and the
    id of a finding starts with the name of its table and a dash), the
    auto-fix goes to that table, and its value is, for a [missing_required]
    finding, 1 on a number column, the text false on a boolean column and
    the text default on a string column, whatever bounds the column has;
    for a [type_mismatch] finding, 0 on a number column and the text false
    on a boolean column; and applying the fix leaves that value in the cell
    of the finding. *)
Theorem C2_auto_fix_values :
  forall (st : AppState) (e : ValidationError) (tableName rest : string)
         (schema : TableSchema) (col : ColumnSchema),
    noDash tableName = true ->
    ve_id e = tableName ++ "-" ++ rest ->
    lookup (st_schemas st) tableName = Some schema ->
    find (fun c => String.eqb (cs_name c) (ve_column e)) (ts_columns schema)
      = Some col ->
    tableOfId (ve_id e) = tableName /\
    (ve_type e = "missing_required" ->
     fixedValue (st_schemas st) e =
       match cs_type col with
       | TNumber => Some (VNum (numOfNat 1))
       | TBoolean => Some (VStr "false")
       | TString => Some (VStr "default")
       | _ => None
       end) /\
    (ve_type e = "type_mismatch" ->
     fixedValue (st_schemas st) e =
       match cs_type col with
       | TNumber => Some (VNum (numOfNat 0))
       | TBoolean => Some (VStr "false")
       | _ => None
       end) /\
    (forall (v : value) (rows : list DataRow) (row : DataRow),
       fixedValue (st_schemas st) e = Some v ->
       lookup (st_data st) tableName = Some rows ->
       nth_error rows (ve_row e) = Some row ->
       exists st' : AppState,
         applyAutoFix st e = Some st' /\
         getField (nth (ve_row e) (rowsOf (st_data st') tableName) [])
                  (ve_column e) = v).
Proof.
  intros st e tableName rest schema col Hdash Hid Hs Hfind.
  assert (Ht : tableOfId (ve_id e) = tableName)
    by (rewrite Hid; now apply tableOfId_app).
  assert (Hcol : findColumn (st_schemas st) (tableOfId (ve_id e)) (ve_column e)
                 = Some col)
    by (unfold findColumn; now rewrite Ht, Hs).
  refine (conj Ht (conj _ (conj _ _))).
  - intros Hty. unfold fixedValue. rewrite Hcol, Hty. cbn.
    destruct (cs_type col); reflexivity.
  - intros Hty. unfold fixedValue. rewrite Hcol, Hty. cbn.
    destruct (cs_type col); reflexivity.
  - intros v rows row Hv Hrows Hrow.
    unfold applyAutoFix, updateData. rewrite Hv, Ht, Hrows.
    eexists. split; [reflexivity|]. cbn [st_data].
    unfold rowsOf. rewrite lookup_assign_same.
    erewrite nth_error_nth
      by (apply nth_error_updateRow; exact Hrow).
    apply getField_setField_same.
Qed.

(** The finding for the empty required cell of [Qty], bounds 3 to 9, in the
    table [orders]: the fix value is 1, and after the fix the cell holds
    1. *)
Lemma C2_auto_fix_witness :
  noDash "orders" = true /\
  ve_id qtyMissing = "orders" ++ "-" ++ "0-Qty-required" /\
  fixedValue [("orders", ordersSchema bounds_3_9)] qtyMissing
    = Some (VNum (numOfNat 1)) /\
  exists st' : AppState,
    applyAutoFix
      {| st_data := [("orders", [[("Qty", VStr "")]])];
         st_schemas := [("orders", ordersSchema bounds_3_9)];
         st_validationErrors := [qtyMissing] |} qtyMissing = Some st' /\
    getField (nth 0 (rowsOf (st_data st') "orders") []) "Qty"
      = VNum (numOfNat 1).
Proof.
  assert (Hdash : noDash "orders" = true) by reflexivity.
  assert (Hid : ve_id qtyMissing = "orders" ++ "-" ++ "0-Qty-required")
    by reflexivity.
  pose proof
    (C2_auto_fix_values
       {| st_data := [("orders", [[("Qty", VStr "")]])];
          st_schemas := [("orders", ordersSchema bounds_3_9)];
          st_validationErrors := [qtyMissing] |}
       qtyMissing "orders" "0-Qty-required" (ordersSchema bounds_3_9)
       (qtyColumn bounds_3_9) Hdash Hid eq_refl eq_refl) as (_ & H1 & _ & H3).
  refine (conj Hdash (conj Hid (conj (H1 eq_refl) _))).
  exact (H3 (VNum (numOfNat 1)) [[("Qty", VStr "")]] [("Qty", VStr "")]
            eq_refl eq_refl eq_refl).
Defined.

(** ** The column classifier *)

Lemma ColType_eqb_eq :
  forall a b : ColType, ColType_eqb a b = true <-> a = b.
Proof.
  intros a b; split; [|intros ->; destruct b; reflexivity].
  destruct a, b; simpl; intros H; try reflexivity; discriminate.
Qed.

(** The ternary that names the emitted type returns the winner in both of
    its branches. *)
Lemma detect_type_is_best :
  forall (h : Host) (name : string) (data : list DataRow),
    cs_type (detectColumnSchema h name data) = bestType (typeScoresOf h name data).
Proof.
  intros h name data. unfold detectColumnSchema. cbn [cs_type].
  destruct (ColType_eqb (bestType (typeScoresOf h name data)) TString) eqn:E;
    cbn [andb]; [|reflexivity].
  apply ColType_eqb_eq in E.
  destruct (slt _ _); [symmetry; exact E|reflexivity].
Qed.

Lemma count_none :
  forall (A : Type) (p : A -> bool) (l : list A),
    (forall x, In x l -> p x = false) -> count p l = 0.
Proof.
  intros A p l H. unfold count. induction l as [|x l IH]; [reflexivity|].
  simpl. rewrite (H x (or_introl eq_refl)). apply IH.
  intros y Hy. apply H. now right.
Qed.

(** C1, the code at a failing input.  The emitted type is the winner of
    the scores on every input, whatever the confidence.  On a host that
    reads neither of the two texts as a date or a URL, the column [Notes]
    scores 25 for array and 0 for every other candidate: the confidence 0.25
    is below 0.3 and the emitted type is array, not string. *)
Theorem C1_low_confidence_winner_kept :
  forall h : Host,
    dateParses h "a,b" = false -> dateParses h "hello" = false ->
    urlParses h "a,b" = false -> urlParses h "hello" = false ->
    (forall (name : string) (data : list DataRow),
        cs_type (detectColumnSchema h name data)
        = bestType (typeScoresOf h name data)) /\
    slt (cs_confidence (detectColumnSchema h "Notes" notesColumn)) (SNum (3 # 10))
      = true /\
    cs_type (detectColumnSchema h "Notes" notesColumn) = TArray.
Proof.
  intros h D1 D2 U1 U2.
  split; [intros name data; apply detect_type_is_best|].
  assert (Hs : samplesOf "Notes" notesColumn
               = [VStr "a,b"; VStr "hello"; VStr "hello"; VStr "hello"])
    by reflexivity.
  assert (Hd : count (fun v => dateParses h (toString v))
                     (samplesOf "Notes" notesColumn) = 0).
  { apply count_none. rewrite Hs. simpl.
    intros x [<-|[<-|[<-|[<-|[]]]]]; assumption. }
  assert (Hu : count (fun v => urlParses h (toString v))
                     (samplesOf "Notes" notesColumn) = 0).
  { apply count_none. rewrite Hs. simpl.
    intros x [<-|[<-|[<-|[<-|[]]]]]; assumption. }
  cbv beta zeta delta [detectColumnSchema typeScoresOf computeScores].
  rewrite Hd, Hu. split; vm_compute; reflexivity.
Qed.

(** The same column on a host that reads no text as a date or a URL. *)
Lemma C1_low_confidence_witness :
  slt (cs_confidence (detectColumnSchema hostRejectingAll "Notes" notesColumn))
      (SNum (3 # 10)) = true /\
  cs_type (detectColumnSchema hostRejectingAll "Notes" notesColumn) = TArray.
Proof.
  exact (proj2 (C1_low_confidence_winner_kept hostRejectingAll
                  eq_refl eq_refl eq_refl eq_refl)).
Defined.


(** *** The reducer keeps the last of the greatest *)

Section PickLast.

Variable A : Type.
Variable gt : A -> A -> bool.
Hypothesis gt_irrefl : forall a, gt a a = false.
Hypothesis gt_trans :
  forall a b c, gt a b = true -> gt b c = true -> gt a c = true.
Hypothesis gt_negtrans :
  forall a b c, gt a b = false -> gt b c = false -> gt a c = false.

Lemma gt_asym : forall a b, gt a b = true -> gt b a = false.
Proof.
  intros a b H. destruct (gt b a) eqn:E; [|reflexivity].
  rewrite <- (gt_irrefl a). symmetry. now apply gt_trans with b.
Qed.

(** The result of the reduction splits the array: nothing before it is
    greater, everything after it is smaller. *)
Lemma reduce_pick_split :
  forall (rest : list A) (first : A),
    exists l1 l2 : list A,
      (first :: rest = l1 ++ reduce (pick gt) first rest :: l2)%list /\
      (forall x, In x l1 -> gt x (reduce (pick gt) first rest) = false) /\
      (forall x, In x l2 -> gt (reduce (pick gt) first rest) x = true).
Proof.
  unfold reduce.
  induction rest as [|b rest IH]; intros first.
  - exists [], []. simpl. split; [reflexivity|]. split; intros x [].
  - simpl. unfold pick at 2 4 6. destruct (gt first b) eqn:E.
    + destruct (IH first) as (l1 & l2 & Heq & H1 & H2).
      remember (fold_left (pick gt) rest first) as r eqn:Hr. clear Hr IH.
      destruct l1 as [|y l1]; simpl in Heq; inversion Heq; subst.
      * exists [], (b :: l2). simpl. split; [reflexivity|]. split.
        -- intros x [].
        -- intros x [<-|Hx]; [exact E|now apply H2].
      * exists (y :: b :: l1), l2. split; [reflexivity|]. split.
        -- intros x [<-|[<-|Hx]].
           ++ apply H1. now left.
           ++ destruct (gt b r) eqn:G; [|reflexivity].
              rewrite <- (H1 y (or_introl eq_refl)). symmetry.
              now apply gt_trans with b.
           ++ apply H1. now right.
        -- exact H2.
    + destruct (IH b) as (l1 & l2 & Heq & H1 & H2).
      remember (fold_left (pick gt) rest b) as r eqn:Hr. clear Hr IH.
      exists (first :: l1), l2. simpl. rewrite Heq.
      split; [reflexivity|]. split.
      * intros x [<-|Hx]; [|now apply H1].
        destruct l1 as [|y l1]; simpl in Heq; inversion Heq; subst.
        -- exact E.
        -- apply gt_negtrans with y; [exact E|]. apply H1. now left.
      * exact H2.
Qed.

Lemma find_app_skip :
  forall (f : A -> bool) (l l' : list A),
    (forall x, In x l -> f x = false) -> find f (l ++ l')%list = find f l'.
Proof.
  intros f l l' H. induction l as [|x l IH]; [reflexivity|].
  simpl. rewrite (H x (or_introl eq_refl)). apply IH.
  intros y Hy. apply H. now right.
Qed.

(** Searching from the end for an element that nothing exceeds finds the
    result of the reduction. *)
Lemma reduce_pick_is_last_greatest :
  forall (rest : list A) (first : A),
    find (isGreatest gt (first :: rest)) (rev (first :: rest))
    = Some (reduce (pick gt) first rest).
Proof.
  intros rest first.
  destruct (reduce_pick_split rest first) as (l1 & l2 & Heq & H1 & H2).
  set (r := reduce (pick gt) first rest) in *.
  rewrite Heq at 2. rewrite rev_app_distr. simpl rev.
  rewrite <- app_assoc. rewrite find_app_skip.
  - cbn [app find].
    replace (isGreatest gt (first :: rest) r) with true; [reflexivity|].
    symmetry. unfold isGreatest. apply forallb_forall. intros u Hu.
    rewrite Heq in Hu. apply in_app_or in Hu.
    apply negb_true_iff. destruct Hu as [Hu|[<-|Hu]].
    + now apply H1.
    + apply gt_irrefl.
    + apply gt_asym. now apply H2.
  - intros x Hx. apply in_rev in Hx.
    unfold isGreatest. apply not_true_is_false. intros Hall.
    rewrite forallb_forall in Hall.
    assert (Hr : In r (first :: rest)).
    { rewrite Heq. apply in_or_app. right. now left. }
    specialize (Hall r Hr). rewrite (H2 x Hx) in Hall. discriminate.
Qed.

End PickLast.

(** *** Scores *)

Lemma Qltb_lt : forall x y : Q, Qltb x y = true <-> (x < y)%Q.
Proof. intros x y. unfold Qltb, Qlt. apply Z.ltb_lt. Qed.

Lemma Qltb_ge : forall x y : Q, Qltb x y = false <-> (y <= x)%Q.
Proof. intros x y. unfold Qltb, Qle. apply Z.ltb_ge. Qed.

Lemma sgt_irrefl : forall a : score, sgt a a = false.
Proof.
  intros [|q]; [reflexivity|]. simpl. apply Qltb_ge. apply Qle_refl.
Qed.

Lemma sgt_trans :
  forall a b c : score, sgt a b = true -> sgt b c = true -> sgt a c = true.
Proof.
  intros [|x] [|y] [|z]; simpl; try discriminate.
  rewrite !Qltb_lt. intros H1 H2. now apply Qlt_trans with y.
Qed.

Lemma sgt_negtrans :
  forall a b c : score,
    numeric a -> numeric b -> numeric c ->
    sgt a b = false -> sgt b c = false -> sgt a c = false.
Proof.
  intros a b c [x ->] [y ->] [z ->]. simpl.
  rewrite !Qltb_ge. intros H1 H2. now apply Qle_trans with y.
Qed.

Lemma reduce_entries_fst :
  forall (ts : TypeScores) (l : list ColType) (a : ColType),
    fst (reduce (pickBest ts) (a, scoreOf ts a)
           (map (fun t => (t, scoreOf ts t)) l))
    = reduce (pickType ts) a l.
Proof.
  intros ts. unfold reduce.
  induction l as [|b l IH]; intros a; [reflexivity|].
  simpl. unfold pickBest at 2, pickType at 2, pick. simpl.
  destruct (sgt (scoreOf ts a) (scoreOf ts b)); apply IH.
Qed.

(** With every score a number, the winner is the candidate declared latest
    among those no candidate exceeds. *)
Lemma bestType_latest :
  forall ts : TypeScores,
    (forall t, numeric (scoreOf ts t)) -> bestType ts = latestBest ts.
Proof.
  intros ts Hnum.
  replace (bestType ts)
    with (reduce (pickType ts) TId
            [TNumber; TBoolean; TDate; TEmail; TUrl; TJson; TArray; TString])
    by (rewrite <- reduce_entries_fst; reflexivity).
  unfold latestBest, candidates.
  change (attainsBest ts)
    with (isGreatest (fun a b => sgt (scoreOf ts a) (scoreOf ts b))
            [TId; TNumber; TBoolean; TDate; TEmail; TUrl; TJson; TArray; TString]).
  unfold pickType.
  rewrite reduce_pick_is_last_greatest; [reflexivity| | |].
  - intros a. apply sgt_irrefl.
  - intros a b c. apply sgt_trans.
  - intros a b c. apply sgt_negtrans; apply Hnum.
Qed.

Lemma computeScores_numeric :
  forall (h : Host) (lowerName : string) (v : value) (samples : list value)
         (t : ColType),
    numeric (scoreOf (computeScores h lowerName (v :: samples)) t).
Proof.
  intros h lowerName v samples t. unfold computeScores, sdiv.
  cbn [List.length]. destruct t; cbn; eexists; reflexivity.
Qed.

(** C5 (amended): when several candidate types attain the same highest
    score, the emitted type is the one declared latest in the candidate
    order; in general the emitted type is the latest candidate whose score
    no other candidate exceeds. *)
Theorem C5_ties_resolved_by_last_declared :
  forall (h : Host) (name : string) (data : list DataRow),
    cs_type (detectColumnSchema h name data)
    = latestBest (typeScoresOf h name data).
Proof.
  intros h name data. rewrite detect_type_is_best.
  unfold typeScoresOf. destruct (samplesOf name data) as [|v samples].
  - reflexivity.
  - apply bestType_latest. intros t. apply computeScores_numeric.
Qed.

Lemma count_pair :
  forall (A : Type) (p : A -> bool) (a b : A),
    count p [a; b] = (if p a then 1 else 0) + (if p b then 1 else 0).
Proof.
  intros A p a b. unfold count. simpl. destruct (p a), (p b); reflexivity.
Qed.

(** C5 fails as stated.  Both texts of the column [Active] are boolean
    tokens and both are JSON texts, so on every host boolean and json score
    100 and nothing scores more; boolean is the earlier of the two in the
    candidate order, and the emitted type is json. *)
Lemma C5_counterexample_boolean_json_tie :
  samplesOf "Active" activeColumn = [VStr "true"; VStr "false"] /\
  forall h : Host,
    attainsBest (typeScoresOf h "Active" activeColumn) TBoolean = true /\
    attainsBest (typeScoresOf h "Active" activeColumn) TJson = true /\
    earliestBest (typeScoresOf h "Active" activeColumn) = TBoolean /\
    cs_type (detectColumnSchema h "Active" activeColumn) = TJson.
Proof.
  split; [reflexivity|]. intros h.
  rewrite detect_type_is_best.
  cbv beta zeta delta [typeScoresOf computeScores].
  replace (samplesOf "Active" activeColumn)
    with [VStr "true"; VStr "false"] by reflexivity.
  rewrite !count_pair. cbn [toString].
  destruct (dateParses h "true"), (dateParses h "false"),
           (urlParses h "true"), (urlParses h "false");
    refine (conj _ (conj _ (conj _ _))); vm_compute; reflexivity.
Qed.

(** *** The required flag *)

Lemma belowTenth_spec :
  forall k n : nat, belowTenth k n = true <-> 10 * k < n.
Proof.
  intros k n. unfold belowTenth, slt, sdiv. destruct n as [|m].
  - simpl. split; [discriminate|lia].
  - cbn [sgt]. rewrite Qltb_lt. unfold ofNat, Qlt, Qdiv, Qmult, Qinv.
    cbn [inject_Z Qnum Qden Z.of_nat].
    rewrite Pos.mul_1_l. cbn [Qnum Qden]. lia.
Qed.

(** C7, the code at a failing input.  The flag is computed over all rows
    and is true exactly when ten times the number of rows it counts as null
    is below the number of rows, one tenth itself excluded; but a row counts
    as null as soon as its cell is falsy.  In the column [Qty] no cell is
    missing or empty, so the claim has [required] true; the code counts the
    two zeros as null, finds two thirds of the rows null, and emits
    [required] false. *)
Theorem C7_zero_cells_counted_as_missing :
  (forall (h : Host) (name : string) (data : list DataRow),
      cs_required (detectColumnSchema h name data) = true <->
      10 * count (fun row => isMissing (getField row name)) data
        < List.length data) /\
  forall h : Host,
    count (fun row => isBlank (getField row "Qty")) qtyCells = 0 /\
    specRequired "Qty" qtyCells = true /\
    cs_required (detectColumnSchema h "Qty" qtyCells) = false.
Proof.
  split.
  - intros h name data. unfold detectColumnSchema. cbn [cs_required].
    apply belowTenth_spec.
  - intros h. refine (conj _ (conj _ _)); reflexivity.
Qed.

(** ** The validation engine *)

Lemma string_length_app :
  forall a b : string,
    String.length (a ++ b) = String.length a + String.length b.
Proof.
  induction a as [|c a IH]; intros b; simpl; [reflexivity|]. now rewrite IH.
Qed.

Lemma string_app_inv_tail :
  forall a b c : string, a ++ c = b ++ c -> a = b.
Proof.
  induction a as [|x a IH]; intros [|y b] c H; simpl in H.
  - reflexivity.
  - apply (f_equal String.length) in H. simpl in H.
    rewrite string_length_app in H. lia.
  - apply (f_equal String.length) in H. simpl in H.
    rewrite string_length_app in H. lia.
  - inversion H; subst. f_equal. now apply IH with c.
Qed.

Lemma number_eqb_eq : forall a b : number, number_eqb a b = true <-> a = b.
Proof.
  intros a b. split.
  - destruct a as [|x|n1 i1 f1], b as [|y|n2 i2 f2]; simpl;
      try discriminate; try reflexivity.
    + intros H. apply Bool.eqb_prop in H. now subst.
    + rewrite !andb_true_iff. intros [[H1 H2] H3].
      apply Bool.eqb_prop in H1. apply String.eqb_eq in H2, H3. now subst.
  - intros <-. destruct a as [|x|n i f]; simpl.
    + reflexivity.
    + apply Bool.eqb_reflx.
    + now rewrite Bool.eqb_reflx, !String.eqb_refl.
Qed.

Lemma value_eqb_eq : forall a b : value, value_eqb a b = true <-> a = b.
Proof.
  intros a b. split.
  - destruct a, b; simpl; try discriminate; try reflexivity; intros H.
    + apply Bool.eqb_prop in H. now subst.
    + apply number_eqb_eq in H. now subst.
    + apply String.eqb_eq in H. now subst.
    + apply String.eqb_eq in H. now subst.
  - intros <-. destruct a; simpl; try reflexivity.
    + apply Bool.eqb_reflx.
    + now apply number_eqb_eq.
    + apply String.eqb_refl.
    + apply String.eqb_refl.
Qed.

Lemma setHas_In : forall (l : list value) (v : value), setHas l v = true <-> In v l.
Proof.
  intros l v. unfold setHas. rewrite existsb_exists. split.
  - intros (x & Hx & E). apply value_eqb_eq in E. now subst.
  - intros H. exists v. split; [exact H|]. now apply value_eqb_eq.
Qed.

(** Every finding of the cross-reference pass is an [unknown_reference]
    finding of severity error that is not auto-fixable. *)
Lemma crossReference_findings :
  forall (schemas : Dict TableSchema) (data : Dict (list DataRow))
         (f : ValidationError),
    In f (validateCrossReferences schemas data) ->
    exists (tableName : string) (index : nat) (column : string),
      f = refError tableName index column.
Proof.
  intros schemas data f. unfold validateCrossReferences.
  rewrite in_flat_map. intros ([tn schema] & _ & H).
  rewrite in_flat_map in H. destruct H as (rel & _ & H).
  rewrite in_flat_map in H. destruct H as ([i row] & _ & H).
  destruct (truthy _ && negb _); [|destruct H].
  destruct H as [<-|[]]. now exists tn, i, (rel_column rel).
Qed.

(** C4 (amended): the cross-reference pass emits an [unknown_reference]
    finding (severity error, not auto-fixable) for row R of a table and
    column C if and only if the table declares a relationship on C for
    which R's value in C is truthy and does not occur among the values of
    the target table's rows for that same column name. *)
Theorem C4_unknown_reference_iff :
  forall (schemas : Dict TableSchema) (data : Dict (list DataRow))
         (tableName : string) (index : nat) (column : string),
    (In (refError tableName index column) (validateCrossReferences schemas data)
     <->
     exists (schema : TableSchema) (relationship : Relationship) (row : DataRow),
       In (tableName, schema) schemas /\
       In relationship (ts_relationships schema) /\
       rel_column relationship = column /\
       nth_error (rowsOf data tableName) index = Some row /\
       truthy (getField row column) = true /\
       ~ In (getField row column)
            (map (fun r => getField r column)
                 (rowsOf data (rel_table relationship)))) /\
    ve_type (refError tableName index column) = "unknown_reference" /\
    ve_severity (refError tableName index column) = error /\
    ve_autoFixable (refError tableName index column) = false.
Proof.
  intros schemas data tableName index column.
  split; [|refine (conj _ (conj _ _)); reflexivity].
  unfold validateCrossReferences. rewrite in_flat_map. split.
  - intros ([tn schema] & Hin & H). rewrite in_flat_map in H.
    destruct H as (rel & Hrel & H). rewrite in_flat_map in H.
    destruct H as ([i row] & Hrow & H).
    apply In_indexed in Hrow.
    destruct (truthy (getField row (rel_column rel))) eqn:Ht;
      cbn [andb negb In] in H; [|destruct H].
    destruct (setHas _ (getField row (rel_column rel))) eqn:Hs;
      cbn [andb negb In] in H; [destruct H|].
    destruct H as [H|[]].
    unfold refError in H. inversion H as [[Hid Hrowi Hcol]].
    subst i. rewrite Hcol in *.
    apply string_app_inv_tail in Hid. subst tn.
    exists schema, rel, row. repeat (split; [assumption|]).
    rewrite <- setHas_In. rewrite Hs. discriminate.
  - intros (schema & rel & row & Hin & Hrel & Hcol & Hrow & Ht & Hs).
    exists (tableName, schema). split; [exact Hin|].
    rewrite in_flat_map. exists rel. split; [exact Hrel|].
    rewrite in_flat_map. exists (index, row). split; [now apply In_indexed|].
    rewrite Hcol, Ht. rewrite <- setHas_In in Hs.
    destruct (setHas _ _); [now elim Hs|]. now left.
Qed.

(** C4 fails as stated at the client number zero: the cell is not empty
    and zero is not a client number of the target table, yet there is no
    finding. *)
Lemma C4_counterexample_zero_reference :
  isBlank (getField [("TaskID", VNum (numOfNat 7)); ("ClientID", VNum (numOfNat 0))]
                    "ClientID") = false /\
  setHas (map (fun r => getField r "ClientID") (rowsOf numberedClients "clients"))
         (VNum (numOfNat 0)) = false /\
  validateCrossReferences numberedSchemas numberedClients = [].
Proof.
  refine (conj _ (conj _ _)); reflexivity.
Qed.

(** C8 (amended): for a table classified as [workers], for the first column
    of its schema whose name contains load or capacity, and for every row
    whose value in that column is truthy and reads under [parseInt] as an
    integer greater than 8, a [burnout_risk] finding (severity warning, not
    auto-fixable) is emitted for that row and column. *)
Theorem C8_burnout_first_load_column :
  forall (schemas : Dict TableSchema) (data : Dict (list DataRow))
         (tableName : string) (schema : TableSchema) (loadColumn : ColumnSchema)
         (index : nat) (row : DataRow),
    In (tableName, schema) schemas ->
    ts_entityType schema = workers ->
    find isLoadColumn (ts_columns schema) = Some loadColumn ->
    nth_error (rowsOf data tableName) index = Some row ->
    truthy (getField row (cs_name loadColumn)) = true ->
    loadExceeds (getField row (cs_name loadColumn)) = true ->
    In (burnoutError tableName index (cs_name loadColumn))
       (validateAdvancedConstraints schemas data) /\
    ve_severity (burnoutError tableName index (cs_name loadColumn)) = warning /\
    ve_autoFixable (burnoutError tableName index (cs_name loadColumn)) = false.
Proof.
  intros schemas data tableName schema loadColumn index row
         Hin Hent Hfind Hrow Ht Hload.
  split; [|split; reflexivity].
  unfold validateAdvancedConstraints. rewrite in_flat_map.
  exists (tableName, schema). split; [exact Hin|].
  rewrite Hent. cbn [DataType_eqb]. rewrite in_flat_map.
  exists (index, row). split; [now apply In_indexed|].
  rewrite Hfind, Ht, Hload. now left.
Qed.

(** The example of the specification: [MaxLoadPerPhase] holding 12. *)
Lemma C8_burnout_witness :
  In (burnoutError "workers" 0 "MaxLoadPerPhase")
     (validateAdvancedConstraints
        (workersSchema ["MaxLoadPerPhase"])
        [("workers", [[("MaxLoadPerPhase", VStr "12")]])]).
Proof.
  exact (proj1
    (C8_burnout_first_load_column
       (workersSchema ["MaxLoadPerPhase"])
       [("workers", [[("MaxLoadPerPhase", VStr "12")]])]
       "workers" _ (mkColumn "MaxLoadPerPhase" TNumber None) 0
       [("MaxLoadPerPhase", VStr "12")]
       (or_introl eq_refl) eq_refl eq_refl eq_refl eq_refl eq_refl)).
Defined.

(** C8 fails as stated on a second load column: [Capacity] holds 12, above
    8, but only the first matching column, [Load], is examined, and no
    finding is emitted. *)
Lemma C8_counterexample_second_column :
  isLoadColumn (mkColumn "Capacity" TNumber None) = true /\
  number_ltb (numOfNat 8) (numOfNat 12) = true /\
  validateAdvancedConstraints
    (workersSchema ["Load"; "Capacity"])
    [("workers", [[("Load", VNum (numOfNat 2)); ("Capacity", VNum (numOfNat 12))]])]
  = [].
Proof.
  refine (conj _ (conj _ _)); reflexivity.
Qed.

(** *** Re-validation after an edit *)

(** C3, the code at a failing input.  After the two uploads the only
    finding is the malformed address in row 1 of [clients].  Editing row 0
    of [clients] then (1) drops that finding although row 1 is unchanged and
    validating the current rows of [clients] still yields it, and (2) adds a
    finding for the other table, [tasks]; a second edit of [clients]
    (3) leaves the finding of [tasks] in the list twice. *)
Theorem C3_edit_drops_and_duplicates_findings :
  st_validationErrors loadedState = [badEmailFinding] /\
  exists st1 st2 : AppState,
    updateData loadedState "clients" 0 "Email" (VStr "x@y.org") = Some st1 /\
    nth_error (rowsOf (st_data st1) "clients") 1 = nth_error clientsRows 1 /\
    validateTable "clients" (rowsOf (st_data st1) "clients") clientsSchema
      = [badEmailFinding] /\
    rowsOf (st_data st1) "tasks" = rowsOf (st_data loadedState) "tasks" /\
    st_validationErrors st1 = [refError "tasks" 0 "ClientID"] /\
    updateData st1 "clients" 0 "Email" (VStr "z@y.org") = Some st2 /\
    st_validationErrors st2
      = [refError "tasks" 0 "ClientID"; refError "tasks" 0 "ClientID"].
Proof.
  split; [reflexivity|].
  eexists. eexists.
  refine (conj _ (conj _ (conj _ (conj _ (conj _ (conj _ _))))));
    vm_compute; reflexivity.
Qed.

(** ** The value normalizer *)

(** *** Trimming *)

Lemma trimStart_head : forall s, headNotSpace (trimStart s).
Proof.
  induction s as [|c s IH]; simpl; [exact I|].
  destruct (isWhiteSpace c) eqn:E; [exact IH|exact E].
Qed.

Lemma trimStart_id : forall s, headNotSpace s -> trimStart s = s.
Proof.
  intros [|c s] H; simpl in *; [reflexivity|]. now rewrite H.
Qed.

Lemma trimEnd_head : forall s, headNotSpace s -> headNotSpace (trimEnd s).
Proof.
  intros [|c s] H; simpl in *; [exact I|].
  destruct (trimEnd s); [rewrite H|]; exact H.
Qed.

Lemma trimEnd_idem : forall s, trimEnd (trimEnd s) = trimEnd s.
Proof.
  induction s as [|c s IH]; simpl; [reflexivity|].
  destruct (trimEnd s) as [|d u] eqn:E.
  - destruct (isWhiteSpace c) eqn:W; simpl; [reflexivity|now rewrite W].
  - simpl in IH |- *. now rewrite IH.
Qed.

Lemma trim_idem : forall s, trim (trim s) = trim s.
Proof.
  intros s. unfold trim.
  rewrite (trimStart_id (trimEnd (trimStart s))).
  - apply trimEnd_idem.
  - apply trimEnd_head, trimStart_head.
Qed.

Lemma trimEnd_no_space : forall s, allS notSpace s = true -> trimEnd s = s.
Proof.
  induction s as [|c s IH]; simpl; [reflexivity|].
  rewrite andb_true_iff. intros [Hc Hs]. rewrite (IH Hs).
  unfold notSpace in Hc. apply negb_true_iff in Hc.
  destruct s; [now rewrite Hc|reflexivity].
Qed.

Lemma trim_no_space : forall s, allS notSpace s = true -> trim s = s.
Proof.
  intros s H. unfold trim. rewrite trimStart_id.
  - now apply trimEnd_no_space.
  - destruct s as [|c s]; simpl in *; [exact I|].
    apply andb_true_iff in H. destruct H as [H _].
    now apply negb_true_iff in H.
Qed.

Lemma allS_app :
  forall (p : ascii -> bool) (a b : string),
    allS p (a ++ b) = allS p a && allS p b.
Proof.
  intros p. induction a as [|c a IH]; intros b; simpl; [reflexivity|].
  now rewrite IH, andb_assoc.
Qed.

Lemma allS_impl :
  forall (p q : ascii -> bool) (s : string),
    (forall c, p c = true -> q c = true) -> allS p s = true -> allS q s = true.
Proof.
  intros p q s H. induction s as [|c s IH]; simpl; [reflexivity|].
  rewrite !andb_true_iff. intros [H1 H2]. split; [now apply H|now apply IH].
Qed.

Lemma string_app_nil_r : forall s : string, s ++ "" = s.
Proof. induction s as [|c s IH]; simpl; [reflexivity|now rewrite IH]. Qed.

(** *** Scanning digits *)

Lemma span_app :
  forall (p : ascii -> bool) (a b : string),
    allS p a = true ->
    match b with String c _ => p c = false | EmptyString => True end ->
    span p (a ++ b) = (a, b).
Proof.
  intros p. induction a as [|c a IH]; intros b Ha Hb; simpl in *.
  - destruct b as [|d b]; [reflexivity|]. simpl. now rewrite Hb.
  - apply andb_true_iff in Ha. destruct Ha as [Hc Ha].
    rewrite Hc, (IH b Ha Hb). reflexivity.
Qed.

Lemma span_all :
  forall (p : ascii -> bool) (a : string),
    allS p a = true -> span p a = (a, EmptyString).
Proof.
  intros p a Ha. rewrite <- (string_app_nil_r a) at 1.
  now apply span_app.
Qed.

Lemma span_fst_all :
  forall (p : ascii -> bool) (s : string), allS p (fst (span p s)) = true.
Proof.
  intros p. induction s as [|c s IH]; simpl; [reflexivity|].
  destruct (p c) eqn:E; [|reflexivity].
  destruct (span p s) as [a b]. simpl in *. now rewrite E, IH.
Qed.

Lemma allS_takeS :
  forall (p : ascii -> bool) (n : nat) (s : string),
    allS p s = true -> allS p (takeS n s) = true.
Proof.
  intros p. induction n as [|n IH]; intros [|c s] H; simpl in *;
    try reflexivity.
  apply andb_true_iff in H. destruct H as [H1 H2].
  now rewrite H1, (IH s H2).
Qed.

Lemma allS_dropS :
  forall (p : ascii -> bool) (n : nat) (s : string),
    allS p s = true -> allS p (dropS n s) = true.
Proof.
  intros p. induction n as [|n IH]; intros [|c s] H; simpl in *;
    try reflexivity; try exact H.
  apply andb_true_iff in H. destruct H as [H1 H2]. now apply IH.
Qed.

Lemma allS_zeros : forall n, allS isDigit (zeros n) = true.
Proof. induction n as [|n IH]; simpl; [reflexivity|exact IH]. Qed.

Lemma shift_digits :
  forall (ip fp : string) (e : Z),
    allS isDigit ip = true -> allS isDigit fp = true ->
    allS isDigit (fst (shift ip fp e)) = true /\
    allS isDigit (snd (shift ip fp e)) = true.
Proof.
  intros ip fp e Hi Hf. unfold shift.
  destruct (0 <=? e)%Z; simpl; split.
  - rewrite allS_app, Hi. simpl. apply allS_takeS.
    now rewrite allS_app, Hf, allS_zeros.
  - now apply allS_dropS.
  - apply allS_takeS. now rewrite allS_app, allS_zeros, Hi.
  - rewrite allS_app, Hf, andb_true_r. apply allS_dropS.
    now rewrite allS_app, allS_zeros, Hi.
Qed.

(** *** Numbers in normal form *)

Lemma stripLeadingZeros_idem :
  forall s, stripLeadingZeros (stripLeadingZeros s) = stripLeadingZeros s.
Proof.
  induction s as [|c s IH]; simpl; [reflexivity|].
  destruct (isZeroChar c) eqn:E; [exact IH|]. simpl. now rewrite E.
Qed.

Lemma stripTrailingZeros_idem :
  forall s, stripTrailingZeros (stripTrailingZeros s) = stripTrailingZeros s.
Proof.
  induction s as [|c s IH]; simpl; [reflexivity|].
  destruct (stripTrailingZeros s) as [|d u] eqn:E.
  - destruct (isZeroChar c) eqn:W; simpl; [reflexivity|now rewrite W].
  - simpl in IH |- *. now rewrite IH.
Qed.

Lemma allS_stripLeadingZeros :
  forall p s, allS p s = true -> allS p (stripLeadingZeros s) = true.
Proof.
  intros p. induction s as [|c s IH]; simpl; [reflexivity|].
  intros H. destruct (isZeroChar c); [|exact H].
  apply andb_true_iff in H. now apply IH.
Qed.

Lemma allS_stripTrailingZeros :
  forall p s, allS p s = true -> allS p (stripTrailingZeros s) = true.
Proof.
  intros p. induction s as [|c s IH]; simpl; [reflexivity|].
  rewrite andb_true_iff. intros [H1 H2]. specialize (IH H2).
  destruct (stripTrailingZeros s) as [|d u].
  - destruct (isZeroChar c); simpl; [reflexivity|now rewrite H1].
  - simpl in *. now rewrite H1, IH.
Qed.

Lemma strip_normalInt :
  forall ip, stripLeadingZeros (normalInt ip) = stripLeadingZeros ip.
Proof.
  intros ip. pose proof (stripLeadingZeros_idem ip) as H. unfold normalInt.
  destruct (stripLeadingZeros ip) as [|c s]; cbn [isEmpty];
    [reflexivity|exact H].
Qed.

Lemma normalize_idem :
  forall (neg : bool) (ip fp : string),
    match normalize neg ip fp with
    | Dec n i f => normalize n i f = Dec n i f
    | _ => True
    end.
Proof.
  intros neg ip fp. unfold normalize.
  fold (normalInt ip). rewrite strip_normalInt. fold (normalInt ip).
  rewrite stripTrailingZeros_idem. f_equal.
  destruct neg, (isEmpty (stripLeadingZeros ip) && isEmpty (stripTrailingZeros fp));
    reflexivity.
Qed.

Lemma normalize_canonical :
  forall (neg : bool) (ip fp : string),
    allS isDigit ip = true -> allS isDigit fp = true ->
    canonical (normalize neg ip fp).
Proof.
  intros neg ip fp Hi Hf.
  pose proof (normalize_idem neg ip fp) as H.
  unfold normalize in *. cbn [canonical]. refine (conj _ (conj _ H)).
  - destruct (isEmpty (stripLeadingZeros ip)); [reflexivity|].
    now apply allS_stripLeadingZeros.
  - now apply allS_stripTrailingZeros.
Qed.

Lemma strDecimalLiteral_canonical :
  forall neg s2, canonical (strDecimalLiteral neg s2).
Proof.
  intros neg s2. unfold strDecimalLiteral.
  destruct (prefix "Infinity" s2); [exact I|].
  pose proof (span_fst_all isDigit s2) as Hi.
  destruct (span isDigit s2) as [ip r1]. simpl in Hi.
  assert (Hfp : allS isDigit (fst (readFraction r1)) = true).
  { unfold readFraction. destruct r1 as [|c r]; [reflexivity|].
    destruct (Ascii.eqb c "."); [apply span_fst_all|reflexivity]. }
  destruct (readFraction r1) as [fp r2]. simpl in Hfp.
  destruct (isEmpty ip && isEmpty fp); [exact I|].
  destruct (shift_digits ip fp (readExponent r2) Hi Hfp) as [H1 H2].
  destruct (shift ip fp (readExponent r2)) as [ip' fp'].
  now apply normalize_canonical.
Qed.

Lemma parseFloat_canonical : forall s, canonical (parseFloat s).
Proof.
  intros s. unfold parseFloat.
  destruct (readSign (trimStart s)) as [neg s2].
  apply strDecimalLiteral_canonical.
Qed.

Lemma digit_not_space : forall c, isDigit c = true -> isWhiteSpace c = false.
Proof.
  intros c H. unfold isWhiteSpace, isDigit in *.
  apply andb_true_iff in H. destruct H as [H1 H2].
  apply Nat.leb_le in H1, H2.
  rewrite !orb_false_iff, andb_false_iff, !Nat.leb_gt, !Nat.eqb_neq. lia.
Qed.

Lemma digit_not (c d : ascii) :
  isDigit c = true -> isDigit d = false -> Ascii.eqb c d = false.
Proof.
  intros Hc Hd. destruct (Ascii.eqb c d) eqn:E; [|reflexivity].
  apply Ascii.eqb_eq in E. subst. congruence.
Qed.

(** The literal reader on integer digits followed by the fraction text. *)
Lemma strDecimalLiteral_digits :
  forall (neg : bool) (c : ascii) (ip0 fp : string),
    allS isDigit (String c ip0) = true -> allS isDigit fp = true ->
    strDecimalLiteral neg (String c ip0 ++ fracText fp)
    = normalize neg (String c ip0) fp.
Proof.
  intros neg c ip0 fp Hi Hf. unfold strDecimalLiteral.
  pose proof Hi as Hc. simpl in Hc. apply andb_true_iff in Hc.
  destruct Hc as [Hc _].
  replace (prefix "Infinity" (String c ip0 ++ fracText fp)) with false.
  2:{ change (String c ip0 ++ fracText fp) with (String c (ip0 ++ fracText fp)).
      cbn [prefix].
      destruct (ascii_dec "I" c) as [<-|]; [discriminate|reflexivity]. }
  rewrite (span_app isDigit (String c ip0) (fracText fp) Hi).
  2:{ unfold fracText. destruct fp; simpl; [exact I|reflexivity]. }
  replace (readFraction (fracText fp)) with (fp, EmptyString).
  2:{ unfold fracText, readFraction. destruct fp as [|d fp0]; [reflexivity|].
      cbn [isEmpty append]. rewrite Ascii.eqb_refl. symmetry. now apply span_all. }
  cbn [isEmpty andb readExponent]. unfold shift. cbn.
  now rewrite string_app_nil_r.
Qed.

Lemma canonical_int_nonempty :
  forall neg ip fp, canonical (Dec neg ip fp) -> exists c ip0, ip = String c ip0.
Proof.
  intros neg ip fp (_ & _ & Hn).
  destruct ip as [|c ip0]; [|now exists c, ip0].
  unfold normalize in Hn. simpl in Hn. inversion Hn.
Qed.

(** Reading back the text of a canonical number gives the number. *)
Lemma parseFloat_numberToString :
  forall n, canonical n -> parseFloat (numberToString n) = n.
Proof.
  intros [|[|]|neg ip fp]; try reflexivity.
  intros Hcan. destruct (canonical_int_nonempty _ _ _ Hcan) as (c & ip0 & ->).
  destruct Hcan as (Hi & Hf & Hn).
  pose proof Hi as Hc. simpl in Hc. apply andb_true_iff in Hc.
  destruct Hc as [Hc _].
  rewrite <- Hn at 2.
  rewrite <- (strDecimalLiteral_digits neg c ip0 fp Hi Hf).
  cbn [numberToString].
  unfold parseFloat. destruct neg.
  - reflexivity.
  - cbn [append trimStart]. rewrite (digit_not_space c Hc).
    unfold readSign.
    now rewrite (digit_not c "-" Hc eq_refl), (digit_not c "+" Hc eq_refl).
Qed.

Lemma numberToString_no_space :
  forall n, canonical n -> allS notSpace (numberToString n) = true.
Proof.
  intros [|[|]|neg ip fp]; try reflexivity.
  intros (Hi & Hf & _). cbn [numberToString].
  assert (Hd : forall s, allS isDigit s = true -> allS notSpace s = true).
  { intros s. apply allS_impl. intros c Hc. unfold notSpace.
    now rewrite (digit_not_space c Hc). }
  rewrite !allS_app, (Hd ip Hi).
  replace (allS notSpace (fracText fp)) with true.
  - destruct neg; reflexivity.
  - unfold fracText. destruct fp as [|d fp0]; [reflexivity|].
    cbn [isEmpty]. rewrite allS_app, (Hd _ Hf). reflexivity.
Qed.

(** *** The JSON recogniser under an enclosing array *)

(** Case analysis on the first conditional in sight. *)
Ltac break_if :=
  match goal with
  | |- context [if ?b then _ else _] => destruct b eqn:?
  | H : context [if ?b then _ else _] |- _ => destruct b eqn:?
  end.

Lemma startValue_frame :
  forall c stk extra m' stk',
    startValue c stk = Some (m', stk') ->
    startValue c (stk ++ extra)%list = Some (m', (stk' ++ extra)%list).
Proof.
  intros c stk extra m' stk'. unfold startValue.
  repeat break_if; intros H; inversion H; subst; reflexivity.
Qed.

Lemma afterValue_frame :
  forall c stk extra m' stk',
    afterValue c stk = Some (m', stk') ->
    afterValue c (stk ++ extra)%list = Some (m', (stk' ++ extra)%list).
Proof.
  intros c stk extra m' stk'. unfold afterValue.
  repeat break_if; destruct stk as [|[] stk]; intros H; inversion H; subst;
    reflexivity.
Qed.

Lemma jstep_frame :
  forall m c stk extra m' stk',
    jstep m stk c = Some (m', stk') ->
    jstep m (stk ++ extra)%list c = Some (m', (stk' ++ extra)%list).
Proof.
  intros m c stk extra m' stk' H.
  destruct m; cbn [jstep] in *;
    repeat break_if;
    try (apply startValue_frame; assumption);
    try (apply afterValue_frame; assumption);
    try (inversion H; subst; reflexivity);
    try (destruct stk as [|[] stk]; inversion H; subst; reflexivity).
  all: try (destruct n; inversion H; subst; reflexivity).
  all: try (destruct rest; [discriminate|]; repeat break_if; inversion H; subst; reflexivity).
Qed.

Lemma jrun_close_array :
  forall s m stk,
    jrun m stk s = true -> jrun m (stk ++ [CArr])%list (s ++ "]") = true.
Proof.
  induction s as [|c r IH]; intros m stk H.
  - simpl in H. apply andb_true_iff in H. destruct H as [Hm Hs].
    destruct stk; [|discriminate].
    destruct m; try discriminate; reflexivity.
  - simpl in H. destruct (jstep m stk c) as [[m' stk']|] eqn:E; [|discriminate].
    cbn [append jrun]. rewrite (jstep_frame _ _ _ [CArr] _ _ E). now apply IH.
Qed.

Lemma jrun_value_or_close :
  forall s stk, jrun MValue stk s = true -> jrun MValueOrClose stk s = true.
Proof.
  induction s as [|c r IH]; intros stk H; [discriminate|].
  cbn [jrun jstep] in *. destruct (jws c); [now apply IH|].
  destruct (Ascii.eqb c "]") eqn:E; [|exact H].
  apply Ascii.eqb_eq in E. subst c. discriminate.
Qed.

Lemma JSON_parse_wrap :
  forall s b, JSON_parse s = Some b -> JSON_parse ("[" ++ s ++ "]") = Some true.
Proof.
  intros s b H. unfold JSON_parse in *.
  destruct (jrun MValue [] s) eqn:E; [|discriminate].
  apply jrun_close_array in E. apply jrun_value_or_close in E.
  cbn [append jrun jstep]. replace (jws "[") with false by reflexivity.
  cbn. cbn in E. now rewrite E.
Qed.

Lemma string_app_assoc :
  forall a b c : string, (a ++ b) ++ c = a ++ (b ++ c).
Proof.
  induction a as [|x a IH]; intros b c; simpl; [reflexivity|now rewrite IH].
Qed.

Lemma jrun_string :
  forall t stk rest,
    allS plainChar t = true ->
    jrun (MStr false) stk (t ++ DQ ++ rest) = jrun MAfter stk rest.
Proof.
  induction t as [|c t IH]; intros stk rest H.
  - reflexivity.
  - simpl in H. apply andb_true_iff in H. destruct H as [Hc Ht].
    unfold plainChar in Hc. rewrite !andb_true_iff, !negb_true_iff in Hc.
    destruct Hc as [[[H32 Hq] Hb] _].
    cbn [append jrun jstep]. rewrite Hq, Hb.
    apply Nat.leb_le in H32.
    replace (nat_of_ascii c <? 32) with false
      by (symmetry; apply Nat.ltb_ge; exact H32).
    now apply IH.
Qed.

Lemma jrun_elements :
  forall ts t,
    Forall (fun s => allS plainChar s = true) (t :: ts) ->
    jrun MValue [CArr] (join "," (map quoted (t :: ts)) ++ "]") = true.
Proof.
  induction ts as [|t2 ts IH]; intros t H; inversion H as [|? ? Ht Hts]; subst.
  - cbn [map join String.concat]. unfold quoted, DQ.
    cbn [append jrun jstep]. replace (jws dquote) with false by reflexivity.
    unfold startValue. replace (Ascii.eqb dquote "{") with false by reflexivity.
    replace (Ascii.eqb dquote "[") with false by reflexivity.
    rewrite Ascii.eqb_refl.
    rewrite string_app_assoc. fold DQ.
    rewrite (jrun_string t [CArr] "]" Ht). reflexivity.
  - cbn [map join String.concat]. unfold quoted at 1. unfold DQ at 1.
    cbn [append jrun jstep]. replace (jws dquote) with false by reflexivity.
    unfold startValue. replace (Ascii.eqb dquote "{") with false by reflexivity.
    replace (Ascii.eqb dquote "[") with false by reflexivity.
    rewrite Ascii.eqb_refl.
    rewrite !string_app_assoc.
    rewrite (jrun_string t [CArr] _ Ht).
    cbn [append jrun jstep afterValue].
    replace (jws ",") with false by reflexivity.
    replace (Ascii.eqb "," ",") with true by reflexivity.
    apply (IH t2 Hts).
Qed.

Lemma trimEnd_app_last :
  forall (a : string) (c : ascii),
    isWhiteSpace c = false ->
    trimEnd (a ++ String c "") = a ++ String c "".
Proof.
  induction a as [|x a IH]; intros c Hc; simpl.
  - now rewrite Hc.
  - rewrite (IH c Hc). destruct a; reflexivity.
Qed.

Lemma trim_bracketed :
  forall s, trim ("[" ++ s ++ "]") = "[" ++ s ++ "]".
Proof.
  intros s. unfold trim. rewrite trimStart_id by reflexivity.
  change ("[" ++ s ++ "]") with (("[" ++ s) ++ "]") at 1.
  rewrite <- string_app_assoc. now apply trimEnd_app_last.
Qed.

Lemma replaceAll_app :
  forall c by_ a b,
    replaceAll c by_ (a ++ b) = replaceAll c by_ a ++ replaceAll c by_ b.
Proof.
  intros c by_. induction a as [|x a IH]; intros b; simpl; [reflexivity|].
  destruct (Ascii.eqb x c); rewrite IH; [now rewrite string_app_assoc|reflexivity].
Qed.

Lemma replaceAll_none :
  forall by_ s, allS notApostrophe s = true -> replaceAll "'" by_ s = s.
Proof.
  intros by_. induction s as [|x s IH]; simpl; [reflexivity|].
  rewrite andb_true_iff. intros [Hx Hs]. unfold notApostrophe in Hx.
  apply negb_true_iff in Hx. now rewrite Hx, IH.
Qed.

Lemma allS_trimStart :
  forall p s, allS p s = true -> allS p (trimStart s) = true.
Proof.
  intros p. induction s as [|c s IH]; simpl; [reflexivity|].
  intros H. destruct (isWhiteSpace c); [|exact H].
  apply andb_true_iff in H. now apply IH.
Qed.

Lemma allS_trimEnd :
  forall p s, allS p s = true -> allS p (trimEnd s) = true.
Proof.
  intros p. induction s as [|c s IH]; simpl; [reflexivity|].
  rewrite andb_true_iff. intros [H1 H2]. specialize (IH H2).
  destruct (trimEnd s) as [|d u].
  - destruct (isWhiteSpace c); simpl; [reflexivity|now rewrite H1].
  - simpl in *. now rewrite H1, IH.
Qed.

Lemma allS_trim : forall p s, allS p s = true -> allS p (trim s) = true.
Proof. intros p s H. now apply allS_trimEnd, allS_trimStart. Qed.

Lemma split_cons : forall sep s, exists h t, split sep s = h :: t.
Proof.
  intros sep. induction s as [|c s IH]; simpl; [now eexists; eexists|].
  destruct (Ascii.eqb c sep); [now eexists; eexists|].
  destruct IH as (h & t & ->). now eexists; eexists.
Qed.

Lemma allS_split :
  forall p sep s,
    allS p s = true -> Forall (fun x => allS p x = true) (split sep s).
Proof.
  intros p sep. induction s as [|c s IH]; simpl; intros H.
  - now constructor.
  - apply andb_true_iff in H. destruct H as [Hc Hs]. specialize (IH Hs).
    destruct (Ascii.eqb c sep); [now constructor|].
    destruct (split sep s) as [|h t]; [constructor; [simpl; now rewrite Hc|constructor]|].
    inversion IH; subst. constructor; [simpl; now rewrite Hc|assumption].
Qed.

Lemma allS_join :
  forall p sep l,
    allS p sep = true -> Forall (fun x => allS p x = true) l ->
    allS p (join sep l) = true.
Proof.
  intros p sep l Hsep. unfold join. induction l as [|x l IH]; intros H.
  - reflexivity.
  - inversion H as [|? ? Hx Hl]; subst. specialize (IH Hl).
    destruct l as [|y l]; [exact Hx|].
    cbn [String.concat]. cbn [String.concat] in IH.
    now rewrite !allS_app, Hx, Hsep, IH.
Qed.

Lemma plain_not_apostrophe :
  forall s, allS plainChar s = true -> allS notApostrophe s = true.
Proof.
  intros s. apply allS_impl. intros c H. unfold plainChar in H.
  rewrite !andb_true_iff in H. destruct H as [_ H]. exact H.
Qed.

(** The text that the comma fallback builds is a JSON array of strings when
    the text it splits has only plain characters. *)
Lemma fallback_parses :
  forall s,
    allS plainChar s = true ->
    let r := "[" ++ join "," (map (fun x => quoted (trim x)) (split "," s)) ++ "]" in
    JSON_parse (replaceAll "'" DQ r) = Some true.
Proof.
  intros s Hs r.
  assert (Htok : Forall (fun x => allS plainChar x = true)
                        (map trim (split "," s))).
  { apply Forall_map. eapply Forall_impl; [|apply (allS_split plainChar "," s Hs)].
    intros x Hx. now apply allS_trim. }
  assert (Hr : r = "[" ++ join "," (map quoted (map trim (split "," s))) ++ "]").
  { unfold r. now rewrite map_map. }
  rewrite replaceAll_none.
  - rewrite Hr. destruct (split_cons "," s) as (h & t & E). rewrite E in *.
    cbn [map] in *. unfold JSON_parse.
    cbn [append jrun jstep firstSignificant].
    replace (jws "[") with false by reflexivity.
    change (startValue "[" []) with (Some (MValueOrClose, [CArr])).
    cbv iota beta.
    rewrite jrun_value_or_close; [reflexivity|].
    apply (jrun_elements (map trim t) (trim h) Htok).
  - rewrite Hr. rewrite !allS_app. cbn [allS]. 
    rewrite allS_join; [reflexivity|reflexivity|].
    apply Forall_map. eapply Forall_impl; [|exact Htok].
    intros x Hx. unfold quoted. rewrite !allS_app.
    now rewrite (plain_not_apostrophe x Hx).
Qed.

Lemma isEmpty_eq : forall s, isEmpty s = true -> s = "".
Proof. intros [|c s]; [reflexivity|discriminate]. Qed.

Lemma cleanValue_blank_text :
  forall column, cleanValue (VStr "") column = VStr "".
Proof. reflexivity. Qed.

Lemma JSON_parse_nonempty :
  forall s b, JSON_parse s = Some b -> isEmpty s = false.
Proof. intros [|c s] b H; [discriminate|reflexivity]. Qed.

Lemma replaceAll_nonempty :
  forall s b, JSON_parse (replaceAll "'" DQ s) = Some b -> isEmpty s = false.
Proof. intros [|c s] b H; [discriminate|reflexivity]. Qed.

(** *** Idempotence *)

(** The normalizer on a value that is not blank. *)
Lemma cleanValue_unfold :
  forall (v : value) (column : ColumnSchema),
    isBlank v = false ->
    cleanValue v column
    = let s := trim (toString v) in
      match cs_type column with
      | TNumber =>
          if isNaN (parseFloat s)
          then (if cs_required column then VNum (numOfNat 0) else VStr "")
          else VNum (parseFloat s)
      | TBoolean =>
          match boolMap (toLowerCase s) with
          | Some b => b
          | None => VBool false
          end
      | TJson =>
          match JSON_parse s with
          | Some _ => VStr s
          | None => VStr "{}"
          end
      | TArray =>
          match JSON_parse (replaceAll "'" DQ s) with
          | Some true => VStr s
          | Some false => VStr ("[" ++ s ++ "]")
          | None =>
              if includes s ","
              then VStr ("[" ++ join ","
                           (map (fun x => quoted (trim x)) (split "," s))
                         ++ "]")
              else VStr s
          end
      | _ => VStr s
      end.
Proof.
  intros v column Hb. unfold cleanValue. rewrite Hb. reflexivity.
Qed.

(** On a column of any other type a trimmed text is its own normal form. *)
Lemma cleanValue_text :
  forall (t : string) (column : ColumnSchema),
    trim t = t ->
    match cs_type column with
    | TNumber | TBoolean | TJson | TArray => False
    | _ => True
    end ->
    cleanValue (VStr t) column = VStr t.
Proof.
  intros t column Ht Hty. destruct (isEmpty t) eqn:He.
  - apply isEmpty_eq in He. now subst.
  - rewrite cleanValue_unfold by exact He. cbn [toString]. rewrite Ht.
    destruct (cs_type column); try reflexivity; contradiction.
Qed.

(** C6 (amended): normalizing the output of the normalizer again gives the
    same value, for every value and column, except possibly on an array
    column for a text that takes the comma fallback and holds an
    apostrophe, a double quote, a backslash or a control character, and on a
    boolean column for the two texts [constructor] and [__proto__]. *)
Theorem C6_cleanValue_idempotent :
  forall (v : value) (column : ColumnSchema),
    stableInput v column ->
    cleanValue (cleanValue v column) column = cleanValue v column.
Proof.
  intros v column Hst.
  destruct (isBlank v) eqn:Hb.
  { replace (cleanValue v column) with (VStr "")
      by (unfold cleanValue; now rewrite Hb).
    reflexivity. }
  unfold stableInput in Hst.
  rewrite (cleanValue_unfold v column Hb).
  set (s := trim (toString v)) in *. cbv zeta.
  assert (Hs : trim s = s) by apply trim_idem.
  destruct (cs_type column) eqn:Et;
    try (apply cleanValue_text; [exact Hs|now rewrite Et]).
  - (* number *)
    pose proof (parseFloat_canonical s) as Hcan.
    destruct (isNaN (parseFloat s)) eqn:Hn.
    + destruct (cs_required column) eqn:Hr; [|reflexivity].
      rewrite cleanValue_unfold by reflexivity. now rewrite Et, Hr.
    + rewrite cleanValue_unfold by reflexivity. cbn [toString]. rewrite Et.
      rewrite (trim_no_space _ (numberToString_no_space _ Hcan)).
      rewrite (parseFloat_numberToString _ Hcan). now rewrite Hn.
  - (* boolean *)
    destruct Hst as [H1 H2]. unfold boolMap.
    destruct (inStrings ["true"; "1"; "yes"; "y"] (toLowerCase s)).
    { rewrite cleanValue_unfold by reflexivity. now rewrite Et. }
    destruct (inStrings ["false"; "0"; "no"; "n"] (toLowerCase s)).
    { rewrite cleanValue_unfold by reflexivity. now rewrite Et. }
    destruct (String.eqb_spec (toLowerCase s) "constructor"); [contradiction|].
    destruct (String.eqb_spec (toLowerCase s) "__proto__"); [contradiction|].
    rewrite cleanValue_unfold by reflexivity. now rewrite Et.
  - (* json *)
    destruct (JSON_parse s) as [b|] eqn:Ej.
    + rewrite cleanValue_unfold by exact (JSON_parse_nonempty s b Ej).
      cbn [toString]. now rewrite Et, Hs, Ej.
    + rewrite cleanValue_unfold by reflexivity. now rewrite Et.
  - (* array *)
    destruct (JSON_parse (replaceAll "'" DQ s)) as [[|]|] eqn:Ej.
    + rewrite cleanValue_unfold by exact (replaceAll_nonempty s _ Ej).
      cbn [toString]. now rewrite Et, Hs, Ej.
    + rewrite cleanValue_unfold by reflexivity.
      cbn [toString]. rewrite Et, trim_bracketed. cbv zeta.
      rewrite replaceAll_app, replaceAll_app.
      change (replaceAll "'" DQ "[") with "[".
      change (replaceAll "'" DQ "]") with "]".
      now rewrite (JSON_parse_wrap _ _ Ej).
    + destruct (includes s ",") eqn:Ec.
      * specialize (Hst eq_refl eq_refl).
        rewrite cleanValue_unfold by reflexivity.
        cbn [toString]. rewrite Et, trim_bracketed. cbv zeta.
        now rewrite (fallback_parses s Hst).
      * destruct (isEmpty s) eqn:He.
        -- apply isEmpty_eq in He. rewrite He. reflexivity.
        -- rewrite cleanValue_unfold by exact He.
           cbn [toString]. now rewrite Et, Hs, Ej, Ec.
Qed.

(** On an array column the text [a, b] goes through the comma fallback, is
    made of plain characters, and its normal form is stable. *)
Lemma C6_idempotent_witness :
  cleanValue (VStr "a, b") (mkColumn "c" TArray None)
    = VStr ("[" ++ DQ ++ "a" ++ DQ ++ "," ++ DQ ++ "b" ++ DQ ++ "]") /\
  cleanValue (cleanValue (VStr "a, b") (mkColumn "c" TArray None)) (mkColumn "c" TArray None)
    = cleanValue (VStr "a, b") (mkColumn "c" TArray None).
Proof.
  split; [reflexivity|].
  exact (C6_cleanValue_idempotent (VStr "a, b") (mkColumn "c" TArray None)
           (fun _ _ => eq_refl)).
Defined.

(** C6 fails as stated.  On an array column the text [a'b,c] is split at the
    comma into two quoted pieces; normalizing the result again turns the
    apostrophe into a double quote, fails to parse, and splits and quotes
    the already quoted pieces.  On a boolean column the text [constructor]
    is mapped to the constructor function that the lookup object inherits,
    and that function is mapped to false. *)
Lemma C6_counterexample_not_idempotent :
  cleanValue (VStr "a'b,c") (mkColumn "c" TArray None)
    = VStr ("[" ++ DQ ++ "a'b" ++ DQ ++ "," ++ DQ ++ "c" ++ DQ ++ "]") /\
  cleanValue (cleanValue (VStr "a'b,c") (mkColumn "c" TArray None)) (mkColumn "c" TArray None)
    = VStr ("[" ++ DQ ++ "[" ++ DQ ++ "a'b" ++ DQ ++ DQ ++ ","
            ++ DQ ++ DQ ++ "c" ++ DQ ++ "]" ++ DQ ++ "]") /\
  cleanValue (cleanValue (VStr "a'b,c") (mkColumn "c" TArray None)) (mkColumn "c" TArray None)
    <> cleanValue (VStr "a'b,c") (mkColumn "c" TArray None) /\
  cleanValue (VStr "constructor") (mkColumn "c" TBoolean None)
    = VObject "function Object() { [native code] }" /\
  cleanValue (cleanValue (VStr "constructor") (mkColumn "c" TBoolean None))
             (mkColumn "c" TBoolean None)
    = VBool false.
Proof.
  refine (conj _ (conj _ (conj _ (conj _ _)))); try reflexivity.
  vm_compute. discriminate.
Qed.

(* ================================================================== *)
(** * Further properties *)
(* ================================================================== *)

(** ** The check of a row *)

Lemma prefix_app : forall p s : string, prefix p (p ++ s) = true.
Proof.
  induction p as [|c p IH]; intros s; cbn.
  - destruct s; reflexivity.
  - destruct (ascii_dec c c); [apply IH | congruence].
Qed.

Lemma startsWith_app : forall p s : string, startsWith (p ++ s) p = true.
Proof. intros; apply prefix_app. Qed.

Lemma validateColumnType_shape :
  forall v column index tableName e,
    validateColumnType v column index tableName = Some e ->
    ve_row e = index /\ ve_severity e = error /\ ve_column e = cs_name column /\
    ve_type e = "type_mismatch" /\
    ve_id e = tableName ++ "-" ++ natToString index ++ "-" ++ cs_name column ++ "-type" /\
    (cs_type column = TNumber \/ cs_type column = TEmail).
Proof.
  intros v column index tableName e H. unfold validateColumnType in H.
  destruct (cs_type column);
    try discriminate;
    match type of H with (if ?b then _ else _) = _ => destruct b end;
    inversion H; subst; cbn;
    rewrite ?string_app_assoc; cbn; rewrite ?string_app_assoc; auto 10.
Qed.

Lemma validateRow_findings :
  forall row index tableName schema e,
    In e (validateRowAgainstSchema row index tableName schema) ->
    rowFinding index tableName schema e.
Proof.
  intros row index tableName schema e H. unfold validateRowAgainstSchema in H.
  apply in_flat_map in H. destruct H as [column [Hc H]].
  assert (Hn : In (cs_name column) (map cs_name (ts_columns schema)))
    by (apply in_map; exact Hc).
  apply in_app_or in H. destruct H as [H | H].
  - destruct (cs_required column && isMissing (getField row (cs_name column)));
      [|contradiction].
    destruct H as [<- | []]. unfold rowFinding; cbn [ve_row ve_severity ve_column ve_id ve_type].
    repeat split; auto.
    match goal with
    | |- startsWith ?id ?p = true =>
        replace id with (p ++ (cs_name column ++ "-required"));
        [apply startsWith_app | rewrite !string_app_assoc; reflexivity]
    end.
  - destruct (negb (isMissing (getField row (cs_name column)))); [|contradiction].
    destruct (validateColumnType _ _ _ _) eqn:E; [|contradiction].
    destruct H as [<- | []].
    apply validateColumnType_shape in E.
    destruct E as (E1 & E2 & E3 & E4 & E5 & _).
    unfold rowFinding. rewrite E1, E2, E3, E4, E5. repeat split; auto.
    replace (tableName ++ "-" ++ natToString index ++ "-" ++ cs_name column ++ "-type")
      with ((tableName ++ "-" ++ natToString index ++ "-") ++ (cs_name column ++ "-type")).
    + apply startsWith_app.
    + rewrite !string_app_assoc. reflexivity.
Qed.

Lemma flat_map_length_le :
  forall (A B : Type) (f : A -> list B) (l : list A) (k : nat),
    (forall x, In x l -> List.length (f x) <= k) ->
    List.length (flat_map f l) <= k * List.length l.
Proof.
  intros A B f l k H. induction l as [|x l IH]; cbn.
  - lia.
  - rewrite length_app.
    assert (List.length (f x) <= k) by (apply H; left; reflexivity).
    assert (List.length (flat_map f l) <= k * List.length l)
      by (apply IH; intros y Hy; apply H; right; exact Hy).
    lia.
Qed.

(** X1: The check of a row reports at most one finding per column.  Each
    finding carries the index of the row, the severity error, the name of a
    column of the schema, a type that is missing_required or type_mismatch,
    and an id that starts with the table name, the index and their
    dashes. *)
Theorem X1_row_findings :
  forall (row : DataRow) (index : nat) (tableName : string) (schema : TableSchema),
    List.length (validateRowAgainstSchema row index tableName schema)
      <= List.length (ts_columns schema) /\
    forall e, In e (validateRowAgainstSchema row index tableName schema) ->
      rowFinding index tableName schema e.
Proof.
  intros row index tableName schema. split.
  - unfold validateRowAgainstSchema.
    rewrite <- (Nat.mul_1_l (List.length (ts_columns schema))).
    apply flat_map_length_le. intros column _.
    rewrite length_app.
    destruct (isMissing (getField row (cs_name column))); cbn.
    + destruct (cs_required column); cbn; lia.
    + rewrite andb_false_r. cbn.
      destruct (validateColumnType _ _ _ _); cbn; lia.
  - apply validateRow_findings.
Qed.

Lemma X1_bad_email_witness :
  In badEmailFinding
     (validateRowAgainstSchema [("ClientID", VStr "C2"); ("Email", VStr "bad")]
                               1 "clients" clientsSchema) /\
  rowFinding 1 "clients" clientsSchema badEmailFinding.
Proof.
  assert (H : In badEmailFinding
                 (validateRowAgainstSchema
                    [("ClientID", VStr "C2"); ("Email", VStr "bad")]
                    1 "clients" clientsSchema))
    by (vm_compute; auto).
  exact (conj H (proj2 (X1_row_findings _ _ _ _) _ H)).
Defined.

(** ** A column without values *)

Lemma isBlank_isMissing : forall v, isBlank v = true -> isMissing v = true.
Proof.
  intros [| |b|n|s|t] H; try discriminate; try reflexivity.
  cbn in H. unfold isMissing. cbn. rewrite H. reflexivity.
Qed.

Lemma filter_nil_all :
  forall (A : Type) (p : A -> bool) (l : list A),
    (forall x, In x l -> p x = false) -> filter p l = [].
Proof.
  intros A p l H. induction l as [|x l IH]; [reflexivity|].
  cbn. rewrite (H x (or_introl eq_refl)). apply IH.
  intros y Hy. apply H. now right.
Qed.

Lemma filter_all :
  forall (A : Type) (p : A -> bool) (l : list A),
    (forall x, In x l -> p x = true) -> filter p l = l.
Proof.
  intros A p l H. induction l as [|x l IH]; [reflexivity|].
  cbn. rewrite (H x (or_introl eq_refl)). f_equal. apply IH.
  intros y Hy. apply H. now right.
Qed.

(** X2: A column in which every cell is null, undefined or the empty string
    is detected as a string column that is neither required nor unique, with
    no validation and with confidence zero. *)
Theorem X2_blank_column :
  forall (h : Host) (name : string) (data : list DataRow),
    (forall row, In row data -> isBlank (getField row name) = true) ->
    let column := detectColumnSchema h name data in
    cs_type column = TString /\ cs_required column = false /\
    cs_unique column = false /\ cs_validation column = None /\
    exists q : Q, cs_confidence column = SNum q /\ (q == 0)%Q.
Proof.
  intros h name data H.
  assert (Hv : columnValues name data = []).
  { unfold columnValues. apply filter_nil_all. intros v Hv.
    apply in_map_iff in Hv. destruct Hv as [row [<- Hr]].
    now rewrite (H row Hr). }
  assert (Hc : count (fun row => isMissing (getField row name)) data
               = List.length data).
  { unfold count. rewrite filter_all; [reflexivity|].
    intros row Hr. apply isBlank_isMissing, H, Hr. }
  assert (Hr : belowTenth (List.length data) (List.length data) = false).
  { destruct (belowTenth _ _) eqn:E; [|reflexivity].
    apply belowTenth_spec in E. lia. }
  assert (Hb : bestType (computeScores h (toLowerCase name) []) = TString)
    by reflexivity.
  unfold detectColumnSchema. cbv zeta.
  unfold typeScoresOf, samplesOf. rewrite Hv, Hc, Hr.
  cbn [List.length Nat.min firstn dedup cs_type cs_required cs_unique
       cs_validation cs_confidence].
  rewrite Hb. do 3 (split; [reflexivity|]).
  split.
  { unfold detectValidation. cbn. rewrite andb_false_r. reflexivity. }
  exists (0 * (1 # 100))%Q. split; reflexivity.
Qed.

Lemma X2_blank_notes_witness :
  (forall row, In row blankNotes -> isBlank (getField row "Notes") = true) /\
  cs_type (detectColumnSchema hostRejectingAll "Notes" blankNotes) = TString.
Proof.
  assert (H : forall row, In row blankNotes -> isBlank (getField row "Notes") = true).
  { intros row [<-|[<-|[<-|[]]]]; reflexivity. }
  exact (conj H (proj1 (X2_blank_column hostRejectingAll "Notes" blankNotes H))).
Defined.

(** ** The confidence of a column *)

Lemma count_le : forall (A : Type) (p : A -> bool) (l : list A), count p l <= List.length l.
Proof. intros. unfold count. apply filter_length_le. Qed.

Lemma ofNat_nonneg : forall n, (0 <= ofNat n)%Q.
Proof.
  intros n. unfold ofNat. rewrite <- (Zle_Qle 0). lia.
Qed.

Lemma ofNat_le : forall m n, m <= n -> (ofNat m <= ofNat n)%Q.
Proof. intros m n H. unfold ofNat. rewrite <- Zle_Qle. lia. Qed.

Lemma ofNat_pos : forall n, (0 < ofNat (S n))%Q.
Proof. intros n. unfold ofNat. rewrite <- (Zlt_Qlt 0). lia. Qed.

Lemma sdiv_range :
  forall m n, m <= S n ->
    exists q, sdiv m (S n) = SNum q /\ (0 <= q)%Q /\ (q <= 1)%Q.
Proof.
  intros m n H. exists (ofNat m / ofNat (S n))%Q. split; [reflexivity|]. split.
  - apply Qle_shift_div_l; [apply ofNat_pos|]. rewrite Qmult_0_l. apply ofNat_nonneg.
  - apply Qle_shift_div_r; [apply ofNat_pos|]. rewrite Qmult_1_l. now apply ofNat_le.
Qed.

Lemma ratio_times :
  forall (p : value -> bool) (v : value) (samples : list value) (k : Q),
    (0 <= k)%Q ->
    exists q,
      smul (sdiv (count p (v :: samples)) (List.length (v :: samples))) k = SNum q /\
      (0 <= q)%Q /\ (q <= k)%Q.
Proof.
  intros p v samples k Hk.
  destruct (sdiv_range (count p (v :: samples)) (List.length samples)) as (q & E & H0 & H1).
  { apply (count_le _ p (v :: samples)). }
  cbn [List.length]. rewrite E. exists (q * k)%Q. split; [reflexivity|]. split.
  - now apply Qmult_le_0_compat.
  - rewrite <- (Qmult_1_l k) at 2. now apply Qmult_le_compat_r.
Qed.

Lemma computeScores_range :
  forall (h : Host) (lowerName : string) (v : value) (samples : list value)
         (t : ColType),
    exists q, scoreOf (computeScores h lowerName (v :: samples)) t = SNum q /\
              (0 <= q)%Q /\ (q <= 100)%Q.
Proof.
  intros h lowerName v samples t.
  destruct t; cbn [scoreOf computeScores sc_id sc_number sc_boolean sc_date
                   sc_email sc_url sc_json sc_array sc_string];
    try (apply ratio_times; discriminate).
  - match goal with
    | |- context [smul (sdiv (count ?p _) _) _] =>
        destruct (ratio_times p v samples 30) as (q & E & H0 & H1); [discriminate|]
    end.
    rewrite E. cbn [sadd].
    match goal with |- context [SNum (?a + q)] => exists (a + q)%Q end.
    split; [reflexivity|].
    destruct (includes lowerName "id" || includes lowerName "key"); split.
    + apply (Qle_trans _ (50 + 0)); [discriminate|]. now apply Qplus_le_r.
    + apply (Qle_trans _ (50 + 30)); [|discriminate]. now apply Qplus_le_r.
    + apply (Qle_trans _ (0 + 0)); [discriminate|]. now apply Qplus_le_r.
    + apply (Qle_trans _ (0 + 30)); [|discriminate]. now apply Qplus_le_r.
  - exists 0%Q. repeat split; discriminate.
Qed.

(** X3: The confidence of a detected column is always a number between
    zero and one, whatever the cells and the host functions. *)
Theorem X3_confidence_range :
  forall (h : Host) (name : string) (data : list DataRow),
    exists q : Q,
      cs_confidence (detectColumnSchema h name data) = SNum q /\
      (0 <= q)%Q /\ (q <= 1)%Q.
Proof.
  intros h name data. unfold detectColumnSchema. cbv zeta. cbn [cs_confidence].
  unfold typeScoresOf.
  destruct (samplesOf name data) as [|v samples].
  - exists (0 * (1 # 100))%Q. repeat split; discriminate.
  - destruct (computeScores_range h (toLowerCase name) v samples
                (bestType (computeScores h (toLowerCase name) (v :: samples))))
      as (q & E & H0 & H1).
    rewrite E. exists (q * (1 # 100))%Q. split; [reflexivity|]. split.
    + apply Qmult_le_0_compat; [exact H0|discriminate].
    + apply (Qle_trans _ (100 * (1 # 100))); [|discriminate].
      apply Qmult_le_compat_r; [exact H1|discriminate].
Qed.

(** ** The unique flag *)

Lemma In_dedup : forall l v, In v (dedup l) <-> In v l.
Proof.
  induction l as [|w l IH]; intros v; cbn [dedup]; [tauto|].
  cbn [In]. rewrite filter_In, IH.
  destruct (value_eqb w v) eqn:E.
  - apply value_eqb_eq in E. subst. cbn. tauto.
  - cbn. split; [tauto|]. intros [H|H]; [tauto|]. auto.
Qed.

Lemma dedup_length_le : forall l, List.length (dedup l) <= List.length l.
Proof.
  induction l as [|w l IH]; cbn [dedup List.length]; [lia|].
  pose proof (filter_length_le (fun x => negb (value_eqb w x)) (dedup l)). lia.
Qed.

Lemma filter_length_all :
  forall (A : Type) (p : A -> bool) (l : list A),
    List.length (filter p l) = List.length l -> forall x, In x l -> p x = true.
Proof.
  intros A p l. induction l as [|a l IH]; intros H x Hx; [contradiction|].
  cbn in H. pose proof (filter_length_le p l).
  destruct (p a) eqn:E; cbn in H; [|lia].
  destruct Hx as [<-|Hx]; [exact E|]. apply IH; [lia|exact Hx].
Qed.

Lemma dedup_length_NoDup :
  forall l, List.length (dedup l) = List.length l <-> NoDup l.
Proof.
  induction l as [|w l IH]; cbn [dedup List.length].
  - split; [constructor|reflexivity].
  - pose proof (filter_length_le (fun x => negb (value_eqb w x)) (dedup l)) as H1.
    pose proof (dedup_length_le l) as H2. split.
    + intros H. constructor.
      * intros Hin. apply <- In_dedup in Hin.
        assert (E : negb (value_eqb w w) = true).
        { apply (filter_length_all value (fun x => negb (value_eqb w x)) (dedup l));
            [lia|exact Hin]. }
        assert (value_eqb w w = true) by now apply value_eqb_eq.
        rewrite H0 in E. discriminate.
      * apply IH. lia.
    + intros H. inversion H as [|? ? Hn Hd]; subst.
      rewrite filter_all.
      * f_equal. now apply IH.
      * intros x Hx. apply -> In_dedup in Hx.
        destruct (value_eqb w x) eqn:E; [|reflexivity].
        apply value_eqb_eq in E. subst. contradiction.
Qed.

(** X4: A column is flagged unique exactly when it holds at least two
    values that are not blank and no two of them are equal. *)
Theorem X4_unique_flag :
  forall (h : Host) (name : string) (data : list DataRow),
    cs_unique (detectColumnSchema h name data) = true <->
    2 <= List.length (columnValues name data) /\ NoDup (columnValues name data).
Proof.
  intros h name data. unfold detectColumnSchema. cbv zeta. cbn [cs_unique].
  rewrite andb_true_iff, Nat.eqb_eq, Nat.ltb_lt, dedup_length_NoDup. tauto.
Qed.

(** ** Cleaned cells of a number column *)

Lemma cleaned_number_cell :
  forall (v : value) (column : ColumnSchema) (index : nat) (tableName : string),
    cs_type column = TNumber ->
    isMissing (cleanValue v column) = true \/
    validateColumnType (cleanValue v column) column index tableName = None.
Proof.
  intros v column index tableName Ht.
  destruct (isBlank v) eqn:Hb.
  - left. unfold cleanValue. rewrite Hb. reflexivity.
  - rewrite (cleanValue_unfold v column Hb). cbv zeta. rewrite Ht.
    destruct (isNaN (parseFloat (trim (toString v)))) eqn:Hn.
    + left. destruct (cs_required column); reflexivity.
    + right. unfold validateColumnType. rewrite Ht. cbn [toString].
      rewrite parseFloat_numberToString by apply parseFloat_canonical.
      rewrite Hn. reflexivity.
Qed.

(** ** Schema detection *)

Lemma In_dedupStrings :
  forall (l : list string) (x : string), In x (dedupStrings l) <-> In x l.
Proof.
  induction l as [|y l IH]; intros x; cbn [dedupStrings].
  - tauto.
  - cbn [In]. rewrite filter_In, IH.
    destruct (String.eqb_spec y x) as [->|Hne]; cbn; [tauto|].
    split; [tauto|]. intros [H|H]; [tauto|]. right. split; [exact H|reflexivity].
Qed.

Lemma NoDup_filter :
  forall (A : Type) (p : A -> bool) (l : list A), NoDup l -> NoDup (filter p l).
Proof.
  intros A p l H. induction H as [|x l Hx H IH]; cbn; [constructor|].
  destruct (p x); [|exact IH].
  constructor; [|exact IH]. rewrite filter_In. tauto.
Qed.

Lemma NoDup_dedupStrings : forall l : list string, NoDup (dedupStrings l).
Proof.
  induction l as [|y l IH]; cbn [dedupStrings]; constructor.
  - rewrite filter_In. intros [_ H]. now rewrite String.eqb_refl in H.
  - apply NoDup_filter, IH.
Qed.

Lemma map_name_detect :
  forall h data (names : list string),
    map cs_name (map (fun n => detectColumnSchema h n data) names) = names.
Proof.
  intros h data names. rewrite map_map. cbn [cs_name detectColumnSchema].
  apply map_id.
Qed.

(** [row[k]] on a row built from a list of distinct keys. *)
Lemma getField_map_keys :
  forall (A : Type) (key : A -> string) (val : A -> value) (l : list A) (x : A),
    NoDup (map key l) -> In x l ->
    getField (map (fun a => (key a, val a)) l) (key x) = val x.
Proof.
  intros A key val l x Hnd Hin. induction l as [|a l IH]; [contradiction|].
  cbn [map getField]. inversion Hnd as [|? ? Hna Hnd']; subst.
  destruct Hin as [->|Hin].
  - now rewrite String.eqb_refl.
  - destruct (String.eqb_spec (key a) (key x)) as [E|_].
    + exfalso. apply Hna. rewrite E. now apply in_map.
    + now apply IH.
Qed.

Lemma findPrimaryKey_In :
  forall columns k, findPrimaryKey columns = Some k -> In k (map cs_name columns).
Proof.
  intros columns k H. unfold findPrimaryKey in H.
  destruct (find _ columns) as [c|] eqn:E; [|discriminate].
  inversion H; subst. apply find_some in E. apply in_map, E.
Qed.

Lemma detectRelationships_In :
  forall columns tableName r,
    In r (detectRelationships columns tableName) ->
    In (rel_column r) (map cs_name columns) /\
    (rel_table r = "tasks" \/ rel_table r = "workers" \/ rel_table r = "clients").
Proof.
  intros columns tableName r H. unfold detectRelationships in H.
  apply in_flat_map in H. destruct H as [c [Hc H]].
  assert (Hn : In (cs_name c) (map cs_name columns)) by now apply in_map.
  repeat (apply in_app_or in H; destruct H as [H|H]);
    match type of H with In _ (if ?b then _ else _) => destruct b end;
    try contradiction; destruct H as [<-|[]]; cbn; auto.
Qed.

Lemma detection_cells :
  forall (h : Host) (data : list DataRow) (tableName fileName : string)
         (cleaned : list DataRow) (schema : TableSchema),
    performAISchemaDetection h data tableName fileName = Some (cleaned, schema) ->
    NoDup (map cs_name (ts_columns schema)) /\
    List.length cleaned = List.length data /\
    forall i row crow column,
      nth_error data i = Some row -> nth_error cleaned i = Some crow ->
      In column (ts_columns schema) ->
      getField crow (cs_name column)
      = cleanValue (getField row (cs_name column)) column.
Proof.
  intros h data tableName fileName cleaned schema H.
  destruct data as [|row0 rest]; [discriminate|].
  unfold performAISchemaDetection in H. cbv zeta in H.
  remember (row0 :: rest) as data eqn:Hd.
  remember (dedupStrings (flat_map (fun row => map fst row) data)) as all eqn:Ha.
  inversion H as [[Hc Hs]]. clear H. cbn [ts_columns].
  rewrite map_name_detect.
  assert (Hnd : NoDup all) by (rewrite Ha; apply NoDup_dedupStrings).
  split; [exact Hnd|]. split; [now rewrite length_map|].
  intros i row crow column Hi Hci Hcol.
  rewrite nth_error_map, Hi in Hci. cbn in Hci. inversion Hci; subst crow.
  apply (getField_map_keys ColumnSchema cs_name
           (fun c => cleanValue (getField row (cs_name c)) c)).
  - now rewrite map_name_detect.
  - exact Hcol.
Qed.

(** X5: Schema detection fails exactly on an empty file.  Otherwise the
    column names are pairwise distinct and cover every key of every row;
    each cleaned row has exactly these names as keys, each once, and holds
    under each name the normalized cell of the corresponding input row; when
    no column name is an array index, the keys of a cleaned row are the
    column names in order (an object lists array indices before its other
    keys, whatever the order of insertion); the primary key and the
    columns of the relationships are column names. *)
Theorem X5_detection_shape :
  forall (h : Host) (data : list DataRow) (tableName fileName : string),
    (performAISchemaDetection h data tableName fileName = None <-> data = []) /\
    forall (cleaned : list DataRow) (schema : TableSchema),
      performAISchemaDetection h data tableName fileName = Some (cleaned, schema) ->
      let names := map cs_name (ts_columns schema) in
      NoDup names /\
      (forall row k, In row data -> In k (map fst row) -> In k names) /\
      List.length cleaned = List.length data /\
      (forall row, In row cleaned ->
         NoDup (map fst row) /\
         forall k, In k (map fst row) <-> In k names) /\
      (Forall (fun k => isArrayIndex k = false) names ->
       forall row, In row cleaned -> map fst row = names) /\
      (forall i row crow column,
          nth_error data i = Some row -> nth_error cleaned i = Some crow ->
          In column (ts_columns schema) ->
          getField crow (cs_name column)
          = cleanValue (getField row (cs_name column)) column) /\
      (forall k, ts_primaryKey schema = Some k -> In k names) /\
      (forall r, In r (ts_relationships schema) ->
         In (rel_column r) names /\
         (rel_table r = "tasks" \/ rel_table r = "workers"
          \/ rel_table r = "clients")).
Proof.
  intros h data tableName fileName. split.
  - destruct data; cbn; split; congruence.
  - intros cleaned schema H.
    destruct (detection_cells h data tableName fileName cleaned schema H)
      as (Hnd & Hlen & Hcell).
    destruct data as [|row0 rest]; [discriminate|].
    unfold performAISchemaDetection in H. cbv zeta in H.
    remember (row0 :: rest) as data eqn:Hd.
    remember (dedupStrings (flat_map (fun row => map fst row) data)) as all eqn:Ha.
    injection H as <- <-.
    cbv zeta. cbn [ts_columns ts_primaryKey ts_relationships] in *.
    rewrite map_name_detect in *.
    assert (Hkeys : forall row,
              In row (map (fun row =>
                        map (fun column =>
                               (cs_name column,
                                cleanValue (getField row (cs_name column)) column))
                            (map (fun n => detectColumnSchema h n data) all))
                        data) ->
              map fst row = all).
    { intros row Hr. apply in_map_iff in Hr. destruct Hr as [r [<- _]].
      rewrite map_map. cbn [fst]. apply map_name_detect. }
    split; [exact Hnd|]. split.
    { intros row k Hr Hk. rewrite Ha. apply In_dedupStrings.
      apply in_flat_map. now exists row. }
    split; [now rewrite length_map|]. split.
    { intros row Hr. rewrite (Hkeys row Hr). split; [exact Hnd|tauto]. }
    split; [intros _; exact Hkeys|].
    split.
    { intros i row crow column Hi Hci Hcol. now apply (Hcell i row). }
    split.
    { intros k Hk. apply findPrimaryKey_In in Hk.
      now rewrite map_name_detect in Hk. }
    intros r Hr. apply detectRelationships_In in Hr.
    now rewrite map_name_detect in Hr.
Qed.

Lemma X5_flags_witness :
  exists (cleaned : list DataRow) (schema : TableSchema),
    performAISchemaDetection hostRejectingAll activeColumn "flags" "flags.csv"
      = Some (cleaned, schema) /\
    Forall (fun k => isArrayIndex k = false) (map cs_name (ts_columns schema)) /\
    NoDup (map cs_name (ts_columns schema)) /\
    List.length cleaned = List.length activeColumn /\
    forall row, In row cleaned -> map fst row = map cs_name (ts_columns schema).
Proof.
  destruct (performAISchemaDetection hostRejectingAll activeColumn "flags" "flags.csv")
    as [[cleaned schema]|] eqn:E; [|vm_compute in E; discriminate].
  exists cleaned, schema. split; [reflexivity|].
  assert (Hk : Forall (fun k => isArrayIndex k = false)
                 (map cs_name (ts_columns schema))).
  { vm_compute in E. injection E as <- <-. repeat constructor. }
  destruct (proj2 (X5_detection_shape hostRejectingAll activeColumn "flags" "flags.csv")
              cleaned schema E) as (Hnd & _ & Hlen & _ & Hord & _).
  exact (conj Hk (conj Hnd (conj Hlen (Hord Hk)))).
Defined.

(** X6: On the rows and the schema that detection returns, the row check
    reports a type_mismatch only on a column of type email: a normalized
    cell of a number column is either missing or reads as a number. *)
Theorem X6_upload_no_number_mismatch :
  forall (h : Host) (data : list DataRow) (tableName fileName : string)
         (cleaned : list DataRow) (schema : TableSchema) (e : ValidationError),
    performAISchemaDetection h data tableName fileName = Some (cleaned, schema) ->
    In e (validateTable tableName cleaned schema) ->
    ve_type e = "type_mismatch" ->
    exists column,
      In column (ts_columns schema) /\ cs_name column = ve_column e /\
      cs_type column = TEmail.
Proof.
  intros h data tableName fileName cleaned schema e Hdet He Ht.
  destruct (detection_cells h data tableName fileName cleaned schema Hdet)
    as (Hnd & Hlen & Hcell).
  unfold validateTable in He. apply in_flat_map in He.
  destruct He as [[i crow] [Hi He]]. cbn [fst snd] in He.
  apply In_indexed in Hi.
  assert (Hrow : exists row, nth_error data i = Some row).
  { destruct (nth_error data i) as [row|] eqn:E; [now exists row|].
    apply nth_error_None in E. rewrite <- Hlen in E.
    apply nth_error_None in E. congruence. }
  destruct Hrow as [row Hrow].
  unfold validateRowAgainstSchema in He. apply in_flat_map in He.
  destruct He as [column [Hcol He]]. exists column.
  apply in_app_or in He. destruct He as [He|He].
  - destruct (cs_required column && _); [|contradiction].
    destruct He as [<-|[]]. discriminate.
  - destruct (isMissing (getField crow (cs_name column))) eqn:Hm; [contradiction|].
    cbn [negb] in He.
    destruct (validateColumnType _ _ _ _) as [e'|] eqn:Hv; [|contradiction].
    destruct He as [<-|[]].
    rewrite (Hcell i row crow column Hrow Hi Hcol) in Hv, Hm.
    split; [exact Hcol|].
    unfold validateColumnType in Hv.
    destruct (cs_type column) eqn:Hty; try discriminate.
    + exfalso.
      destruct (cleaned_number_cell (getField row (cs_name column)) column i tableName Hty)
        as [H|H]; [congruence|].
      unfold validateColumnType in H. rewrite Hty in H. congruence.
    + destruct (negb _); inversion Hv; subst; cbn; auto.
Qed.

Lemma X6_contacts_witness :
  exists (cleaned : list DataRow) (schema : TableSchema),
    performAISchemaDetection hostRejectingAll contactsRows "contacts" "contacts.csv"
      = Some (cleaned, schema) /\
    In contactFinding (validateTable "contacts" cleaned schema) /\
    exists column,
      In column (ts_columns schema) /\ cs_name column = "Email" /\
      cs_type column = TEmail.
Proof.
  destruct (performAISchemaDetection hostRejectingAll contactsRows "contacts"
              "contacts.csv") as [[cleaned schema]|] eqn:E;
    [|vm_compute in E; discriminate].
  exists cleaned, schema. split; [reflexivity|].
  assert (Hin : In contactFinding (validateTable "contacts" cleaned schema)).
  { vm_compute in E. injection E as <- <-. vm_compute. auto. }
  split; [exact Hin|].
  exact (X6_upload_no_number_mismatch _ _ _ _ _ _ _ E Hin eq_refl).
Defined.

(** ** Entity classification *)

(** X7: The entity type returned has the greatest score; among equal
    scores tasks is preferred to workers and workers to clients, so a table
    with no hint at all is classified as tasks.  The confidence is the score
    over one hundred, capped at one. *)
Theorem X7_entity_type :
  forall (tableName : string) (columns : list ColumnSchema) (fileName : string),
    let sc := entityScores tableName columns fileName in
    let r := classifyEntityType tableName columns fileName in
    (forall t, entityScore sc t <= entityScore sc (fst r)) /\
    fst r = (if (es_clients sc <=? es_tasks sc) && (es_workers sc <=? es_tasks sc)
             then tasks
             else if es_clients sc <=? es_workers sc then workers else clients) /\
    (entityScore sc (fst r) <= 100 ->
     snd r = (ofNat (entityScore sc (fst r)) / 100)%Q) /\
    (100 < entityScore sc (fst r) -> snd r = 1%Q) /\
    (0 <= snd r)%Q /\ (snd r <= 1)%Q.
Proof.
  intros tableName columns fileName sc r.
  unfold r, classifyEntityType. fold sc. cbv zeta. cbn [fst snd reduce fold_left entityScore].
  set (c := es_clients sc). set (w := es_workers sc). set (t := es_tasks sc).
  assert (Hbest :
    (if t <? entityScore sc (if w <? c then clients else workers)
     then (if w <? c then clients else workers) else tasks)
    = (if (c <=? t) && (w <=? t) then tasks
       else if c <=? w then workers else clients)).
  { destruct (Nat.ltb_spec w c); cbn [entityScore]; fold c w t;
      repeat match goal with
             | |- context [?a <? ?b] => destruct (Nat.ltb_spec a b)
             | |- context [?a <=? ?b] => destruct (Nat.leb_spec a b)
             end; cbn [andb]; first [reflexivity | exfalso; lia]. }
  cbn [entityScore] in Hbest |- *. fold c w t in Hbest |- *. rewrite Hbest.
  set (best := if (c <=? t) && (w <=? t) then tasks
               else if c <=? w then workers else clients).
  split; [|split; [reflexivity|]].
  - intros u. unfold best.
    destruct (Nat.leb_spec c t); destruct (Nat.leb_spec w t);
      destruct (Nat.leb_spec c w); destruct u; cbn [andb entityScore];
      subst c w t; lia.
  - remember (entityScore sc best) as s eqn:Hsdef. clear Hsdef.
    assert (H0 : (0 <= ofNat s / 100)%Q).
    { apply Qle_shift_div_l; [reflexivity|]. rewrite Qmult_0_l.
      unfold ofNat. rewrite <- (Zle_Qle 0). lia. }
    assert (Hs : Qltb 1 (ofNat s / 100) = true <-> 100 < s).
    { rewrite Qltb_lt. unfold Qlt, Qdiv, Qmult, Qinv, ofNat. cbn. lia. }
    destruct (Qltb 1 (ofNat s / 100)) eqn:E.
    + assert (100 < s) by now apply Hs.
      repeat split; try discriminate. intros; lia.
    + assert (~ 100 < s) by (intros Hc; apply Hs in Hc; discriminate).
      apply Qltb_ge in E. repeat split; try assumption. intros; lia.
Qed.

Lemma X7_no_hint_witness :
  entityScore (entityScores "orders" [] "orders.csv")
              (fst (classifyEntityType "orders" [] "orders.csv")) <= 100 /\
  snd (classifyEntityType "orders" [] "orders.csv")
  = (ofNat (entityScore (entityScores "orders" [] "orders.csv")
                        (fst (classifyEntityType "orders" [] "orders.csv"))) / 100)%Q.
Proof.
  assert (H : entityScore (entityScores "orders" [] "orders.csv")
                (fst (classifyEntityType "orders" [] "orders.csv")) <= 100)
    by (vm_compute; lia).
  exact (conj H (proj1 (proj2 (proj2 (X7_entity_type "orders" [] "orders.csv"))) H)).
Defined.

(** ** Relationships *)

Lemma refError_inj :
  forall t i c t' i' c', refError t i c = refError t' i' c' -> t = t' /\ i = i' /\ c = c'.
Proof.
  intros t i c t' i' c' H. inversion H as [[Hid Hrow Hcol]]. subst.
  repeat split. eapply string_app_inv_tail. exact Hid.
Qed.

Lemma In_setHas_map :
  forall (rows : list DataRow) (i : nat) (row : DataRow) (column : string),
    nth_error rows i = Some row ->
    setHas (map (fun r => getField r column) rows) (getField row column) = true.
Proof.
  intros rows i row column H. apply setHas_In. apply in_map_iff.
  exists row. split; [reflexivity|]. eapply nth_error_In, H.
Qed.

(** X8: Every unknown_reference finding comes from a relationship of its
    table to another table: a relationship of a table to itself never
    produces one. *)
Theorem X8_self_reference :
  forall (schemas : Dict TableSchema) (data : Dict (list DataRow))
         (tableName : string) (index : nat) (column : string),
    In (refError tableName index column) (validateCrossReferences schemas data) ->
    exists (schema : TableSchema) (relationship : Relationship),
      In (tableName, schema) schemas /\
      In relationship (ts_relationships schema) /\
      rel_column relationship = column /\
      rel_table relationship <> tableName.
Proof.
  intros schemas data tableName index column H.
  unfold validateCrossReferences in H.
  apply in_flat_map in H. destruct H as [[t schema] [Hs H]].
  apply in_flat_map in H. destruct H as [rel [Hr H]].
  apply in_flat_map in H. destruct H as [[i row] [Hi H]].
  destruct (truthy _ && negb (setHas _ _)) eqn:E; [|contradiction].
  destruct H as [H|[]]. apply refError_inj in H. destruct H as (-> & -> & Hc).
  exists schema, rel. repeat split; try assumption.
  intros Heq. rewrite Heq in E.
  apply In_indexed in Hi.
  rewrite (In_setHas_map _ _ _ _ Hi) in E.
  rewrite andb_false_r in E. discriminate.
Qed.

Lemma X8_tasks_witness :
  In (refError "tasks" 0 "ClientID")
     (validateCrossReferences (st_schemas loadedState) (st_data loadedState)) /\
  exists (schema : TableSchema) (relationship : Relationship),
    In ("tasks", schema) (st_schemas loadedState) /\
    In relationship (ts_relationships schema) /\
    rel_column relationship = "ClientID" /\
    rel_table relationship <> "tasks".
Proof.
  assert (H : In (refError "tasks" 0 "ClientID")
                 (validateCrossReferences (st_schemas loadedState)
                                          (st_data loadedState)))
    by (vm_compute; auto).
  exact (conj H (X8_self_reference _ _ _ _ _ H)).
Defined.

(** ** Edits *)

Lemma lookup_assign_other :
  forall (A : Type) (d : Dict A) (k k' : string) (v : A),
    k' <> k -> lookup (assign d k v) k' = lookup d k'.
Proof.
  intros A d k k' v Hne. induction d as [|[k0 w] d IH]; cbn.
  - destruct (String.eqb_spec k k'); [congruence|reflexivity].
  - destruct (String.eqb_spec k0 k) as [->|Hk]; cbn.
    + destruct (String.eqb_spec k k'); [congruence|reflexivity].
    + destruct (String.eqb_spec k0 k'); [reflexivity|exact IH].
Qed.

Lemma assign_keys :
  forall (A : Type) (d : Dict A) (k : string) (v w : A),
    lookup d k = Some w -> map fst (assign d k v) = map fst d.
Proof.
  intros A d k v w. induction d as [|[k0 x] d IH]; cbn; [discriminate|].
  destruct (String.eqb_spec k0 k) as [->|Hk]; cbn; [reflexivity|].
  intros H. f_equal. now apply IH.
Qed.

Lemma assign_same :
  forall (A : Type) (d : Dict A) (k : string) (v : A),
    lookup d k = Some v -> assign d k v = d.
Proof.
  intros A d k v. induction d as [|[k0 x] d IH]; cbn; [discriminate|].
  destruct (String.eqb_spec k0 k) as [->|Hk].
  - intros H. inversion H. reflexivity.
  - intros H. f_equal. now apply IH.
Qed.

Lemma getField_setField_other :
  forall (row : DataRow) (k k' : string) (v : value),
    k' <> k -> getField (setField row k v) k' = getField row k'.
Proof.
  intros row k k' v Hne. induction row as [|[k0 w] row IH]; cbn.
  - destruct (String.eqb_spec k k'); [congruence|reflexivity].
  - destruct (String.eqb_spec k0 k) as [->|Hk]; cbn.
    + destruct (String.eqb_spec k k'); [congruence|reflexivity].
    + destruct (String.eqb_spec k0 k'); [reflexivity|exact IH].
Qed.

Lemma nth_error_updateRow_any :
  forall (rows : list DataRow) (i j : nat) (field : string) (v : value),
    nth_error (updateRow rows i field v) j
    = option_map (fun row => if j =? i then setField row field v else row)
                 (nth_error rows j).
Proof.
  intros rows i j field v. unfold updateRow.
  rewrite nth_error_map, nth_error_indexed.
  destruct (nth_error rows j); reflexivity.
Qed.

Lemma nth_error_ext :
  forall (A : Type) (l1 l2 : list A),
    (forall i, nth_error l1 i = nth_error l2 i) -> l1 = l2.
Proof.
  intros A l1. induction l1 as [|a l1 IH]; intros [|b l2] H.
  - reflexivity.
  - specialize (H 0). discriminate.
  - specialize (H 0). discriminate.
  - pose proof (H 0) as H0. cbn in H0. inversion H0; subst. f_equal.
    apply IH. intros i. exact (H (S i)).
Qed.

Lemma updateRow_out_of_range :
  forall rows i field v, List.length rows <= i -> updateRow rows i field v = rows.
Proof.
  intros rows i field v H. apply nth_error_ext. intros j.
  rewrite nth_error_updateRow_any.
  destruct (nth_error rows j) as [row|] eqn:E; [|reflexivity].
  cbn. assert (j < List.length rows) by (apply nth_error_Some; congruence).
  destruct (Nat.eqb_spec j i); [lia|reflexivity].
Qed.

(** X9: An edit raises exactly when the table is not loaded.  Otherwise it
    leaves the schemas, the table names and the rows of the other tables as
    they were, keeps the number of rows, and changes only the row at the
    given index, where it sets the edited field and no other. *)
Theorem X9_updateData_frame :
  forall (st : AppState) (tableName : string) (rowIndex : nat) (field : string)
         (v : value),
    (updateData st tableName rowIndex field v = None
     <-> lookup (st_data st) tableName = None) /\
    forall st' : AppState,
      updateData st tableName rowIndex field v = Some st' ->
      st_schemas st' = st_schemas st /\
      map fst (st_data st') = map fst (st_data st) /\
      (forall other, other <> tableName ->
         lookup (st_data st') other = lookup (st_data st) other) /\
      (forall j,
         nth_error (rowsOf (st_data st') tableName) j
         = option_map (fun row => if j =? rowIndex then setField row field v else row)
                      (nth_error (rowsOf (st_data st) tableName) j)) /\
      (forall row key,
         key <> field -> getField (setField row field v) key = getField row key) /\
      (forall row, getField (setField row field v) field = v).
Proof.
  intros st tableName rowIndex field v. unfold updateData.
  destruct (lookup (st_data st) tableName) as [rows|] eqn:E.
  - split; [split; discriminate|].
    intros st' H. inversion H; subst; clear H. cbn [st_schemas st_data].
    split; [reflexivity|]. split; [now apply (assign_keys _ _ _ _ rows)|].
    split; [intros other Ho; now apply lookup_assign_other|].
    split.
    + intros j. unfold rowsOf. rewrite lookup_assign_same, E.
      apply nth_error_updateRow_any.
    + split.
      * intros row key Hk. now apply getField_setField_other.
      * intros row. apply getField_setField_same.
  - split; [tauto|]. discriminate.
Qed.

Lemma X9_edit_witness :
  exists st' : AppState,
    updateData loadedState "clients" 0 "Email" (VStr "x@y.org") = Some st' /\
    st_schemas st' = st_schemas loadedState /\
    map fst (st_data st') = map fst (st_data loadedState).
Proof.
  destruct (updateData loadedState "clients" 0 "Email" (VStr "x@y.org"))
    as [st'|] eqn:E; [|vm_compute in E; discriminate].
  exists st'. split; [reflexivity|].
  destruct (proj2 (X9_updateData_frame loadedState "clients" 0 "Email" (VStr "x@y.org"))
              st' E) as (Hs & Hk & _).
  exact (conj Hs Hk).
Defined.

(** X10: An edit at an index past the end of the table changes no data;
    the findings are nevertheless recomputed, from a row that holds the
    edited field alone. *)
Theorem X10_updateData_out_of_range :
  forall (st : AppState) (tableName : string) (rowIndex : nat) (field : string)
         (v : value) (rows : list DataRow),
    lookup (st_data st) tableName = Some rows ->
    List.length rows <= rowIndex ->
    exists st' : AppState,
      updateData st tableName rowIndex field v = Some st' /\
      st_data st' = st_data st /\
      forall schema,
        lookup (st_schemas st) tableName = Some schema ->
        st_validationErrors st'
        = runValidation st tableName [[(field, v)]] schema.
Proof.
  intros st tableName rowIndex field v rows Hl Hr.
  unfold updateData. rewrite Hl. eexists. split; [reflexivity|].
  cbn [st_data st_validationErrors]. split.
  - rewrite updateRow_out_of_range by exact Hr. now apply assign_same.
  - intros schema Hs. rewrite Hs.
    rewrite nth_overflow by exact Hr. reflexivity.
Qed.

Lemma X10_past_the_end_witness :
  lookup (st_data loadedState) "tasks" = Some tasksRows /\
  List.length tasksRows <= 5 /\
  exists st' : AppState,
    updateData loadedState "tasks" 5 "ClientID" (VStr "C1") = Some st' /\
    st_data st' = st_data loadedState /\
    forall schema,
      lookup (st_schemas loadedState) "tasks" = Some schema ->
      st_validationErrors st'
      = runValidation loadedState "tasks" [[("ClientID", VStr "C1")]] schema.
Proof.
  assert (H1 : lookup (st_data loadedState) "tasks" = Some tasksRows) by reflexivity.
  assert (H2 : List.length tasksRows <= 5) by (vm_compute; lia).
  exact (conj H1 (conj H2
           (X10_updateData_out_of_range loadedState "tasks" 5 "ClientID" (VStr "C1")
              tasksRows H1 H2))).
Defined.

Lemma prefix_trans :
  forall a b c : string, prefix a b = true -> prefix b c = true -> prefix a c = true.
Proof.
  induction a as [|x a IH]; intros b c Hab Hbc.
  - destruct c; reflexivity.
  - destruct b as [|y b]; [discriminate|]. destruct c as [|z c]; [discriminate|].
    cbn in *. destruct (ascii_dec x y); [|discriminate].
    destruct (ascii_dec y z); [|discriminate]. subst.
    destruct (ascii_dec z z); [|congruence]. eapply IH; eassumption.
Qed.

(** ** What a validation run keeps *)

Lemma runValidation_split :
  forall st tableName dataToValidate schema,
    runValidation st tableName dataToValidate schema
    = (filter (fun e => negb (startsWith (ve_id e) tableName))
              (st_validationErrors st)
       ++ freshFindings st tableName dataToValidate schema)%list.
Proof.
  intros. unfold runValidation, freshFindings, validateTable, validateBusinessLogic.
  now rewrite app_nil_r.
Qed.

(** X11: A validation run keeps every earlier finding whose id does not
    start with the name of the validated table, and keeps none whose id
    starts with a name that the table name is a prefix of: of such findings
    only those computed by the run itself remain. *)
Theorem X11_runValidation_kept :
  forall (st : AppState) (tableName : string) (dataToValidate : list DataRow)
         (schema : TableSchema) (e : ValidationError),
    (In e (st_validationErrors st) ->
     startsWith (ve_id e) tableName = false ->
     In e (runValidation st tableName dataToValidate schema)) /\
    (forall other : string,
       startsWith other tableName = true ->
       startsWith (ve_id e) other = true ->
       In e (runValidation st tableName dataToValidate schema) ->
       In e (freshFindings st tableName dataToValidate schema)).
Proof.
  intros st tableName dataToValidate schema e.
  rewrite runValidation_split. split.
  - intros Hin Hs. apply in_or_app. left. apply filter_In.
    split; [exact Hin|]. now rewrite Hs.
  - intros other Ho He Hin. apply in_app_or in Hin.
    destruct Hin as [Hin|Hin]; [|exact Hin].
    apply filter_In in Hin. destruct Hin as [_ Hn].
    unfold startsWith in *.
    rewrite (prefix_trans tableName other (ve_id e) Ho He) in Hn. discriminate.
Qed.

Lemma X11_kept_witness :
  In badEmailFinding (st_validationErrors loadedState) /\
  startsWith (ve_id badEmailFinding) "tasks" = false /\
  In badEmailFinding (runValidation loadedState "tasks" tasksRows tasksSchema).
Proof.
  assert (H1 : In badEmailFinding (st_validationErrors loadedState))
    by (vm_compute; auto).
  assert (H2 : startsWith (ve_id badEmailFinding) "tasks" = false) by reflexivity.
  exact (conj H1 (conj H2
           (proj1 (X11_runValidation_kept loadedState "tasks" tasksRows tasksSchema
                     badEmailFinding) H1 H2))).
Defined.

(** ** Findings of the general passes name a table of the schemas *)

Lemma lookup_In :
  forall (A : Type) (d : Dict A) (k : string) (v : A),
    In (k, v) d -> lookup d k <> None.
Proof.
  intros A d k v H. induction d as [|[k0 w] d IH]; [contradiction|].
  cbn. destruct (String.eqb_spec k0 k); [discriminate|].
  destruct H as [H|H]; [congruence|now apply IH].
Qed.

Lemma crossReference_tables :
  forall schemas data e,
    In e (validateCrossReferences schemas data) ->
    exists tableName index column,
      e = refError tableName index column /\ lookup schemas tableName <> None.
Proof.
  intros schemas data e H. unfold validateCrossReferences in H.
  apply in_flat_map in H. destruct H as [[t schema] [Hs H]].
  apply in_flat_map in H. destruct H as [rel [Hr H]].
  apply in_flat_map in H. destruct H as [[i row] [Hi H]].
  destruct (truthy _ && negb (setHas _ _)); [|contradiction].
  destruct H as [<-|[]]. exists t, i, (rel_column rel).
  split; [reflexivity|]. eapply lookup_In, Hs.
Qed.

Lemma advancedConstraints_tables :
  forall schemas data e,
    In e (validateAdvancedConstraints schemas data) ->
    exists tableName index column,
      e = burnoutError tableName index column /\ lookup schemas tableName <> None.
Proof.
  intros schemas data e H. unfold validateAdvancedConstraints in H.
  apply in_flat_map in H. destruct H as [[t schema] [Hs H]].
  destruct (DataType_eqb _ _); [|contradiction].
  apply in_flat_map in H. destruct H as [[i row] [Hi H]].
  destruct (find isLoadColumn _) as [c|]; [|contradiction].
  destruct (truthy _ && loadExceeds _); [|contradiction].
  destruct H as [<-|[]]. exists t, i, (cs_name c).
  split; [reflexivity|]. eapply lookup_In, Hs.
Qed.

(** X12: When a table is uploaded for which no schema was loaded before,
    each finding afterwards was there before, or comes from the row check of
    the new rows, or is an unknown_reference or burnout_risk finding of
    another table: the two general passes read the state from before the
    upload. *)
Theorem X12_first_upload :
  forall (st : AppState) (tableName : string) (newData : list DataRow)
         (detectedSchema : TableSchema) (e : ValidationError),
    lookup (st_schemas st) tableName = None ->
    In e (st_validationErrors (handleDataUpload st tableName newData detectedSchema)) ->
    In e (st_validationErrors st) \/
    In e (validateTable tableName newData detectedSchema) \/
    exists other index column,
      other <> tableName /\
      (e = refError other index column \/ e = burnoutError other index column).
Proof.
  intros st tableName newData detectedSchema e Hnone H.
  cbn [handleDataUpload st_validationErrors] in H.
  rewrite runValidation_split in H. unfold freshFindings in H.
  apply in_app_or in H. destruct H as [H|H]; [left; apply filter_In in H; tauto|].
  apply in_app_or in H. destruct H as [H|H]; [right; left; exact H|].
  apply in_app_or in H. destruct H as [H|H].
  - right. right. apply crossReference_tables in H.
    destruct H as (t & i & c & -> & Hl). exists t, i, c.
    split; [congruence|]. now left.
  - right. right. apply advancedConstraints_tables in H.
    destruct H as (t & i & c & -> & Hl). exists t, i, c.
    split; [congruence|]. now right.
Qed.

Lemma X12_first_upload_witness :
  lookup (st_schemas emptyState) "clients" = None /\
  In badEmailFinding
     (st_validationErrors
        (handleDataUpload emptyState "clients" clientsRows clientsSchema)) /\
  (In badEmailFinding (st_validationErrors emptyState) \/
   In badEmailFinding (validateTable "clients" clientsRows clientsSchema) \/
   exists other index column,
     other <> "clients" /\
     (badEmailFinding = refError other index column \/
      badEmailFinding = burnoutError other index column)).
Proof.
  assert (H1 : lookup (st_schemas emptyState) "clients" = None) by reflexivity.
  assert (H2 : In badEmailFinding
                  (st_validationErrors
                     (handleDataUpload emptyState "clients" clientsRows clientsSchema)))
    by (vm_compute; auto).
  exact (conj H1 (conj H2
           (X12_first_upload emptyState "clients" clientsRows clientsSchema
              badEmailFinding H1 H2))).
Defined.

(** ** An edit and what the grid shows next *)

(** X13: After an edit, every missing_required or type_mismatch finding
    that the grid shows in a cell of the edited table sits on the row of
    index 0 and is a finding of the check of the edited row: whatever row
    was edited, its findings are shown on the first row. *)
Theorem X13_edit_findings_on_first_row :
  forall (st st' : AppState) (tableName : string) (rowIndex : nat)
         (field : string) (v : value) (schema : TableSchema)
         (indices : list nat) (position : nat) (column : string)
         (e : ValidationError),
    updateData st tableName rowIndex field v = Some st' ->
    lookup (st_schemas st) tableName = Some schema ->
    In e (getCellErrors (st_validationErrors st') tableName indices position column) ->
    (ve_type e = "missing_required" \/ ve_type e = "type_mismatch") ->
    nth_error indices position = Some 0 /\
    In e (validateRowAgainstSchema
            (setField (nth rowIndex (rowsOf (st_data st) tableName) []) field v)
            0 tableName schema).
Proof.
  intros st st' tableName rowIndex field v schema indices position column e
         Hup Hs Hin Hty.
  unfold updateData in Hup.
  destruct (lookup (st_data st) tableName) as [rows|] eqn:Hd; [|discriminate].
  inversion Hup; subst st'; clear Hup. cbn [st_validationErrors] in Hin.
  rewrite Hs in Hin. unfold getCellErrors in Hin. apply filter_In in Hin.
  destruct Hin as [Hin Hf].
  apply andb_true_iff in Hf. destruct Hf as [Hf Hid].
  apply andb_true_iff in Hf. destruct Hf as [Hrow _].
  rewrite runValidation_split in Hin. unfold freshFindings in Hin.
  apply in_app_or in Hin. destruct Hin as [Hin|Hin].
  { apply filter_In in Hin. destruct Hin as [_ Hn]. rewrite Hid in Hn. discriminate. }
  apply in_app_or in Hin. destruct Hin as [Hin|Hin].
  { unfold validateTable, indexed in Hin.
    cbn [List.length seq combine flat_map fst snd] in Hin.
    rewrite app_nil_r in Hin.
    pose proof (validateRow_findings _ _ _ _ _ Hin) as (Hr & _).
    unfold rowsOf. rewrite Hd. split; [|exact Hin].
    destruct (nth_error indices position) as [a|]; [|discriminate].
    apply Nat.eqb_eq in Hrow. congruence. }
  exfalso. apply in_app_or in Hin. destruct Hin as [Hin|Hin].
  - apply crossReference_tables in Hin.
    destruct Hin as (t & i & c & -> & _). cbn in Hty. destruct Hty; discriminate.
  - apply advancedConstraints_tables in Hin.
    destruct Hin as (t & i & c & -> & _). cbn in Hty. destruct Hty; discriminate.
Qed.

Lemma X13_edit_second_row_witness :
  exists st' : AppState,
    updateData loadedState "clients" 1 "Email" (VStr "worse") = Some st' /\
    In editedEmailFinding
       (getCellErrors (st_validationErrors st') "clients" [0; 1] 0 "Email") /\
    nth_error [0; 1] 0 = Some 0 /\
    In editedEmailFinding
       (validateRowAgainstSchema
          (setField (nth 1 (rowsOf (st_data loadedState) "clients") [])
                    "Email" (VStr "worse"))
          0 "clients" clientsSchema).
Proof.
  destruct (updateData loadedState "clients" 1 "Email" (VStr "worse"))
    as [st'|] eqn:E; [|vm_compute in E; discriminate].
  exists st'. split; [reflexivity|].
  assert (Hin : In editedEmailFinding
                   (getCellErrors (st_validationErrors st') "clients" [0; 1] 0 "Email")).
  { vm_compute in E. injection E as <-. vm_compute. auto. }
  split; [exact Hin|].
  exact (X13_edit_findings_on_first_row loadedState st' "clients" 1 "Email"
           (VStr "worse") clientsSchema [0; 1] 0 "Email" editedEmailFinding
           E eq_refl Hin (or_intror eq_refl)).
Defined.

(** ** Auto-fix and the findings that call for it *)

Lemma find_by_name :
  forall (columns : list ColumnSchema) (column : ColumnSchema),
    NoDup (map cs_name columns) -> In column columns ->
    find (fun col => String.eqb (cs_name col) (cs_name column)) columns = Some column.
Proof.
  intros columns column Hnd Hin. induction columns as [|c columns IH]; [contradiction|].
  cbn [find]. inversion Hnd as [|? ? Hn Hnd']; subst.
  destruct Hin as [->|Hin].
  - now rewrite String.eqb_refl.
  - destruct (String.eqb_spec (cs_name c) (cs_name column)) as [E|_].
    + exfalso. apply Hn. rewrite E. now apply in_map.
    + now apply IH.
Qed.

(** X14: For a table whose name holds no dash and whose columns have
    distinct names, every finding of the row check that is marked
    auto-fixable leads the fixer back to its table and has a fix value. *)
Theorem X14_autoFixable_has_fix :
  forall (schemas : Dict TableSchema) (tableName : string) (schema : TableSchema)
         (row : DataRow) (index : nat) (e : ValidationError),
    noDash tableName = true ->
    lookup schemas tableName = Some schema ->
    NoDup (map cs_name (ts_columns schema)) ->
    In e (validateRowAgainstSchema row index tableName schema) ->
    ve_autoFixable e = true ->
    tableOfId (ve_id e) = tableName /\
    exists v : value, fixedValue schemas e = Some v.
Proof.
  intros schemas tableName schema row index e Hdash Hs Hnd Hin Hfix.
  unfold validateRowAgainstSchema in Hin. apply in_flat_map in Hin.
  destruct Hin as [column [Hcol Hin]].
  assert (Hfind : findColumn schemas tableName (cs_name column) = Some column).
  { unfold findColumn. rewrite Hs. now apply find_by_name. }
  apply in_app_or in Hin. destruct Hin as [Hin|Hin].
  - destruct (cs_required column && _); [|contradiction].
    destruct Hin as [<-|[]]. cbn [ve_autoFixable ve_id] in *.
    assert (Ht : tableOfId
                   ((tableName ++ "-" ++ natToString index) ++ "-" ++
                    cs_name column ++ "-required") = tableName).
    { rewrite string_app_assoc. now apply tableOfId_app. }
    split; [exact Ht|].
    unfold fixedValue. cbn [ve_id ve_type ve_column]. rewrite Ht, Hfind. cbn.
    apply orb_true_iff in Hfix. destruct Hfix as [E|E];
      apply ColType_eqb_eq in E; rewrite E; cbn; eauto.
  - destruct (negb _); [|contradiction].
    destruct (validateColumnType _ _ _ _) as [e'|] eqn:Hv; [|contradiction].
    destruct Hin as [<-|[]].
    unfold validateColumnType in Hv.
    destruct (cs_type column) eqn:Hty; try discriminate;
      match type of Hv with (if ?b then _ else _) = _ => destruct b end;
      inversion Hv; subst e'; cbn [ve_autoFixable] in Hfix; try discriminate.
    unfold fixedValue. cbn [ve_id ve_type ve_column].
    match goal with
    | |- context [tableOfId ?id] =>
        assert (Ht : tableOfId id = tableName)
          by (rewrite ?string_app_assoc; now apply tableOfId_app)
    end.
    rewrite Ht, Hfind, Hty. cbn. eauto.
Qed.

Lemma X14_qty_witness :
  noDash "orders" = true /\
  NoDup (map cs_name (ts_columns (ordersSchema None))) /\
  In qtyMissing (validateRowAgainstSchema [("Qty", VStr "")] 0 "orders"
                                          (ordersSchema None)) /\
  ve_autoFixable qtyMissing = true /\
  tableOfId (ve_id qtyMissing) = "orders" /\
  exists v : value, fixedValue [("orders", ordersSchema None)] qtyMissing = Some v.
Proof.
  assert (H1 : noDash "orders" = true) by reflexivity.
  assert (H2 : NoDup (map cs_name (ts_columns (ordersSchema None))))
    by (repeat constructor; intros []).
  assert (H3 : In qtyMissing (validateRowAgainstSchema [("Qty", VStr "")] 0 "orders"
                                (ordersSchema None)))
    by (vm_compute; auto).
  assert (H4 : ve_autoFixable qtyMissing = true) by reflexivity.
  exact (conj H1 (conj H2 (conj H3 (conj H4
           (X14_autoFixable_has_fix [("orders", ordersSchema None)] "orders"
              (ordersSchema None) [("Qty", VStr "")] 0 qtyMissing
              H1 eq_refl H2 H3 H4))))).
Defined.

(** X15: For a table whose name holds no dash and whose columns have
    distinct names, the fix of the type_mismatch finding of a required
    number column writes 0 into the cell of the finding.  Afterwards that
    finding is gone from the list, and a missing_required finding for the
    same column, on row 0, is in it: the fix replaces one finding by
    another. *)
Theorem X15_fix_number_mismatch :
  forall (st : AppState) (tableName : string) (schema : TableSchema)
         (column : ColumnSchema) (rows : list DataRow) (index : nat)
         (v : value) (e : ValidationError),
    noDash tableName = true ->
    lookup (st_schemas st) tableName = Some schema ->
    NoDup (map cs_name (ts_columns schema)) ->
    In column (ts_columns schema) ->
    cs_type column = TNumber ->
    cs_required column = true ->
    lookup (st_data st) tableName = Some rows ->
    validateColumnType v column index tableName = Some e ->
    exists st' : AppState,
      applyAutoFix st e = Some st' /\
      (forall row, nth_error rows index = Some row ->
         nth_error (rowsOf (st_data st') tableName) index
         = Some (setField row (cs_name column) (VNum (numOfNat 0)))) /\
      In {| ve_id := tableName ++ "-0-" ++ cs_name column ++ "-required";
            ve_row := 0; ve_column := cs_name column; ve_severity := error;
            ve_type := "missing_required"; ve_autoFixable := true |}
         (st_validationErrors st') /\
      ~ In e (st_validationErrors st').
Proof.
  intros st tableName schema column rows index v e
         Hdash Hs Hnd Hin Htn Hreq Hd Hv.
  destruct (validateColumnType_shape _ _ _ _ _ Hv)
    as (Hrow & _ & Hcol & Hty & Hid & _).
  assert (Ht : tableOfId (ve_id e) = tableName)
    by (rewrite Hid; now apply tableOfId_app).
  assert (Hfind : find (fun col => String.eqb (cs_name col) (cs_name column))
                       (ts_columns schema) = Some column)
    by now apply find_by_name.
  assert (Hfix : fixedValue (st_schemas st) e = Some (VNum (numOfNat 0))).
  { unfold fixedValue, findColumn. rewrite Ht, Hs, Hcol, Hfind, Hty, Htn.
    reflexivity. }
  unfold applyAutoFix. rewrite Hfix, Ht, Hrow, Hcol.
  unfold updateData. rewrite Hd, Hs.
  eexists. split; [reflexivity|]. cbn [st_data st_validationErrors].
  assert (Hcheck :
    forall f,
      In f (validateRowAgainstSchema
              (setField (nth index rows []) (cs_name column) (VNum (numOfNat 0)))
              0 tableName schema) ->
      ve_column f = cs_name column -> ve_type f = "missing_required").
  { intros f Hf Hfc. unfold validateRowAgainstSchema in Hf.
    apply in_flat_map in Hf. destruct Hf as [c [Hc Hf]].
    apply in_app_or in Hf. destruct Hf as [Hf|Hf].
    - destruct (cs_required c && _); [|contradiction].
      destruct Hf as [<-|[]]. reflexivity.
    - exfalso.
      destruct (isMissing (getField _ (cs_name c))) eqn:Hm; [contradiction|].
      cbn [negb] in Hf.
      destruct (validateColumnType _ c 0 tableName) as [f'|] eqn:Hf';
        [|contradiction].
      destruct Hf as [<-|[]].
      destruct (validateColumnType_shape _ _ _ _ _ Hf') as (_ & _ & Hc' & _).
      assert (Hsame : c = column).
      { pose proof (find_by_name _ c Hnd Hc) as H1.
        rewrite <- Hc', Hfc, Hfind in H1. now injection H1. }
      subst c. rewrite getField_setField_same in Hm. discriminate. }
  split; [|split].
  - intros row Hr. unfold rowsOf. rewrite lookup_assign_same.
    now apply nth_error_updateRow.
  - rewrite runValidation_split. apply in_or_app. right.
    unfold freshFindings. apply in_or_app. left.
    unfold validateTable, indexed.
    cbn [List.length seq combine flat_map fst snd]. rewrite app_nil_r.
    unfold validateRowAgainstSchema. apply in_flat_map.
    exists column. split; [exact Hin|]. apply in_or_app. left.
    rewrite getField_setField_same, Hreq, Htn. cbn.
    left. f_equal. now rewrite string_app_assoc.
  - rewrite runValidation_split. intros He.
    apply in_app_or in He. destruct He as [He|He].
    { apply filter_In in He. destruct He as [_ He].
      rewrite Hid, startsWith_app in He. discriminate. }
    unfold freshFindings in He.
    apply in_app_or in He. destruct He as [He|He].
    { unfold validateTable, indexed in He.
      cbn [List.length seq combine flat_map fst snd] in He.
      rewrite app_nil_r in He.
      pose proof (Hcheck e He Hcol) as Hm. rewrite Hty in Hm. discriminate. }
    apply in_app_or in He. destruct He as [He|He].
    + apply crossReference_tables in He.
      destruct He as (t & i & c & -> & _). discriminate.
    + apply advancedConstraints_tables in He.
      destruct He as (t & i & c & -> & _). discriminate.
Qed.

Lemma X15_unparsed_order_witness :
  noDash "orders" = true /\
  NoDup (map cs_name (ts_columns (ordersSchema None))) /\
  validateColumnType (VStr "abc") (qtyColumn None) 0 "orders" = Some qtyMismatch /\
  exists st' : AppState,
    applyAutoFix unparsedOrder qtyMismatch = Some st' /\
    (forall row, nth_error [[("Qty", VStr "abc")]] 0 = Some row ->
       nth_error (rowsOf (st_data st') "orders") 0
       = Some (setField row "Qty" (VNum (numOfNat 0)))) /\
    In qtyMissing (st_validationErrors st') /\
    ~ In qtyMismatch (st_validationErrors st').
Proof.
  assert (H1 : noDash "orders" = true) by reflexivity.
  assert (H2 : NoDup (map cs_name (ts_columns (ordersSchema None))))
    by (repeat constructor; intros []).
  assert (H3 : validateColumnType (VStr "abc") (qtyColumn None) 0 "orders"
               = Some qtyMismatch) by reflexivity.
  exact (conj H1 (conj H2 (conj H3
           (X15_fix_number_mismatch unparsedOrder "orders" (ordersSchema None)
              (qtyColumn None) [[("Qty", VStr "abc")]] 0 (VStr "abc") qtyMismatch
              H1 eq_refl H2 (or_introl eq_refl) eq_refl eq_refl eq_refl H3)))).
Defined.

(** ** The grid *)

Lemma indexed_fst_snd :
  forall (A : Type) (l : list A) (ir : nat * A),
    In ir (indexed l) -> nth_error l (fst ir) = Some (snd ir).
Proof. intros A l [i x] H. now apply In_indexed. Qed.

Lemma map_fst_indexed :
  forall (A : Type) (l : list A), map fst (indexed l) = seq 0 (List.length l).
Proof.
  intros A l. unfold indexed. generalize 0.
  induction l as [|x l IH]; intros a; cbn; [reflexivity|]. now rewrite IH.
Qed.

Lemma filtered_aligned :
  forall (data : list DataRow) (searchResults : list nat) (searchTerm : string)
         (position : nat),
    nth_error (filteredData data searchResults searchTerm) position
    = option_map (nth_error data)
        (nth_error (filteredIndices data searchResults searchTerm) position).
Proof.
  intros data searchResults searchTerm position.
  unfold filteredData, filteredIndices, filtered.
  destruct (0 <? List.length searchResults); cbn [fst snd].
  - now rewrite nth_error_map.
  - destruct (negb (isEmpty searchTerm)); cbn [fst snd].
    + rewrite !nth_error_map.
      destruct (nth_error (filter _ (indexed data)) position) as [ir|] eqn:E;
        [|reflexivity].
      cbn. apply nth_error_In, filter_In in E. destruct E as [E _].
      now rewrite (indexed_fst_snd _ _ _ E).
    + rewrite !nth_error_map, nth_error_indexed.
      destruct (nth_error data position) eqn:E; cbn; [now rewrite E|reflexivity].
Qed.

Lemma StronglySorted_seq : forall n a, StronglySorted lt (seq a n).
Proof.
  induction n as [|n IH]; intros a; cbn; constructor; [apply IH|].
  apply Forall_forall. intros x Hx. apply in_seq in Hx. lia.
Qed.

Lemma map_fst_filter_indexed :
  forall (A : Type) (p : A -> bool) (l : list A),
    StronglySorted lt (map fst (filter (fun ir : nat * A => p (snd ir)) (indexed l))).
Proof.
  intros A p l. unfold indexed. generalize 0.
  induction l as [|x l IH]; intros a; cbn; [constructor|].
  destruct (p x); cbn.
  - constructor; [apply IH|]. apply Forall_forall. intros i Hi.
    apply in_map_iff in Hi. destruct Hi as [[j y] [<- Hj]].
    apply filter_In in Hj. destruct Hj as [Hj _].
    apply in_combine_l in Hj. apply in_seq in Hj. cbn. lia.
  - apply IH.
Qed.

(** X16: In the grid the row displayed at a position is the row of the
    table at the index recorded for that position (none when that index is
    not one of the table).  Without search results the recorded indices are
    strictly increasing indices of the table, and all of them when the
    search term is empty too. *)
Theorem X16_grid_rows :
  forall (data : list DataRow) (searchResults : list nat) (searchTerm : string),
    (forall position,
       nth_error (filteredData data searchResults searchTerm) position
       = option_map (nth_error data)
           (nth_error (filteredIndices data searchResults searchTerm) position)) /\
    (searchResults = [] ->
     StronglySorted lt (filteredIndices data searchResults searchTerm) /\
     (forall index, In index (filteredIndices data searchResults searchTerm) ->
        index < List.length data) /\
     (searchTerm = "" ->
      filteredIndices data searchResults searchTerm = seq 0 (List.length data))).
Proof.
  intros data searchResults searchTerm. split; [apply filtered_aligned|].
  intros ->. unfold filteredIndices, filtered. cbn [List.length Nat.ltb Nat.leb].
  destruct searchTerm as [|c term]; cbn [isEmpty negb fst snd].
  - rewrite map_fst_indexed. split; [apply StronglySorted_seq|].
    split; [|reflexivity]. intros index H. apply in_seq in H. lia.
  - split; [apply map_fst_filter_indexed|]. split; [|discriminate].
    intros index H. apply in_map_iff in H. destruct H as [[j y] [<- Hj]].
    apply filter_In in Hj. destruct Hj as [Hj _].
    apply In_indexed in Hj. cbn. apply nth_error_Some. congruence.
Qed.

Lemma X16_unfiltered_witness :
  StronglySorted lt (filteredIndices clientsRows [] "bad") /\
  (forall index, In index (filteredIndices clientsRows [] "bad") ->
     index < List.length clientsRows).
Proof.
  destruct (proj2 (X16_grid_rows clientsRows [] "bad") eq_refl) as (H1 & H2 & _).
  exact (conj H1 H2).
Defined.

(** X17: Saving the edit of a displayed row, under any filter, writes the
    edited text into that same row of the table and leaves every other row
    as it was. *)
Theorem X17_saveEdit_displayed_row :
  forall (st : AppState) (tableName : string) (searchResults : list nat)
         (searchTerm : string) (position : nat) (column editValue : string)
         (row : DataRow),
    nth_error (filteredData (rowsOf (st_data st) tableName) searchResults searchTerm)
              position = Some (Some row) ->
    exists (st' : AppState) (index : nat),
      saveEdit st tableName searchResults searchTerm position column editValue
        = Some st' /\
      nth_error (filteredIndices (rowsOf (st_data st) tableName) searchResults
                                 searchTerm) position = Some index /\
      nth_error (rowsOf (st_data st) tableName) index = Some row /\
      nth_error (rowsOf (st_data st') tableName) index
        = Some (setField row column (VStr editValue)) /\
      (forall other, other <> index ->
         nth_error (rowsOf (st_data st') tableName) other
         = nth_error (rowsOf (st_data st) tableName) other).
Proof.
  intros st tableName searchResults searchTerm position column editValue row H.
  rewrite filtered_aligned in H.
  destruct (nth_error (filteredIndices _ _ _) position) as [index|] eqn:Hi;
    [|discriminate].
  cbn in H. injection H as Hrow.
  unfold saveEdit. cbv zeta. rewrite (nth_error_nth _ _ _ Hi).
  unfold updateData, rowsOf in *.
  destruct (lookup (st_data st) tableName) as [rows|] eqn:Hd.
  - eexists. exists index. split; [reflexivity|]. split; [reflexivity|].
    split; [exact Hrow|]. cbn [st_data]. rewrite lookup_assign_same. split.
    + now apply nth_error_updateRow.
    + intros other Ho. rewrite nth_error_updateRow_any.
      destruct (nth_error rows other); [|reflexivity]. cbn.
      destruct (Nat.eqb_spec other index); [contradiction|reflexivity].
  - destruct index; discriminate.
Qed.

Lemma X17_filtered_edit_witness :
  nth_error (filteredData (rowsOf (st_data loadedState) "clients") [] "bad") 0
    = Some (Some [("ClientID", VStr "C2"); ("Email", VStr "bad")]) /\
  exists (st' : AppState) (index : nat),
    saveEdit loadedState "clients" [] "bad" 0 "Email" "c@d.org" = Some st' /\
    nth_error (filteredIndices (rowsOf (st_data loadedState) "clients") [] "bad") 0
      = Some index /\
    nth_error (rowsOf (st_data loadedState) "clients") index
      = Some [("ClientID", VStr "C2"); ("Email", VStr "bad")] /\
    nth_error (rowsOf (st_data st') "clients") index
      = Some (setField [("ClientID", VStr "C2"); ("Email", VStr "bad")]
                       "Email" (VStr "c@d.org")) /\
    (forall other, other <> index ->
       nth_error (rowsOf (st_data st') "clients") other
       = nth_error (rowsOf (st_data loadedState) "clients") other).
Proof.
  assert (H : nth_error (filteredData (rowsOf (st_data loadedState) "clients") [] "bad") 0
              = Some (Some [("ClientID", VStr "C2"); ("Email", VStr "bad")]))
    by reflexivity.
  exact (conj H (X17_saveEdit_displayed_row loadedState "clients" [] "bad" 0 "Email"
                   "c@d.org" _ H)).
Defined.

(** ** Export *)

Lemma some_table_has_rows :
  forall data : Dict (list DataRow),
    0 < getTotalRows data ->
    exists tableName rows, In (tableName, rows) data /\ rows <> [].
Proof.
  intros data H. induction data as [|[t rows] data IH].
  - cbn in H. lia.
  - destruct rows as [|row rows].
    + destruct IH as (t' & rows' & Hin & Hne).
      { unfold getTotalRows in *. cbn in H. exact H. }
      exists t', rows'. split; [now right|exact Hne].
    + exists t, (row :: rows). split; [now left|discriminate].
Qed.

Lemma In_csvFiles :
  forall (data : Dict (list DataRow)) (name text : string),
    In (name, text) (csvFiles data) <->
    exists tableName rows,
      In (tableName, rows) data /\ rows <> [] /\
      name = tableName ++ "_cleaned.csv" /\ csvContent rows = Some text.
Proof.
  intros data name text. unfold csvFiles. rewrite in_flat_map. split.
  - intros [[t rows] [Hin H]]. exists t, rows.
    destruct rows as [|row rows]; [contradiction|].
    change (0 <? List.length (row :: rows)) with true in H.
    unfold downloadCSV in H.
    destruct (csvContent (row :: rows)) as [c|]; [|contradiction].
    destruct H as [H|[]]. injection H as <- <-.
    repeat split; [exact Hin|discriminate].
  - intros (t & rows & Hin & Hne & -> & Hc). exists (t, rows).
    split; [exact Hin|]. destruct rows as [|row rows]; [contradiction|].
    change (0 <? List.length (row :: rows)) with true.
    unfold downloadCSV. rewrite Hc. now left.
Qed.

(** X18: The export of all tables stops exactly when some finding has the
    severity error.  Otherwise its CSV files are those of the tables that
    hold a row, each named after its table and holding its CSV text, and
    there is at least one of them whenever the export is enabled. *)
Theorem X18_exportAll_files :
  forall st : AppState,
    (exportAll st = None <->
     exists e, In e (st_validationErrors st) /\ ve_severity e = error) /\
    forall files : list (string * string),
      exportAll st = Some files ->
      (forall name text,
         In (name, text) files <->
         exists tableName rows,
           In (tableName, rows) (st_data st) /\ rows <> [] /\
           name = tableName ++ "_cleaned.csv" /\ csvContent rows = Some text) /\
      (canExport st = true -> files <> []).
Proof.
  intros st. unfold exportAll, getCriticalErrors.
  destruct (filter isError (st_validationErrors st)) as [|e0 es] eqn:Hf.
  - change (0 <? List.length (@nil ValidationError)) with false. cbv iota. split.
    + split; [discriminate|]. intros (e & Hin & Hsev). exfalso.
      assert (H : In e (filter isError (st_validationErrors st))).
      { apply filter_In. split; [exact Hin|]. unfold isError. now rewrite Hsev. }
      rewrite Hf in H. contradiction.
    + intros files H. injection H as <-.
      split; [apply In_csvFiles|].
      intros Hcan. unfold canExport in Hcan. apply andb_true_iff in Hcan.
      destruct Hcan as [Htot _]. apply Nat.ltb_lt in Htot.
      destruct (some_table_has_rows _ Htot) as (t & rows & Hin & Hne).
      destruct rows as [|row rows]; [contradiction|].
      intros Hnil.
      assert (Hx : In (t ++ "_cleaned.csv",
                       join newline
                         (join "," (map fst row)
                          :: map (fun r => join "," (map (csvField r) (map fst row)))
                                 (row :: rows)))
                      (csvFiles (st_data st))).
      { apply In_csvFiles. exists t, (row :: rows).
        repeat split; [exact Hin|discriminate]. }
      rewrite Hnil in Hx. contradiction.
  - change (0 <? List.length (e0 :: es)) with true. cbv iota.
    split; [|discriminate]. split; [|reflexivity]. intros _.
    exists e0. assert (H : In e0 (filter isError (st_validationErrors st)))
      by (rewrite Hf; now left).
    apply filter_In in H. destruct H as [Hin Hs]. split; [exact Hin|].
    unfold isError in Hs. destruct (ve_severity e0); [reflexivity|discriminate..].
Qed.

Lemma X18_clean_export_witness :
  canExport cleanState = true /\
  exists files : list (string * string),
    exportAll cleanState = Some files /\ files <> [].
Proof.
  assert (H : canExport cleanState = true) by reflexivity.
  split; [exact H|].
  destruct (exportAll cleanState) as [files|] eqn:E; [|vm_compute in E; discriminate].
  exists files. split; [reflexivity|].
  exact (proj2 (proj2 (X18_exportAll_files cleanState) files E) H).
Defined.

(** ** Reading back an exported table *)

(** *** Strings *)

Lemma replaceAll_absent :
  forall (c : ascii) (by_ s : string),
    allS (isNot c) s = true -> replaceAll c by_ s = s.
Proof.
  intros c by_ s. induction s as [|d s IH]; intros H; cbn; [reflexivity|].
  cbn in H. apply andb_true_iff in H. destruct H as [Hd Hs].
  unfold isNot in Hd. destruct (Ascii.eqb d c); [discriminate|].
  now rewrite IH.
Qed.

Lemma includes_char :
  forall (c : ascii) (s : string),
    includes s (String c "") = false -> allS (isNot c) s = true.
Proof.
  intros c s. induction s as [|d s IH]; intros H; [reflexivity|].
  cbn [includes] in H. apply orb_false_iff in H. destruct H as [Hp Hs].
  cbn [allS]. rewrite (IH Hs), andb_true_r. unfold isNot.
  cbn in Hp. destruct (ascii_dec c d) as [->|Hne].
  - destruct s; discriminate.
  - destruct (Ascii.eqb_spec d c); [congruence|reflexivity].
Qed.

Lemma split_plain :
  forall (sep : ascii) (x : string),
    allS (isNot sep) x = true -> split sep x = [x].
Proof.
  intros sep x. induction x as [|c x IH]; intros H; [reflexivity|].
  cbn in H. apply andb_true_iff in H. destruct H as [Hc Hx].
  cbn [split]. unfold isNot in Hc. destruct (Ascii.eqb c sep); [discriminate|].
  now rewrite (IH Hx).
Qed.

Lemma split_join :
  forall (sep : ascii) (l : list string) (x : string),
    Forall (fun s => allS (isNot sep) s = true) (x :: l) ->
    split sep (join (String sep "") (x :: l)) = x :: l.
Proof.
  intros sep l. induction l as [|y l IH]; intros x H.
  - inversion H; subst. now apply split_plain.
  - inversion H as [|? ? Hx Hl]; subst.
    change (join (String sep "") (x :: y :: l))
      with (x ++ String sep (join (String sep "") (y :: l))).
    rewrite split_app_sep by exact Hx.
    now rewrite (IH y Hl).
Qed.

Lemma lastChar_app :
  forall a b : string, b <> "" -> lastChar (a ++ b) = lastChar b.
Proof.
  intros a b Hb. induction a as [|c a IH]; [reflexivity|].
  cbn [append lastChar]. rewrite IH.
  destruct (a ++ b) eqn:E; [|reflexivity].
  destruct a; destruct b; try discriminate. congruence.
Qed.

Lemma lastChar_snoc :
  forall (s : string) (c : ascii),
    lastChar s = Some c -> exists a, s = a ++ String c "".
Proof.
  induction s as [|d s IH]; intros c H; [discriminate|].
  destruct s as [|e s].
  - inversion H; subst. now exists "".
  - destruct (IH c H) as [a Ha]. exists (String d a). cbn. now rewrite <- Ha.
Qed.

Lemma trimEnd_lastChar :
  forall (s : string) (c : ascii),
    lastChar s = Some c -> isWhiteSpace c = false -> trimEnd s = s.
Proof.
  intros s c H Hc. destruct (lastChar_snoc s c H) as [a ->].
  now apply trimEnd_app_last.
Qed.

Lemma trimEnd_fixed_lastChar :
  forall s : string,
    trimEnd s = s -> s <> "" ->
    exists c, lastChar s = Some c /\ isWhiteSpace c = false.
Proof.
  induction s as [|d s IH]; intros H Hne; [congruence|].
  cbn [trimEnd] in H. destruct s as [|e s].
  - cbn in H. exists d. split; [reflexivity|].
    destruct (isWhiteSpace d); [discriminate|reflexivity].
  - destruct (trimEnd (String e s)) as [|e' s'] eqn:E.
    + destruct (isWhiteSpace d); discriminate.
    + injection H as -> ->. destruct IH as (c & Hc & Hw); [reflexivity|discriminate|].
      exists c. split; [exact Hc|exact Hw].
Qed.

Lemma trim_fixed :
  forall s : string, trim s = s -> trimStart s = s /\ trimEnd s = s.
Proof.
  intros s H.
  assert (Hs : trimStart s = s).
  { apply trimStart_id. rewrite <- H. unfold trim.
    apply trimEnd_head, trimStart_head. }
  split; [exact Hs|]. unfold trim in H. now rewrite Hs in H.
Qed.

(** *** One line *)

Lemma scanLine_cons :
  forall (char : ascii) (rest : string) (values : list string) (current : string)
         (inQuotes : bool),
    scanLine (String char rest) values current inQuotes
    = if Ascii.eqb char dquote then scanLine rest values current (negb inQuotes)
      else if Ascii.eqb char "," && negb inQuotes
      then scanLine rest (values ++ [unquote current])%list "" inQuotes
      else scanLine rest values (current ++ String char "") inQuotes.
Proof. reflexivity. Qed.

Lemma isNot_eqb :
  forall c d : ascii, isNot c d = true -> Ascii.eqb d c = false.
Proof. intros c d H. unfold isNot in H. now destruct (Ascii.eqb d c). Qed.

Lemma scanLine_chars :
  forall (s rest : string) (values : list string) (current : string)
         (inQuotes : bool),
    allS (isNot dquote) s = true ->
    (inQuotes = false -> allS (isNot ",") s = true) ->
    scanLine (s ++ rest) values current inQuotes
    = scanLine rest values (current ++ s) inQuotes.
Proof.
  induction s as [|c s IH]; intros rest values current inQuotes Hq Hc.
  - cbn [append]. now rewrite string_app_nil_r.
  - cbn [allS] in Hq. apply andb_true_iff in Hq. destruct Hq as [Hq1 Hq2].
    cbn [append]. rewrite scanLine_cons, (isNot_eqb _ _ Hq1).
    assert (Hb : Ascii.eqb c "," && negb inQuotes = false).
    { destruct inQuotes; [apply andb_false_r|].
      specialize (Hc eq_refl). cbn [allS] in Hc. apply andb_true_iff in Hc.
      destruct Hc as [Hc _]. now rewrite (isNot_eqb _ _ Hc). }
    rewrite Hb, IH.
    + now rewrite string_app_assoc.
    + exact Hq2.
    + intros Hi. specialize (Hc Hi). cbn [allS] in Hc.
      apply andb_true_iff in Hc. tauto.
Qed.

Lemma scanLine_field :
  forall (s rest : string) (values : list string),
    allS (isNot dquote) s = true ->
    scanLine (fieldOf s ++ rest) values "" false = scanLine rest values s false.
Proof.
  intros s rest values Hq. unfold fieldOf.
  destruct (includes s ",") eqn:Hi.
  - unfold DQ. rewrite !string_app_assoc. cbn [append].
    rewrite scanLine_cons, Ascii.eqb_refl. cbn [negb].
    rewrite scanLine_chars by (try exact Hq; discriminate).
    rewrite scanLine_cons, Ascii.eqb_refl. reflexivity.
  - rewrite scanLine_chars; [reflexivity|exact Hq|].
    intros _. now apply includes_char.
Qed.

Lemma plainText_parts :
  forall s, plainText s = true ->
    allS (isNot dquote) s = true /\ allS (isNot (chr 10)) s = true /\ trim s = s.
Proof.
  intros s H. unfold plainText in H.
  apply andb_true_iff in H. destruct H as [H H3].
  apply andb_true_iff in H. destruct H as [H1 H2].
  apply String.eqb_eq in H3. auto.
Qed.

Lemma unquote_plain : forall s, plainText s = true -> unquote s = s.
Proof.
  intros s H. apply plainText_parts in H. destruct H as (H1 & _ & H3).
  unfold unquote. rewrite H3. now apply replaceAll_absent.
Qed.

Lemma scanLine_fields :
  forall (cells : list string) (cell : string) (values : list string),
    Forall (fun s => plainText s = true) (cell :: cells) ->
    let '(vs, current) :=
      scanLine (join "," (map fieldOf (cell :: cells))) values "" false in
    (vs ++ [unquote current])%list = (values ++ cell :: cells)%list.
Proof.
  induction cells as [|next cells IH]; intros cell values H;
    inversion H as [|? ? Hc Hr]; subst.
  - cbn [map join concat].
    rewrite <- (string_app_nil_r (fieldOf cell)).
    rewrite scanLine_field by (apply plainText_parts in Hc; tauto).
    cbn [scanLine]. now rewrite unquote_plain.
  - change (join "," (map fieldOf (cell :: next :: cells)))
      with (fieldOf cell ++ String "," (join "," (map fieldOf (next :: cells)))).
    rewrite scanLine_field by (apply plainText_parts in Hc; tauto).
    rewrite scanLine_cons. change (Ascii.eqb "," dquote) with false. cbv iota.
    rewrite Ascii.eqb_refl. cbn [andb negb].
    rewrite (unquote_plain cell Hc).
    specialize (IH next (values ++ [cell])%list Hr).
    destruct (scanLine _ _ _ _) as [vs current].
    rewrite IH, <- app_assoc. reflexivity.
Qed.

Lemma lineValues_fields :
  forall (cells : list string) (cell : string),
    Forall (fun s => plainText s = true) (cell :: cells) ->
    lineValues (join "," (map fieldOf (cell :: cells))) = cell :: cells.
Proof.
  intros cells cell H. unfold lineValues.
  pose proof (scanLine_fields cells cell [] H) as Hs.
  destruct (scanLine _ _ _ _) as [vs current]. exact Hs.
Qed.

(** *** One row *)

Lemma setField_fresh :
  forall (row : DataRow) (k : string) (v : value),
    ~ In k (map fst row) -> setField row k v = (row ++ [(k, v)])%list.
Proof.
  induction row as [|[k0 w] row IH]; intros k v H; [reflexivity|].
  cbn [setField]. cbn [map fst In] in H.
  destruct (String.eqb_spec k0 k) as [E|_]; [tauto|].
  cbn [app]. f_equal. apply IH. tauto.
Qed.

Lemma parseLine_fold :
  forall (values : list string) (hs : list string) (a : nat) (acc : DataRow),
    NoDup hs ->
    (forall h, In h hs -> ~ In h (map fst acc) /\ h <> "__proto__") ->
    fold_left
      (fun (row : DataRow) (ih : nat * string) =>
         assignField row (snd ih) (VStr (valueAt values (fst ih))))
      (combine (seq a (List.length hs)) hs) acc
    = (acc ++ map (fun ih : nat * string =>
                     (snd ih, VStr (valueAt values (fst ih))))
                  (combine (seq a (List.length hs)) hs))%list.
Proof.
  intros values hs. induction hs as [|h hs IH]; intros a acc Hnd Hfresh.
  - cbn. now rewrite app_nil_r.
  - cbn [List.length seq combine fold_left map fst snd].
    inversion Hnd as [|? ? Hn Hnd']; subst.
    destruct (Hfresh h (or_introl eq_refl)) as [Hh Hp].
    unfold assignField at 2.
    destruct (String.eqb_spec h "__proto__") as [E|_]; [contradiction|].
    rewrite (setField_fresh acc h _ Hh), IH.
    + now rewrite <- app_assoc.
    + exact Hnd'.
    + intros h' Hh'. destruct (Hfresh h' (or_intror Hh')) as [H1 H2].
      split; [|exact H2]. rewrite map_app, in_app_iff. cbn.
      intros [H|[H|[]]]; [tauto|]. subst. contradiction.
Qed.

Lemma row_rebuilt :
  forall row : DataRow,
    Forall (fun kv : string * value => exists s, snd kv = VStr s) row ->
    map (fun ih : nat * string =>
           (snd ih, VStr (valueAt (map cellText row) (fst ih))))
        (indexed (map fst row))
    = row.
Proof.
  intros row H. apply nth_error_ext. intros i.
  rewrite nth_error_map, nth_error_indexed, nth_error_map.
  destruct (nth_error row i) as [[k v]|] eqn:E; [|reflexivity].
  cbn [option_map fst snd]. unfold valueAt. rewrite nth_error_map, E.
  cbn [option_map]. rewrite Forall_forall in H.
  destruct (H (k, v) (nth_error_In _ _ E)) as [s Hs]. cbn [snd] in Hs. subst v.
  unfold cellText. cbn [snd toString]. destruct s; reflexivity.
Qed.

Lemma parseLine_fields :
  forall row : DataRow,
    NoDup (map fst row) ->
    Forall (fun h => plainHeader h = true) (map fst row) ->
    Forall (fun kv : string * value =>
              exists s, snd kv = VStr s /\ plainText s = true) row ->
    row <> [] ->
    parseLine (map fst row) (join "," (map (fun kv => fieldOf (cellText kv)) row))
    = row.
Proof.
  intros row Hnd Hh Hc Hne. unfold parseLine. cbv zeta.
  assert (Hv : lineValues (join "," (map (fun kv => fieldOf (cellText kv)) row))
               = map cellText row).
  { destruct row as [|kv row]; [congruence|].
    rewrite <- (map_map cellText fieldOf). cbn [map].
    apply lineValues_fields.
    change (cellText kv :: map cellText row) with (map cellText (kv :: row)).
    apply Forall_forall. intros s Hs. apply in_map_iff in Hs.
    destruct Hs as [kv' [<- Hin]]. rewrite Forall_forall in Hc.
    destruct (Hc kv' Hin) as [s [Hs Hp]]. unfold cellText. now rewrite Hs. }
  rewrite Hv. unfold indexed. rewrite parseLine_fold.
  - cbn [app]. apply row_rebuilt.
    eapply Forall_impl; [|exact Hc]. intros kv [s [Hs _]]. now exists s.
  - exact Hnd.
  - intros h Hin. split; [intros []|].
    rewrite Forall_forall in Hh. specialize (Hh h Hin).
    unfold plainHeader in Hh. apply andb_true_iff in Hh. destruct Hh as [_ Hh].
    destruct (String.eqb_spec h "__proto__"); [discriminate|assumption].
Qed.

(** [row[k]] on a row with distinct keys. *)
Lemma getField_NoDup :
  forall (row : DataRow) (kv : string * value),
    NoDup (map fst row) -> In kv row -> getField row (fst kv) = snd kv.
Proof.
  induction row as [|[k0 w] row IH]; intros kv Hnd Hin; [contradiction|].
  inversion Hnd as [|? ? Hn Hnd']; subst. cbn [getField].
  destruct Hin as [<-|Hin].
  - cbn. now rewrite String.eqb_refl.
  - destruct (String.eqb_spec k0 (fst kv)) as [E|_].
    + exfalso. apply Hn. rewrite E. now apply in_map.
    + now apply IH.
Qed.

Lemma csvField_plain :
  forall (row : DataRow) (kv : string * value),
    NoDup (map fst row) -> In kv row ->
    (exists s, snd kv = VStr s /\ plainText s = true) ->
    csvField row (fst kv) = fieldOf (cellText kv).
Proof.
  intros row kv Hnd Hin [s [Hs Hp]]. unfold csvField, cellText.
  rewrite (getField_NoDup row kv Hnd Hin), Hs. cbn [truthy toString].
  assert (Ht : toString (if negb (isEmpty s) then VStr s else VStr "") = s).
  { destruct s; reflexivity. }
  rewrite Ht. unfold fieldOf.
  apply plainText_parts in Hp. destruct Hp as (Hq & _).
  now rewrite (replaceAll_absent dquote _ s Hq).
Qed.

Lemma csvLine_plain :
  forall row : DataRow,
    NoDup (map fst row) ->
    Forall (fun kv : string * value =>
              exists s, snd kv = VStr s /\ plainText s = true) row ->
    map (csvField row) (map fst row) = map (fun kv => fieldOf (cellText kv)) row.
Proof.
  intros row Hnd Hc. rewrite map_map. apply map_ext_in. intros kv Hin.
  rewrite Forall_forall in Hc. now apply csvField_plain; [| |apply Hc].
Qed.

(** *** The whole text *)

Lemma lastChar_nonempty :
  forall s : string, s <> "" -> lastChar s <> None.
Proof.
  induction s as [|c s IH]; intros H; [congruence|].
  destruct s as [|d s]; [discriminate|]. apply IH. discriminate.
Qed.

Lemma lastChar_join :
  forall (sep : string) (l : list string) (x : string),
    last (x :: l) "" <> "" ->
    lastChar (join sep (x :: l)) = lastChar (last (x :: l) "").
Proof.
  intros sep l. induction l as [|y l IH]; intros x H; [reflexivity|].
  change (join sep (x :: y :: l)) with (x ++ sep ++ join sep (y :: l)).
  change (last (x :: y :: l) "") with (last (y :: l) "") in *.
  specialize (IH y H).
  assert (Hj : join sep (y :: l) <> "").
  { intros E. rewrite E in IH. cbn in IH. symmetry in IH.
    now apply (lastChar_nonempty _ H). }
  rewrite lastChar_app, lastChar_app; [exact IH|exact Hj|].
  destruct sep; [exact Hj|discriminate].
Qed.

Lemma last_map :
  forall (A B : Type) (f : A -> B) (l : list A) (x d : A) (d' : B),
    last (map f (x :: l)) d' = f (last (x :: l) d).
Proof.
  intros A B f l. induction l as [|y l IH]; intros x d d'; [reflexivity|].
  change (last (map f (x :: y :: l)) d') with (last (map f (y :: l)) d').
  change (last (x :: y :: l) d) with (last (y :: l) d). apply IH.
Qed.

Lemma last_cons_default :
  forall (A : Type) (l : list A) (x d : A), last (x :: l) d = last l x.
Proof.
  intros A l. induction l as [|y l IH]; intros x d; [reflexivity|].
  change (last (x :: y :: l) d) with (last (y :: l) d).
  rewrite IH. symmetry. apply IH.
Qed.

Lemma fieldOf_lastChar :
  forall s : string,
    plainText s = true -> fieldOf s <> "" ->
    exists c, lastChar (fieldOf s) = Some c /\ isWhiteSpace c = false.
Proof.
  intros s Hp Hne. unfold fieldOf in *. destruct (includes s ",").
  - exists dquote. split; [|reflexivity].
    rewrite <- string_app_assoc. now rewrite lastChar_app.
  - apply trimEnd_fixed_lastChar; [|exact Hne].
    apply plainText_parts in Hp. destruct Hp as (_ & _ & Ht).
    now apply trim_fixed.
Qed.

Lemma fieldOf_no_newline :
  forall s : string,
    plainText s = true -> allS (isNot (chr 10)) (fieldOf s) = true.
Proof.
  intros s Hp. apply plainText_parts in Hp. destruct Hp as (_ & Hn & _).
  unfold fieldOf. destruct (includes s ","); [|exact Hn].
  rewrite !allS_app, Hn. reflexivity.
Qed.

Lemma plainHeader_parts :
  forall h, plainHeader h = true ->
    plainText h = true /\ allS (isNot ",") h = true /\ h <> "".
Proof.
  intros h H. unfold plainHeader in H.
  apply andb_true_iff in H. destruct H as [H _].
  apply andb_true_iff in H. destruct H as [H H3].
  apply andb_true_iff in H. destruct H as [H1 H2].
  repeat split; try assumption. intros ->. discriminate.
Qed.

Lemma In_last :
  forall (A : Type) (l : list A) (x : A), In (last l x) (x :: l).
Proof.
  intros A l. induction l as [|y l IH]; intros x; [now left|].
  rewrite last_cons_default. right. apply IH.
Qed.

Lemma join_head :
  forall (sep : string) (c : ascii) (r : string) (l : list string),
    exists t, join sep (String c r :: l) = String c t.
Proof.
  intros sep c r [|y l].
  - now exists r.
  - exists (r ++ sep ++ join sep (y :: l)). reflexivity.
Qed.

Lemma csvContent_lines :
  forall (first : DataRow) (rest : list DataRow),
    csvContent (first :: rest)
    = Some (join newline
              (join "," (map fst first)
               :: map (lineOf (map fst first)) (first :: rest))).
Proof. reflexivity. Qed.

(** X19: A table of plain texts survives the export to CSV followed by the
    reader of the sample loader.  Plain means: the column names are
    distinct, not empty and free of commas; every row has exactly these
    columns, in order; names and cells hold no double quote, no line feed
    and no white space at either end (a cell may hold commas); and the last
    cell of the last row is not empty. *)
Theorem X19_csv_round_trip :
  forall (first : DataRow) (rest : list DataRow) (text : string),
    NoDup (map fst first) ->
    Forall (fun h => plainHeader h = true) (map fst first) ->
    Forall (textRow (map fst first)) (first :: rest) ->
    csvField (last rest first) (last (map fst first) "") <> "" ->
    csvContent (first :: rest) = Some text ->
    parseCSV text = first :: rest.
Proof.
  intros first rest text Hnd Hh Hrows Hlast Hcsv.
  rewrite csvContent_lines in Hcsv. injection Hcsv as <-.
  remember (map fst first) as headers eqn:Hhs.
  remember (first :: rest) as data eqn:Hdata.
  assert (Hrow : forall row, In row data ->
            map fst row = headers /\
            Forall (fun kv : string * value =>
                      exists s, snd kv = VStr s /\ plainText s = true) row).
  { intros row Hin. rewrite Forall_forall in Hrows. exact (Hrows row Hin). }
  assert (HlastIn : In (last rest first) data).
  { rewrite Hdata. apply In_last. }
  (* the line of a row, field by field *)
  assert (Hline : forall row, In row data ->
            lineOf headers row = join "," (map (fun kv => fieldOf (cellText kv)) row)).
  { intros row Hin. destruct (Hrow row Hin) as [Hk Hc]. unfold lineOf.
    rewrite <- Hk. rewrite csvLine_plain; [reflexivity| |exact Hc].
    now rewrite Hk. }
  (* there is a column *)
  destruct headers as [|h0 hs].
  { exfalso. apply Hlast. destruct (Hrow _ HlastIn) as [Hk _].
    destruct (last rest first); [reflexivity|discriminate]. }
  inversion Hh as [|? ? Hh0 Hhs']; subst.
  destruct (plainHeader_parts h0 Hh0) as (Hp0 & _ & Hne0).
  (* no line holds a line feed *)
  assert (Hnl_h : allS (isNot (chr 10)) (join "," (h0 :: hs)) = true).
  { apply allS_join; [reflexivity|]. apply Forall_forall. intros h Hin.
    rewrite Forall_forall in Hh.
    destruct (plainHeader_parts h (Hh h Hin)) as (Hp & _).
    apply plainText_parts in Hp. tauto. }
  assert (Hnl : Forall (fun s => allS (isNot (chr 10)) s = true)
                       (map (lineOf (h0 :: hs)) (first :: rest))).
  { apply Forall_forall. intros line Hin. apply in_map_iff in Hin.
    destruct Hin as [row [<- Hin]]. rewrite (Hline row Hin).
    apply allS_join; [reflexivity|]. apply Forall_forall. intros f Hf.
    apply in_map_iff in Hf. destruct Hf as [kv [<- Hkv]].
    destruct (Hrow row Hin) as [_ Hc]. rewrite Forall_forall in Hc.
    destruct (Hc kv Hkv) as [s [Hs Hp]]. unfold cellText. rewrite Hs.
    now apply fieldOf_no_newline. }
  (* the text has no white space at either end *)
  set (text := join newline
                 (join "," (h0 :: hs) :: map (lineOf (h0 :: hs)) (first :: rest))).
  assert (Htrim : trim text = text).
  { assert (Hstart : trimStart text = text).
    { apply trimStart_id. unfold text.
      destruct h0 as [|c r]; [congruence|].
      destruct (join_head "," c r hs) as [t ->].
      destruct (join_head newline c t (map (lineOf (String c r :: hs)) (first :: rest)))
        as [t' ->].
      cbn. apply plainText_parts in Hp0. destruct Hp0 as (_ & _ & Ht).
      apply trim_fixed in Ht. destruct Ht as [Ht _].
      pose proof (trimStart_head (String c r)) as Hhead.
      rewrite Ht in Hhead. exact Hhead. }
    unfold trim. rewrite Hstart.
    (* the last cell *)
    destruct (Hrow _ HlastIn) as [Hk Hc].
    destruct (last rest first) as [|kv0 lastRow] eqn:Elast; [discriminate|].
    set (row := kv0 :: lastRow) in *.
    set (kv := last row kv0).
    assert (Hkv : In kv row).
    { unfold kv, row. rewrite last_cons_default. apply In_last. }
    assert (Hfst : fst kv = last (h0 :: hs) "").
    { rewrite <- Hk. unfold kv, row. symmetry. apply last_map. }
    rewrite Forall_forall in Hc. destruct (Hc kv Hkv) as [s [Hs Hp]].
    assert (Hf : csvField row (last (h0 :: hs) "") = fieldOf s).
    { rewrite <- Hfst. rewrite (csvField_plain row kv); [|now rewrite Hk|exact Hkv|].
      - unfold cellText. now rewrite Hs.
      - now exists s. }
    rewrite Hf in Hlast.
    destruct (fieldOf_lastChar s Hp Hlast) as (c & Hc1 & Hc2).
    apply (trimEnd_lastChar text c); [|exact Hc2].
    assert (HlastLine : last (map (lineOf (h0 :: hs)) (first :: rest)) ""
                        = lineOf (h0 :: hs) row).
    { rewrite (last_map _ _ (lineOf (h0 :: hs)) rest first first "").
      now rewrite last_cons_default, Elast. }
    assert (HlastField : last (map (csvField row) (h0 :: hs)) "" = fieldOf s).
    { now rewrite (last_map _ _ (csvField row) hs h0 "" ""), Hf. }
    assert (HlineChar : lastChar (lineOf (h0 :: hs) row) = Some c).
    { unfold lineOf. cbn [map]. rewrite lastChar_join.
      - cbn [map] in HlastField. now rewrite HlastField.
      - cbn [map] in HlastField. now rewrite HlastField. }
    unfold text. rewrite lastChar_join.
    - change (last (join "," (h0 :: hs) :: map (lineOf (h0 :: hs)) (first :: rest)) "")
        with (last (map (lineOf (h0 :: hs)) (first :: rest)) "").
      now rewrite HlastLine.
    - change (last (join "," (h0 :: hs) :: map (lineOf (h0 :: hs)) (first :: rest)) "")
        with (last (map (lineOf (h0 :: hs)) (first :: rest)) "").
      rewrite HlastLine. intros E. rewrite E in HlineChar. discriminate. }
  (* reading the text *)
  change (parseCSV text = first :: rest).
  unfold parseCSV. rewrite Htrim. unfold text, newline.
  rewrite split_join by (constructor; [exact Hnl_h|exact Hnl]).
  assert (Hheaders : map unquote (split "," (join "," (h0 :: hs))) = h0 :: hs).
  { rewrite split_join.
    - rewrite <- (map_id (h0 :: hs)) at 2. apply map_ext_in. intros h Hin.
      rewrite Forall_forall in Hh.
      destruct (plainHeader_parts h (Hh h Hin)) as (Hp & _).
      now apply unquote_plain.
    - apply Forall_forall. intros h Hin.
      rewrite Forall_forall in Hh.
      destruct (plainHeader_parts h (Hh h Hin)) as (_ & Hc & _). exact Hc. }
  rewrite Hheaders. rewrite map_map.
  rewrite <- (map_id (first :: rest)) at 2. apply map_ext_in. intros row Hin.
  rewrite (Hline row Hin). destruct (Hrow row Hin) as [Hk Hc].
  rewrite <- Hk. apply parseLine_fields.
  - now rewrite Hk.
  - now rewrite Hk.
  - exact Hc.
  - intros ->. discriminate.
Qed.

Lemma X19_companies_witness :
  exists text : string,
    csvContent [acmeRow; initechRow] = Some text /\
    parseCSV text = [acmeRow; initechRow].
Proof.
  eexists. split; [reflexivity|].
  assert (H1 : NoDup (map fst acmeRow)).
  { constructor; [intros [H|[]]; discriminate|].
    constructor; [intros []|constructor]. }
  assert (H2 : Forall (fun h => plainHeader h = true) (map fst acmeRow)).
  { repeat constructor. }
  assert (H3 : Forall (textRow (map fst acmeRow)) [acmeRow; initechRow]).
  { constructor; [|constructor; [|constructor]];
      (split; [reflexivity|]);
      (constructor; [eexists; split; reflexivity|]);
      (constructor; [eexists; split; reflexivity|constructor]). }
  assert (H4 : csvField (last [initechRow] acmeRow) (last (map fst acmeRow) "") <> "")
    by discriminate.
  exact (X19_csv_round_trip acmeRow [initechRow] _ H1 H2 H3 H4 eq_refl).
Defined.

(** ** The number check *)

Lemma normalize_not_NaN :
  forall neg ip fp, isNaN (normalize neg ip fp) = false.
Proof. reflexivity. Qed.

Lemma span_head :
  forall (p : ascii -> bool) (c : ascii) (r : string),
    isEmpty (fst (span p (String c r))) = negb (p c).
Proof.
  intros p c r. cbn [span]. destruct (p c); [|reflexivity].
  destruct (span p r). reflexivity.
Qed.

Lemma span_head_rest :
  forall (p : ascii -> bool) (c : ascii) (r : string),
    p c = false -> span p (String c r) = ("", String c r).
Proof. intros p c r H. cbn [span]. now rewrite H. Qed.

Lemma strDecimalLiteral_NaN :
  forall (neg : bool) (s2 : string),
    isNaN (strDecimalLiteral neg s2) = negb (startsLiteral s2).
Proof.
  intros neg s2. unfold strDecimalLiteral, startsLiteral.
  destruct (prefix "Infinity" s2); [reflexivity|]. cbn [orb].
  destruct s2 as [|c r]; [reflexivity|].
  destruct (isDigit c) eqn:Hc.
  - pose proof (span_head isDigit c r) as Hs. rewrite Hc in Hs. cbn [negb] in Hs.
    destruct (span isDigit (String c r)) as [ip r1]. cbn [fst] in Hs.
    destruct (readFraction r1) as [fp r2]. rewrite Hs. cbn [andb orb negb].
    destruct (shift ip fp (readExponent r2)). apply normalize_not_NaN.
  - rewrite (span_head_rest isDigit c r Hc). cbn [orb readFraction].
    destruct (Ascii.eqb c ".").
    + destruct r as [|d r'].
      * reflexivity.
      * pose proof (span_head isDigit d r') as Hs.
        destruct (span isDigit (String d r')) as [fp r2]. cbn [fst] in Hs.
        cbn [isEmpty andb]. rewrite Hs.
        destruct (isDigit d); cbn [negb]; [|reflexivity].
        destruct (shift "" fp (readExponent r2)). apply normalize_not_NaN.
    + reflexivity.
Qed.

Lemma parseFloat_NaN :
  forall s : string, isNaN (parseFloat s) = negb (readsAsNumber s).
Proof.
  intros s. unfold parseFloat, readsAsNumber.
  destruct (readSign (trimStart s)) as [neg s2]. apply strDecimalLiteral_NaN.
Qed.

(** X20: On a number column the type check reports a cell exactly when its
    text does not read as a number: after leading white space and one
    optional sign it starts neither with a digit, nor with a point and a
    digit, nor with the word Infinity.  What follows the number is
    ignored. *)
Theorem X20_number_check :
  forall (v : value) (column : ColumnSchema) (index : nat) (tableName : string),
    cs_type column = TNumber ->
    (validateColumnType v column index tableName = None
     <-> readsAsNumber (toString v) = true) /\
    (forall (c : ascii) (rest : string),
       isDigit c = true ->
       validateColumnType (VStr (String c rest)) column index tableName = None).
Proof.
  intros v column index tableName Ht.
  assert (H : forall w, validateColumnType w column index tableName = None
                        <-> readsAsNumber (toString w) = true).
  { intros w. unfold validateColumnType. rewrite Ht, parseFloat_NaN.
    destruct (readsAsNumber (toString w)); cbn [negb]; split;
      try discriminate; reflexivity. }
  split; [apply H|].
  intros c rest Hc. apply H. cbn [toString].
  unfold readsAsNumber. cbn [trimStart]. rewrite (digit_not_space c Hc).
  unfold readSign.
  rewrite (digit_not c "-" Hc eq_refl), (digit_not c "+" Hc eq_refl).
  cbn [snd]. unfold startsLiteral. rewrite Hc. cbn [orb]. apply orb_true_r.
Qed.

Lemma X20_digits_first_witness :
  cs_type (qtyColumn None) = TNumber /\
  validateColumnType (VStr "12abc") (qtyColumn None) 0 "orders" = None.
Proof.
  assert (H : cs_type (qtyColumn None) = TNumber) by reflexivity.
  exact (conj H (proj2 (X20_number_check (VStr "12abc") (qtyColumn None) 0 "orders" H)
                   "1"%char "2abc" eq_refl)).
Defined.

(** ** Where a burnout finding comes from *)

Lemma burnoutError_inj :
  forall t i c t' i' c',
    burnoutError t i c = burnoutError t' i' c' -> t = t' /\ i = i' /\ c = c'.
Proof.
  intros t i c t' i' c' H. inversion H as [[Hid Hrow Hcol]]. subst.
  repeat split. eapply string_app_inv_tail. exact Hid.
Qed.

(** X21: A burnout_risk finding on a row exists only for a table classified
    as workers, on the first of its columns whose name holds load or
    capacity, and only when the cell of the row in that column is truthy and
    begins with an integer greater than eight. *)
Theorem X21_burnout_only_if :
  forall (schemas : Dict TableSchema) (data : Dict (list DataRow))
         (tableName : string) (index : nat) (column : string),
    In (burnoutError tableName index column)
       (validateAdvancedConstraints schemas data) ->
    exists (schema : TableSchema) (loadColumn : ColumnSchema) (row : DataRow)
           (load : Z),
      In (tableName, schema) schemas /\
      ts_entityType schema = workers /\
      find isLoadColumn (ts_columns schema) = Some loadColumn /\
      cs_name loadColumn = column /\
      nth_error (rowsOf data tableName) index = Some row /\
      truthy (getField row column) = true /\
      parseInt (toString (getField row column)) = Some load /\
      (8 < load)%Z.
Proof.
  intros schemas data tableName index column H.
  unfold validateAdvancedConstraints in H.
  apply in_flat_map in H. destruct H as [[t schema] [Hs H]].
  destruct (DataType_eqb (ts_entityType schema) workers) eqn:Et; [|contradiction].
  apply in_flat_map in H. destruct H as [[i row] [Hi H]].
  destruct (find isLoadColumn (ts_columns schema)) as [c|] eqn:Ef; [|contradiction].
  destruct (truthy _ && loadExceeds _) eqn:E; [|contradiction].
  destruct H as [H|[]]. apply burnoutError_inj in H. destruct H as (-> & -> & Hc).
  apply andb_true_iff in E. destruct E as [E1 E2].
  unfold loadExceeds in E2.
  destruct (parseInt (toString (getField row (cs_name c)))) as [load|] eqn:Ep;
    [|discriminate].
  exists schema, c, row, load. rewrite <- Hc.
  repeat split; try assumption.
  - destruct (ts_entityType schema); try discriminate; reflexivity.
  - now apply In_indexed.
  - now apply Z.ltb_lt.
Qed.

Lemma X21_workers_witness :
  In (burnoutError "workers" 0 "MaxLoadPerPhase")
     (validateAdvancedConstraints
        (workersSchema ["MaxLoadPerPhase"])
        [("workers", [[("MaxLoadPerPhase", VStr "12")]])]) /\
  exists (schema : TableSchema) (loadColumn : ColumnSchema) (row : DataRow)
         (load : Z),
    In ("workers", schema) (workersSchema ["MaxLoadPerPhase"]) /\
    ts_entityType schema = workers /\
    find isLoadColumn (ts_columns schema) = Some loadColumn /\
    cs_name loadColumn = "MaxLoadPerPhase" /\
    nth_error (rowsOf [("workers", [[("MaxLoadPerPhase", VStr "12")]])] "workers") 0
      = Some row /\
    truthy (getField row "MaxLoadPerPhase") = true /\
    parseInt (toString (getField row "MaxLoadPerPhase")) = Some load /\
    (8 < load)%Z.
Proof.
  assert (H : In (burnoutError "workers" 0 "MaxLoadPerPhase")
                 (validateAdvancedConstraints
                    (workersSchema ["MaxLoadPerPhase"])
                    [("workers", [[("MaxLoadPerPhase", VStr "12")]])]))
    by (vm_compute; auto).
  exact (conj H (X21_burnout_only_if _ _ _ _ _ H)).
Defined.

(** ** What the reader never returns *)

Lemma replaceAll_removes :
  forall (c : ascii) (s : string), allS (isNot c) (replaceAll c "" s) = true.
Proof.
  intros c s. induction s as [|d s IH]; [reflexivity|].
  cbn [replaceAll]. destruct (Ascii.eqb d c) eqn:E; [exact IH|].
  cbn [allS]. unfold isNot at 1. now rewrite E, IH.
Qed.

Lemma unquote_no_quote : forall s, allS (isNot dquote) (unquote s) = true.
Proof. intros s. apply replaceAll_removes. Qed.

Lemma scanLine_no_quote :
  forall (line : string) (values : list string) (current : string)
         (inQuotes : bool),
    Forall (fun s => allS (isNot dquote) s = true) values ->
    Forall (fun s => allS (isNot dquote) s = true)
           (fst (scanLine line values current inQuotes)).
Proof.
  induction line as [|c line IH]; intros values current inQuotes H; [exact H|].
  rewrite scanLine_cons. destruct (Ascii.eqb c dquote); [now apply IH|].
  destruct (Ascii.eqb c "," && negb inQuotes); [|now apply IH].
  apply IH. apply Forall_app. split; [exact H|].
  constructor; [apply unquote_no_quote|constructor].
Qed.

Lemma lineValues_no_quote :
  forall line : string,
    Forall (fun s => allS (isNot dquote) s = true) (lineValues line).
Proof.
  intros line. unfold lineValues.
  pose proof (scanLine_no_quote line [] "" false (Forall_nil _)) as H.
  destruct (scanLine line [] "" false) as [values current]. cbn [fst] in H.
  apply Forall_app. split; [exact H|].
  constructor; [apply unquote_no_quote|constructor].
Qed.

Lemma valueAt_no_quote :
  forall (values : list string) (index : nat),
    Forall (fun s => allS (isNot dquote) s = true) values ->
    allS (isNot dquote) (valueAt values index) = true.
Proof.
  intros values index H. unfold valueAt.
  destruct (nth_error values index) as [s|] eqn:E; [|reflexivity].
  destruct (isEmpty s); [reflexivity|].
  rewrite Forall_forall in H. apply H. eapply nth_error_In, E.
Qed.

Lemma In_setField :
  forall (row : DataRow) (k : string) (v : value) (kv : string * value),
    In kv (setField row k v) -> In kv row \/ kv = (k, v).
Proof.
  induction row as [|[k0 w] row IH]; intros k v kv H.
  - destruct H as [<-|[]]. now right.
  - cbn [setField] in H. destruct (String.eqb_spec k0 k) as [->|_].
    + destruct H as [<-|H]; [now right|left; now right].
    + destruct H as [<-|H]; [left; now left|].
      destruct (IH k v kv H) as [H'|H']; [left; now right|now right].
Qed.

Lemma parseLine_cells :
  forall (values : list string) (cells : list (nat * string)) (acc : DataRow)
         (kv : string * value),
    In kv (fold_left
             (fun (row : DataRow) (ih : nat * string) =>
                assignField row (snd ih) (VStr (valueAt values (fst ih))))
             cells acc) ->
    In kv acc \/
    exists ih, In ih cells /\ kv = (snd ih, VStr (valueAt values (fst ih))).
Proof.
  intros values cells. induction cells as [|ih cells IH]; intros acc kv H.
  - now left.
  - cbn [fold_left] in H. apply IH in H. destruct H as [H|[ih' [Hin ->]]].
    + unfold assignField in H. destruct (String.eqb (snd ih) "__proto__").
      * now left.
      * apply In_setField in H. destruct H as [H| ->]; [now left|].
        right. exists ih. split; [now left|reflexivity].
    + right. exists ih'. split; [now right|reflexivity].
Qed.

(** X22: Whatever the text, the reader of the sample loader returns one row
    for each line after the first, and in each row every key is a column
    name of the first line and every cell is a text without any double
    quote: a quote inside a field is never kept. *)
Theorem X22_parseCSV_cells :
  forall text : string,
    List.length (parseCSV text)
      = List.length (split (chr 10) (trim text)) - 1 /\
    forall (row : DataRow) (kv : string * value),
      In row (parseCSV text) -> In kv row ->
      In (fst kv)
         (map unquote (split "," (hd "" (split (chr 10) (trim text))))) /\
      exists s, snd kv = VStr s /\ allS (isNot dquote) s = true.
Proof.
  intros text. unfold parseCSV.
  destruct (split (chr 10) (trim text)) as [|first rest].
  - split; [reflexivity|]. intros row kv [].
  - cbn [hd]. split; [rewrite length_map; cbn [List.length]; lia|].
    intros row kv Hrow Hkv. apply in_map_iff in Hrow.
    destruct Hrow as [line [<- _]]. unfold parseLine in Hkv. cbv zeta in Hkv.
    apply parseLine_cells in Hkv. destruct Hkv as [[]|[ih [Hin ->]]].
    cbn [fst snd]. split.
    + destruct ih as [i h]. apply In_indexed in Hin. cbn [snd].
      eapply nth_error_In, Hin.
    + eexists. split; [reflexivity|].
      apply valueAt_no_quote, lineValues_no_quote.
Qed.

Lemma X22_quoted_witness :
  In [("a", VStr "x"); ("b", VStr "yz")] (parseCSV quotedText) /\
  In ("b", VStr "yz") [("a", VStr "x"); ("b", VStr "yz")] /\
  In "b" (map unquote (split "," (hd "" (split (chr 10) (trim quotedText))))) /\
  exists s, VStr "yz" = VStr s /\ allS (isNot dquote) s = true.
Proof.
  assert (H1 : In [("a", VStr "x"); ("b", VStr "yz")] (parseCSV quotedText))
    by (vm_compute; auto).
  assert (H2 : In ("b", VStr "yz") [("a", VStr "x"); ("b", VStr "yz")])
    by (right; left; reflexivity).
  exact (conj H1 (conj H2
           (proj2 (X22_parseCSV_cells quotedText) _ ("b", VStr "yz") H1 H2))).
Defined.

(** ** Several fixes in one event *)

Lemma updateDataFrom_same :
  forall st tableName rowIndex field v,
    updateDataFrom st st tableName rowIndex field v
    = updateData st tableName rowIndex field v.
Proof.
  intros st tableName rowIndex field v. unfold updateDataFrom, updateData.
  destruct (lookup (st_data st) tableName) as [rows|]; [|reflexivity].
  destruct (lookup (st_schemas st) tableName) as [schema|]; [|reflexivity].
  reflexivity.
Qed.

Lemma fixesOnly_refl :
  forall st errors, fixesOnly st errors st.
Proof.
  intros st errors. split; [reflexivity|]. split; [reflexivity|].
  intros tableName index.
  destruct (nth_error (rowsOf (st_data st) tableName) index); [|exact I].
  intros column. now left.
Qed.

Lemma rowsOf_assign_same :
  forall (d : Dict (list DataRow)) (k : string) (rows : list DataRow),
    rowsOf (assign d k rows) k = rows.
Proof. intros. unfold rowsOf. now rewrite lookup_assign_same. Qed.

Lemma rowsOf_assign_other :
  forall (d : Dict (list DataRow)) (k k' : string) (rows : list DataRow),
    k' <> k -> rowsOf (assign d k rows) k' = rowsOf d k'.
Proof. intros. unfold rowsOf. now rewrite lookup_assign_other. Qed.

Lemma applyAutoFixFrom_fixesOnly :
  forall (st pending pending' : AppState) (errors : list ValidationError)
         (e : ValidationError),
    In e errors -> ve_autoFixable e = true ->
    fixesOnly st errors pending ->
    applyAutoFixFrom st pending e = Some pending' ->
    fixesOnly st errors pending'.
Proof.
  intros st pending pending' errors e Hin Hfix (Hs & Hk & Hcells) H.
  unfold applyAutoFixFrom in H.
  destruct (fixedValue (st_schemas st) e) as [v|] eqn:Ev;
    [|injection H as <-; repeat split; assumption].
  unfold updateDataFrom in H.
  destruct (lookup (st_data pending) (tableOfId (ve_id e))) as [prevRows|] eqn:Ep;
    [|discriminate].
  cbv zeta in H.
  assert (Hdata : st_data pending'
                  = assign (st_data pending) (tableOfId (ve_id e))
                      (updateRow prevRows (ve_row e) (ve_column e) v)
                  /\ st_schemas pending' = st_schemas pending).
  { destruct (lookup (st_schemas st) (tableOfId (ve_id e))).
    - destruct (lookup (st_data st) (tableOfId (ve_id e))); [|discriminate].
      injection H as <-. split; reflexivity.
    - injection H as <-. split; reflexivity. }
  destruct Hdata as [Hd Hsch]. clear H.
  split; [congruence|]. split.
  { rewrite Hd, (assign_keys _ _ _ _ prevRows Ep). exact Hk. }
  intros tableName index. specialize (Hcells tableName index). rewrite Hd.
  destruct (String.eqb_spec tableName (tableOfId (ve_id e))) as [->|Hne].
  - rewrite rowsOf_assign_same, nth_error_updateRow_any.
    replace (rowsOf (st_data pending) (tableOfId (ve_id e))) with prevRows in Hcells
      by (unfold rowsOf; now rewrite Ep).
    destruct (nth_error prevRows index) as [prev|]; cbn [option_map];
      destruct (nth_error (rowsOf (st_data st) (tableOfId (ve_id e))) index)
        as [row|]; try exact Hcells.
    intros column. destruct (Nat.eqb_spec index (ve_row e)) as [->|Hi];
      [|apply Hcells].
    destruct (String.eqb_spec column (ve_column e)) as [->|Hc].
    + right. rewrite getField_setField_same. exists e. repeat split; assumption.
    + rewrite getField_setField_other by exact Hc. apply Hcells.
  - rewrite rowsOf_assign_other by exact Hne. exact Hcells.
Qed.

Lemma fold_fixes :
  forall (st : AppState) (errors todo : list ValidationError)
         (pending st' : AppState),
    (forall e, In e todo -> In e errors /\ ve_autoFixable e = true) ->
    fixesOnly st errors pending ->
    fold_left
      (fun (acc : option AppState) (e : ValidationError) =>
         match acc with
         | Some p => applyAutoFixFrom st p e
         | None => None
         end) todo (Some pending) = Some st' ->
    fixesOnly st errors st'.
Proof.
  intros st errors todo. induction todo as [|e todo IH]; intros pending st' Hall Hinv H.
  - cbn in H. injection H as <-. exact Hinv.
  - cbn [fold_left] in H.
    destruct (applyAutoFixFrom st pending e) as [p|] eqn:E.
    + apply (IH p st'); [intros x Hx; apply Hall; now right| |exact H].
      destruct (Hall e (or_introl eq_refl)) as [H1 H2].
      exact (applyAutoFixFrom_fixesOnly st pending p errors e H1 H2 Hinv E).
    + exfalso. clear -H. induction todo as [|x todo IH]; [discriminate|].
      cbn [fold_left] in H. exact (IH H).
Qed.

(** X23: Applying all automatic fixes in one event leaves the schemas, the
    table names and the number of rows of every table as they were, and
    changes a cell only to the fix value of an auto-fixable finding of the
    list for that very table, row and column. *)
Theorem X23_applyAllAutoFixes_cells :
  forall st st' : AppState,
    applyAllAutoFixes st = Some st' ->
    st_schemas st' = st_schemas st /\
    map fst (st_data st') = map fst (st_data st) /\
    forall tableName index,
      match nth_error (rowsOf (st_data st') tableName) index,
            nth_error (rowsOf (st_data st) tableName) index with
      | Some row', Some row =>
          forall column,
            getField row' column = getField row column \/
            fixedCell st (st_validationErrors st) tableName index column
                      (getField row' column)
      | None, None => True
      | _, _ => False
      end.
Proof.
  intros st st' H. unfold applyAllAutoFixes in H.
  apply (fold_fixes st (st_validationErrors st)
           (filter ve_autoFixable (st_validationErrors st)) st st');
    [|apply fixesOnly_refl|exact H].
  intros e He. apply filter_In in He. exact He.
Qed.

Lemma X23_checked_order_witness :
  exists st' : AppState,
    applyAllAutoFixes checkedOrder = Some st' /\
    st_schemas st' = st_schemas checkedOrder /\
    map fst (st_data st') = map fst (st_data checkedOrder).
Proof.
  destruct (applyAllAutoFixes checkedOrder) as [st'|] eqn:E;
    [|vm_compute in E; discriminate].
  exists st'. split; [reflexivity|].
  destruct (X23_applyAllAutoFixes_cells checkedOrder st' E) as (H1 & H2 & _).
  exact (conj H1 H2).
Defined.

(** ** The export of one table *)

Lemma lookup_Some_In :
  forall (A : Type) (d : Dict A) (k : string) (v : A),
    lookup d k = Some v -> In (k, v) d.
Proof.
  intros A d k v. induction d as [|[k0 w] d IH]; cbn; [discriminate|].
  destruct (String.eqb_spec k0 k) as [->|_].
  - intros H. injection H as ->. now left.
  - intros H. right. now apply IH.
Qed.

(** X24: The export of one table fails exactly when the table is not loaded
    or holds no row, whatever the findings.  Otherwise it downloads one
    file, the one that the export of all tables, when it runs, downloads
    for that table. *)
Theorem X24_exportSingle_file :
  forall (st : AppState) (tableName : string),
    (exportSingle st tableName = None <-> rowsOf (st_data st) tableName = []) /\
    forall single : list (string * string),
      exportSingle st tableName = Some single ->
      exists text : string,
        csvContent (rowsOf (st_data st) tableName) = Some text /\
        single = [(tableName ++ "_cleaned.csv", text)] /\
        forall files, exportAll st = Some files ->
                      In (tableName ++ "_cleaned.csv", text) files.
Proof.
  intros st tableName. unfold exportSingle, rowsOf.
  destruct (lookup (st_data st) tableName) as [rows|] eqn:El.
  - destruct rows as [|row rows].
    + cbn. split; [tauto|discriminate].
    + change (List.length (row :: rows) =? 0) with false. cbv iota.
      split; [split; discriminate|].
      intros single H. injection H as <-. unfold downloadCSV.
      rewrite csvContent_lines. eexists. split; [reflexivity|].
      split; [reflexivity|].
      intros files Hall. unfold exportAll in Hall.
      destruct (0 <? getCriticalErrors (st_validationErrors st)); [discriminate|].
      injection Hall as <-. apply In_csvFiles.
      exists tableName, (row :: rows).
      split; [now apply lookup_Some_In|]. split; [discriminate|].
      split; [reflexivity|apply csvContent_lines].
  - split; [tauto|discriminate].
Qed.

Lemma X24_clients_file_witness :
  exists (single : list (string * string)) (text : string),
    exportSingle cleanState "clients" = Some single /\
    csvContent (rowsOf (st_data cleanState) "clients") = Some text /\
    single = [("clients_cleaned.csv", text)].
Proof.
  destruct (exportSingle cleanState "clients") as [single|] eqn:E;
    [|vm_compute in E; discriminate].
  destruct (proj2 (X24_exportSingle_file cleanState "clients") single E)
    as (text & H1 & H2 & _).
  exists single, text. split; [reflexivity|]. exact (conj H1 H2).
Defined.

(** ** An edit that changes nothing *)

Lemma csvField_startEdit :
  forall (row : DataRow) (column header : string),
    csvField (setField row column (VStr (startEdit (getField row column)))) header
    = csvField row header.
Proof.
  intros row column header. unfold csvField.
  destruct (String.eqb_spec header column) as [->|Hne].
  - rewrite getField_setField_same. unfold startEdit.
    destruct (truthy (getField row column)) eqn:Et; [|reflexivity].
    cbn [truthy toString].
    destruct (toString (getField row column)) eqn:Es; reflexivity.
  - now rewrite getField_setField_other.
Qed.

(** X25: Opening a displayed cell in the editor and saving it without a
    change turns the cell into text (into the empty text when the value was
    falsy) but leaves every field that the CSV export writes for the row as
    it was. *)
Theorem X25_unchanged_edit :
  forall (st : AppState) (tableName : string) (searchResults : list nat)
         (searchTerm : string) (position : nat) (column : string)
         (row : DataRow),
    nth_error (filteredData (rowsOf (st_data st) tableName) searchResults searchTerm)
              position = Some (Some row) ->
    exists (st' : AppState) (index : nat) (row' : DataRow),
      saveEdit st tableName searchResults searchTerm position column
               (startEdit (getField row column)) = Some st' /\
      nth_error (filteredIndices (rowsOf (st_data st) tableName) searchResults
                                 searchTerm) position = Some index /\
      nth_error (rowsOf (st_data st') tableName) index = Some row' /\
      getField row' column
      = VStr (if truthy (getField row column)
              then toString (getField row column) else "") /\
      forall header, csvField row' header = csvField row header.
Proof.
  intros st tableName searchResults searchTerm position column row H.
  rewrite filtered_aligned in H.
  destruct (nth_error (filteredIndices _ _ _) position) as [index|] eqn:Hi;
    [|discriminate].
  cbn in H. injection H as Hrow.
  unfold saveEdit. cbv zeta. rewrite (nth_error_nth _ _ _ Hi).
  unfold updateData, rowsOf in *.
  destruct (lookup (st_data st) tableName) as [rows|] eqn:Hd.
  - eexists. exists index.
    exists (setField row column (VStr (startEdit (getField row column)))).
    split; [reflexivity|]. split; [reflexivity|].
    cbn [st_data]. rewrite lookup_assign_same.
    split; [now apply nth_error_updateRow|]. split.
    + now rewrite getField_setField_same.
    + intros header. apply csvField_startEdit.
  - destruct index; discriminate.
Qed.

Lemma X25_reopened_cell_witness :
  nth_error (filteredData (rowsOf (st_data loadedState) "clients") [] "bad") 0
    = Some (Some [("ClientID", VStr "C2"); ("Email", VStr "bad")]) /\
  exists (st' : AppState) (index : nat) (row' : DataRow),
    saveEdit loadedState "clients" [] "bad" 0 "Email"
             (startEdit (getField [("ClientID", VStr "C2"); ("Email", VStr "bad")]
                                  "Email")) = Some st' /\
    nth_error (filteredIndices (rowsOf (st_data loadedState) "clients") [] "bad") 0
      = Some index /\
    nth_error (rowsOf (st_data st') "clients") index = Some row' /\
    getField row' "Email"
    = VStr (if truthy (getField [("ClientID", VStr "C2"); ("Email", VStr "bad")]
                                "Email")
            then toString (getField [("ClientID", VStr "C2"); ("Email", VStr "bad")]
                                    "Email")
            else "") /\
    forall header,
      csvField row' header
      = csvField [("ClientID", VStr "C2"); ("Email", VStr "bad")] header.
Proof.
  assert (H : nth_error (filteredData (rowsOf (st_data loadedState) "clients") [] "bad") 0
              = Some (Some [("ClientID", VStr "C2"); ("Email", VStr "bad")]))
    by reflexivity.
  exact (conj H (X25_unchanged_edit loadedState "clients" [] "bad" 0 "Email" _ H)).
Defined.

(** ** The e-mail check *)

Lemma span_spec :
  forall (p : ascii -> bool) (s a b : string),
    span p s = (a, b) ->
    s = a ++ b /\ allS p a = true /\
    match b with String c _ => p c = false | EmptyString => True end.
Proof.
  intros p s. induction s as [|c s IH]; intros a b H.
  - cbn in H. injection H as <- <-. auto.
  - cbn [span] in H. destruct (p c) eqn:Hc.
    + destruct (span p s) as [a' b'] eqn:E. injection H as <- <-.
      destruct (IH a' b' eq_refl) as (-> & Ha & Hb).
      cbn. rewrite Hc, Ha. auto.
    + injection H as <- <-. cbn. auto.
Qed.

Lemma hasInnerDot_cons :
  forall (c d : ascii) (r : string),
    hasInnerDot (String c (String d r))
    = (Ascii.eqb d "." && negb (isEmpty r)) || hasInnerDot (String d r).
Proof. reflexivity. Qed.

Lemma hasInnerDot_split :
  forall s : string,
    hasInnerDot s = true ->
    exists b c, s = b ++ "." ++ c /\ b <> "" /\ c <> "".
Proof.
  induction s as [|x s IH]; intros H; [discriminate|].
  destruct s as [|d r]; [discriminate|].
  rewrite hasInnerDot_cons in H. apply orb_true_iff in H. destruct H as [H|H].
  - apply andb_true_iff in H. destruct H as [Hd Hr].
    apply Ascii.eqb_eq in Hd. subst d.
    exists (String x ""), r. repeat split; [discriminate|].
    intros ->. discriminate.
  - destruct (IH H) as (b & c & E & Hb & Hc).
    exists (String x b), c. cbn. rewrite E. repeat split; [discriminate|exact Hc].
Qed.

Lemma hasInnerDot_app :
  forall b c : string, b <> "" -> c <> "" -> hasInnerDot (b ++ "." ++ c) = true.
Proof.
  induction b as [|x b IH]; intros c Hb Hc; [congruence|].
  destruct b as [|y b].
  - cbn [append]. rewrite hasInnerDot_cons.
    destruct c; [congruence|]. reflexivity.
  - change (String x (String y b) ++ "." ++ c)
      with (String x (String y (b ++ "." ++ c))).
    rewrite hasInnerDot_cons.
    change (String y (b ++ "." ++ c)) with (String y b ++ "." ++ c).
    rewrite IH; [apply orb_true_r|discriminate|exact Hc].
Qed.

Lemma emailRegex_spec :
  forall s : string,
    emailRegex_test s = true <->
    exists a b c,
      s = a ++ "@" ++ b ++ "." ++ c /\
      addressPart a /\ addressPart b /\ addressPart c.
Proof.
  intros s. unfold emailRegex_test, addressPart. split.
  - destruct (span notSpaceAt s) as [a rest] eqn:E.
    apply span_spec in E. destruct E as (-> & Ha & _).
    destruct rest as [|x domain]; [discriminate|].
    intros H. apply andb_true_iff in H. destruct H as [H Hdot].
    apply andb_true_iff in H. destruct H as [H Hdom].
    apply andb_true_iff in H. destruct H as [Hx Hne].
    apply Ascii.eqb_eq in Hx. subst x.
    destruct (hasInnerDot_split domain Hdot) as (b & c & -> & Hb & Hc).
    rewrite !allS_app in Hdom.
    apply andb_true_iff in Hdom. destruct Hdom as [Hdb Hdc].
    apply andb_true_iff in Hdc. destruct Hdc as [_ Hdc].
    exists a, b, c. repeat split; try assumption.
    intros ->. discriminate.
  - intros (a & b & c & -> & [Ha1 Ha2] & [Hb1 Hb2] & [Hc1 Hc2]).
    change ("@" ++ b ++ "." ++ c) with (String "@" (b ++ "." ++ c)).
    rewrite (span_app notSpaceAt a (String "@" (b ++ "." ++ c)) Ha2 eq_refl).
    rewrite Ascii.eqb_refl. cbn [andb].
    rewrite !allS_app, Hb2, Hc2. cbn [andb].
    rewrite hasInnerDot_app by assumption.
    destruct a; [congruence|reflexivity].
Qed.

(** X26: On an email column the type check accepts a cell exactly when its
    text is a part, an at sign, a part, a point and a part, where a part is
    a non-empty run of characters that are neither white space nor at
    signs (so the text holds exactly one at sign, and after it a point
    that is neither the first nor the last character). *)
Theorem X26_email_check :
  forall (v : value) (column : ColumnSchema) (index : nat) (tableName : string),
    cs_type column = TEmail ->
    (validateColumnType v column index tableName = None <->
     exists a b c,
       toString v = a ++ "@" ++ b ++ "." ++ c /\
       addressPart a /\ addressPart b /\ addressPart c).
Proof.
  intros v column index tableName Ht.
  rewrite <- emailRegex_spec. unfold validateColumnType. rewrite Ht.
  destruct (emailRegex_test (toString v)); cbn [negb]; split;
    try discriminate; reflexivity.
Qed.

Lemma X26_address_witness :
  cs_type (mkColumn "Email" TEmail None) = TEmail /\
  (validateColumnType (VStr "a@b.com") (mkColumn "Email" TEmail None) 0 "clients"
   = None <->
   exists a b c,
     toString (VStr "a@b.com") = a ++ "@" ++ b ++ "." ++ c /\
     addressPart a /\ addressPart b /\ addressPart c).
Proof.
  assert (H : cs_type (mkColumn "Email" TEmail None) = TEmail) by reflexivity.
  exact (conj H (X26_email_check (VStr "a@b.com") (mkColumn "Email" TEmail None)
                   0 "clients" H)).
Defined.

(** ** Tables whose name holds a dash *)

Lemma split_head :
  forall (sep : ascii) (s : string),
    exists h t, split sep s = h :: t /\ allS (isNot sep) h = true.
Proof.
  intros sep s. induction s as [|c s IH]; cbn [split].
  - now exists EmptyString, [].
  - destruct (Ascii.eqb c sep) eqn:E.
    + now exists EmptyString, (split sep s).
    + destruct IH as (h & t & -> & Hh). exists (String c h), t.
      split; [reflexivity|]. cbn [allS]. unfold isNot at 1. now rewrite E, Hh.
Qed.

Lemma noDash_tableOfId : forall id : string, noDash (tableOfId id) = true.
Proof.
  intros id. unfold tableOfId, noDash.
  destruct (split_head "-" id) as (h & t & -> & Hh). exact Hh.
Qed.

(** X27: The auto-fix never changes the rows of a table whose name holds a
    dash: the table it reads and writes is the part of the id of the
    finding before the first dash, which is not the name of such a table.
    So a finding of a table with a dash in its name is not fixed in its
    table, whatever its type. *)
Theorem X27_dash_table_untouched :
  forall (st st' : AppState) (e : ValidationError) (tableName : string),
    noDash tableName = false ->
    applyAutoFix st e = Some st' ->
    tableOfId (ve_id e) <> tableName /\
    lookup (st_data st') tableName = lookup (st_data st) tableName.
Proof.
  intros st st' e tableName Hdash Hfix.
  assert (Hne : tableOfId (ve_id e) <> tableName).
  { intros <-. rewrite noDash_tableOfId in Hdash. discriminate. }
  split; [exact Hne|].
  unfold applyAutoFix in Hfix.
  destruct (fixedValue (st_schemas st) e) as [v|];
    [|now injection Hfix as <-].
  unfold updateData in Hfix.
  destruct (lookup (st_data st) (tableOfId (ve_id e))) as [rows|];
    [|discriminate].
  injection Hfix as <-. cbn [st_data].
  apply lookup_assign_other. congruence.
Qed.

(** With the tables [orders] and [orders-2024] loaded, the fix of the
    finding of [orders-2024] writes 1 into [orders] and leaves [orders-2024]
    as it was. *)
Lemma X27_two_order_tables_witness :
  validateRowAgainstSchema [("Qty", VStr "")] 0 "orders-2024" (ordersSchema None)
    = [archivedQtyMissing] /\
  noDash "orders-2024" = false /\
  exists st' : AppState,
    applyAutoFix twoOrderTables archivedQtyMissing = Some st' /\
    rowsOf (st_data st') "orders" = [[("Qty", VNum (numOfNat 1))]] /\
    tableOfId (ve_id archivedQtyMissing) <> "orders-2024" /\
    lookup (st_data st') "orders-2024"
    = lookup (st_data twoOrderTables) "orders-2024".
Proof.
  split; [reflexivity|].
  assert (H : noDash "orders-2024" = false) by reflexivity.
  split; [exact H|].
  destruct (applyAutoFix twoOrderTables archivedQtyMissing) as [st'|] eqn:E;
    [|vm_compute in E; discriminate].
  exists st'. split; [reflexivity|]. split.
  - vm_compute in E. injection E as <-. reflexivity.
  - exact (X27_dash_table_untouched twoOrderTables st' archivedQtyMissing
             "orders-2024" H E).
Defined.
